(** * Timestamp normalizer (main.py): a shallow embedding and its properties

    The development follows the layout of [main.py]:
    - the Python run-time notions the program relies on (exceptions, [str]
      methods, [datetime], [_strptime], [strftime], the [pytz] classes);
    - [normalize_timestamp];
    - [process_image_file] and [process_text_file] over an explicit world
      (file system, log, trace of effects);
    - the theorems.

    Strings are Rocq strings read as sequences of code points below 256
    (Latin-1); in that range [\d] is [0-9] and [\s] is the set [isspace]. *)

From Stdlib Require Import ZArith List String Ascii Bool Lia DecimalString.
From Stdlib Require DecimalN.
Import ListNotations.

Local Open Scope string_scope.
Local Open Scope Z_scope.

(* ================================================================== *)
(** ** Exceptions and results *)

Module Py.

(** The exception classes that the modelled library code can raise, with the
    part of Python's class hierarchy above them. *)
Inductive exn : Type :=
| BaseException
| KeyboardInterrupt
| Exception
| ValueError
| UnicodeDecodeError
| TypeError
| ArithmeticError
| OverflowError
| LookupError
| IndexError
| KeyError
| UnknownTimeZoneError
| AttributeError
| RuntimeError
| RecursionError
| OSError
| FileNotFoundError
| AssertionError.

Definition exn_eqb (a b : exn) : bool :=
  match a, b with
  | BaseException, BaseException | KeyboardInterrupt, KeyboardInterrupt
  | Exception, Exception | ValueError, ValueError
  | UnicodeDecodeError, UnicodeDecodeError | TypeError, TypeError
  | ArithmeticError, ArithmeticError | OverflowError, OverflowError
  | LookupError, LookupError | IndexError, IndexError | KeyError, KeyError
  | UnknownTimeZoneError, UnknownTimeZoneError
  | AttributeError, AttributeError | RuntimeError, RuntimeError
  | RecursionError, RecursionError | OSError, OSError
  | FileNotFoundError, FileNotFoundError
  | AssertionError, AssertionError => true
  | _, _ => false
  end.

(** The direct base class. *)
Definition base (e : exn) : option exn :=
  match e with
  | BaseException => None
  | KeyboardInterrupt => Some BaseException
  | Exception => Some BaseException
  | ValueError | TypeError | ArithmeticError | LookupError | AttributeError
  | RuntimeError | OSError | AssertionError => Some Exception
  | UnicodeDecodeError => Some ValueError
  | OverflowError => Some ArithmeticError
  | IndexError | KeyError => Some LookupError
  | UnknownTimeZoneError => Some KeyError
  | RecursionError => Some RuntimeError
  | FileNotFoundError => Some OSError
  end.

Fixpoint issubclass_fuel (n : nat) (e c : exn) : bool :=
  exn_eqb e c ||
  match n with
  | O => false
  | S n' => match base e with
            | Some b => issubclass_fuel n' b c
            | None => false
            end
  end.

(** [issubclass e c]: what an [except c] clause tests.  The hierarchy above
    has depth 4. *)
Definition issubclass (e c : exn) : bool := issubclass_fuel 5 e c.

Inductive result (A : Type) : Type :=
| Ok (a : A)
| Raise (e : exn).
Arguments Ok {A} a.
Arguments Raise {A} e.

Definition bind {A B} (r : result A) (k : A -> result B) : result B :=
  match r with
  | Ok a => k a
  | Raise e => Raise e
  end.

End Py.
Import Py.

Notation "x <- e ;; k" := (bind e (fun x => k))
  (at level 61, e at next level, right associativity).

(* ================================================================== *)
(** ** [str] *)

Module Str.

Definition code (c : ascii) : Z := Z.of_nat (nat_of_ascii c).

(** [str.isspace] on one character, which is also the class [\s] of [re]
    for [str] patterns. *)
Definition isspace (c : ascii) : bool :=
  let n := code c in
  ((9 <=? n) && (n <=? 13)) || ((28 <=? n) && (n <=? 32))
  || (n =? 133) || (n =? 160).

(** The class [\d]. *)
Definition isdigit (c : ascii) : bool :=
  let n := code c in (48 <=? n) && (n <=? 57).

(** The line boundaries of [str.splitlines]. *)
Definition islinebreak (c : ascii) : bool :=
  let n := code c in
  ((10 <=? n) && (n <=? 13)) || ((28 <=? n) && (n <=? 30)) || (n =? 133).

Definition is_CR (c : ascii) : bool := code c =? 13.
Definition is_LF (c : ascii) : bool := code c =? 10.

Definition is_empty (s : string) : bool :=
  match s with EmptyString => true | _ => false end.

Definition snoc (s : string) (c : ascii) : string := s ++ String c "".

(** [s.splitlines()]: [cur] is the line being read, [started] tells whether
    it has begun (a final line break opens no further line), and
    [after_cr] that the previous character was a carriage return, which
    forms one boundary with a following line feed. *)
Fixpoint splitlines_aux (s cur : string) (started after_cr : bool)
  : list string :=
  match s with
  | EmptyString => if started then [cur] else []
  | String c s' =>
      if after_cr && is_LF c then splitlines_aux s' cur started false
      else if islinebreak c
           then cur :: splitlines_aux s' "" false (is_CR c)
           else splitlines_aux s' (snoc cur c) true false
  end.

Definition splitlines (s : string) : list string :=
  splitlines_aux s "" false false.

(** [s.split()]: the maximal runs of non-whitespace characters. *)
Fixpoint split_aux (s cur : string) : list string :=
  match s with
  | EmptyString => if is_empty cur then [] else [cur]
  | String c s' =>
      if isspace c
      then if is_empty cur then split_aux s' "" else cur :: split_aux s' ""
      else split_aux s' (snoc cur c)
  end.

Definition split (s : string) : list string := split_aux s "".

(** [s.replace(old, new)]: every non-overlapping occurrence, left to
    right.  [skip] counts the characters of an occurrence still to drop. *)
Fixpoint replace_aux (old new s : string) (skip : nat) : string :=
  match s with
  | EmptyString => ""
  | String c s' =>
      match skip with
      | S k => replace_aux old new s' k
      | O => if prefix old s
             then new ++ replace_aux old new s' (String.length old - 1)
             else String c (replace_aux old new s' 0)
      end
  end.

(** [new] after every character: the empty-pattern case of [replace]. *)
Fixpoint interleave (new s : string) : string :=
  match s with
  | EmptyString => ""
  | String c s' => String c (new ++ interleave new s')
  end.

Definition replace (s old new : string) : string :=
  if is_empty old then new ++ interleave new s
  else replace_aux old new s 0.

End Str.


(* ================================================================== *)
(** ** [datetime]

    After the reference implementation [Lib/datetime.py] of the standard
    library.  Microseconds are always zero in this program and are not
    carried. *)

Module Datetime.

Definition MINYEAR : Z := 1.
Definition MAXYEAR : Z := 9999.
Definition MAXORDINAL : Z := 3652059.

Definition is_leap (year : Z) : bool :=
  (year mod 4 =? 0) && (negb (year mod 100 =? 0) || (year mod 400 =? 0)).

Definition days_before_year (year : Z) : Z :=
  let y := year - 1 in
  y * 365 + y / 4 - y / 100 + y / 400.

(** [_DAYS_IN_MONTH[month]], for [month] in 1..12. *)
Definition DAYS_IN_MONTH (month : Z) : Z :=
  match month with
  | 1 => 31 | 2 => 28 | 3 => 31 | 4 => 30 | 5 => 31 | 6 => 30
  | 7 => 31 | 8 => 31 | 9 => 30 | 10 => 31 | 11 => 30 | 12 => 31
  | _ => -1
  end.

(** [_DAYS_BEFORE_MONTH[month]], for [month] in 1..12. *)
Definition DAYS_BEFORE_MONTH (month : Z) : Z :=
  match month with
  | 1 => 0 | 2 => 31 | 3 => 59 | 4 => 90 | 5 => 120 | 6 => 151
  | 7 => 181 | 8 => 212 | 9 => 243 | 10 => 273 | 11 => 304 | 12 => 334
  | _ => -1
  end.

Definition days_in_month (year month : Z) : Z :=
  if (month =? 2) && is_leap year then 29 else DAYS_IN_MONTH month.

Definition days_before_month (year month : Z) : Z :=
  DAYS_BEFORE_MONTH month + (if (2 <? month) && is_leap year then 1 else 0).

Definition ymd2ord (year month day : Z) : Z :=
  days_before_year year + days_before_month year month + day.

Definition DI400Y : Z := 146097.
Definition DI100Y : Z := 36524.
Definition DI4Y : Z := 1461.

(** [_ord2ymd]: ordinal to (year, month, day), 01-Jan-0001 being day 1. *)
Definition ord2ymd (n0 : Z) : Z * Z * Z :=
  let n := n0 - 1 in
  let n400 := n / DI400Y in
  let n := n mod DI400Y in
  let year := n400 * 400 + 1 in
  let n100 := n / DI100Y in
  let n := n mod DI100Y in
  let n4 := n / DI4Y in
  let n := n mod DI4Y in
  let n1 := n / 365 in
  let n := n mod 365 in
  let year := year + n100 * 100 + n4 * 4 + n1 in
  if (n1 =? 4) || (n100 =? 4) then (year - 1, 12, 31)
  else
    let leapyear := (n1 =? 3) && (negb (n4 =? 24) || (n100 =? 3)) in
    let month := Z.shiftr (n + 50) 5 in
    let preceding :=
      DAYS_BEFORE_MONTH month + (if (2 <? month) && leapyear then 1 else 0) in
    if n <? preceding
    then
      let month' := month - 1 in
      let preceding' :=
        preceding
        - (DAYS_IN_MONTH month' + (if (month' =? 2) && leapyear then 1 else 0))
      in (year, month', n - preceding' + 1)
    else (year, month, n - preceding + 1).

(** Time-zone objects are declared with the [pytz] classes below; a
    datetime carries one or none. *)
Record ttinfo : Type := mk_ttinfo {
  utcoffset : Z;        (* seconds east of UTC *)
  dst : Z;              (* seconds of daylight saving *)
  tzname : string
}.

Definition ttinfo_eqb (a b : ttinfo) : bool :=
  (utcoffset a =? utcoffset b) && (dst a =? dst b)
  && String.eqb (tzname a) (tzname b).

Record naive : Type := mk_naive {
  year : Z; month : Z; day : Z;
  hour : Z; minute : Z; second : Z
}.

(** Order of naive datetimes: lexicographic on the fields. *)
Definition naive_cmp (a b : naive) : comparison :=
  match year a ?= year b with
  | Eq =>
    match month a ?= month b with
    | Eq =>
      match day a ?= day b with
      | Eq =>
        match hour a ?= hour b with
        | Eq =>
          match minute a ?= minute b with
          | Eq => second a ?= second b
          | c => c
          end
        | c => c
        end
      | c => c
      end
    | c => c
    end
  | c => c
  end.

Definition naive_eqb (a b : naive) : bool :=
  match naive_cmp a b with Eq => true | _ => false end.
Definition naive_ltb (a b : naive) : bool :=
  match naive_cmp a b with Lt => true | _ => false end.

(** [_check_date_fields] and [_check_time_fields]: what the constructor
    accepts. *)
Definition check_date_fields (y m d : Z) : bool :=
  (MINYEAR <=? y) && (y <=? MAXYEAR) && (1 <=? m) && (m <=? 12)
  && (1 <=? d) && (d <=? days_in_month y m).

Definition check_time_fields (H M S : Z) : bool :=
  (0 <=? H) && (H <=? 23) && (0 <=? M) && (M <=? 59)
  && (0 <=? S) && (S <=? 59).

(** [datetime(year, month, day, hour, minute, second)]. *)
Definition new (y m d H M S : Z) : result naive :=
  if check_date_fields y m d && check_time_fields H M S
  then Ok (mk_naive y m d H M S)
  else Raise ValueError.

(** [date(year, month, day)], used by [_strptime] for its own checks. *)
Definition new_date (y m d : Z) : result (Z * Z * Z) :=
  if check_date_fields y m d then Ok (y, m, d) else Raise ValueError.

Definition toordinal (t : naive) : Z := ymd2ord (year t) (month t) (day t).

(** [datetime.__add__] with a [timedelta] of [delta] seconds: the sum is
    normalised to days and seconds, the days must be an ordinal in range,
    and the result is rebuilt through the constructors. *)
Definition add (t : naive) (delta : Z) : result naive :=
  let total :=
    toordinal t * 86400 + hour t * 3600 + minute t * 60 + second t + delta in
  let days := total / 86400 in
  let secs := total mod 86400 in
  let H := secs / 3600 in
  let rem := secs mod 3600 in
  let M := rem / 60 in
  let S := rem mod 60 in
  if (0 <? days) && (days <=? MAXORDINAL)
  then let '(y, m, d) := ord2ymd days in new y m d H M S
  else Raise OverflowError.

(** [datetime.__sub__] with a [timedelta]. *)
Definition sub (t : naive) (delta : Z) : result naive := add t (- delta).

Definition valid (t : naive) : Prop :=
  check_date_fields (year t) (month t) (day t)
  && check_time_fields (hour t) (minute t) (second t) = true.

End Datetime.

(* ================================================================== *)
(** ** Python values reaching the normalizer *)

(** An EXIF value is a [str] for the ASCII tags; other tag types decode to
    integers, bytes and the like, which the normalizer can be handed too. *)
Inductive pyval : Type :=
| PStr (s : string)
| PInt (n : Z)
| PBytes (b : string).

(* ================================================================== *)
(** ** [_strptime]

    After [Lib/_strptime.py]: the format is turned into a regular
    expression ([TimeRE.pattern]), the data is matched from its start
    ([re.match], ordered alternatives with backtracking), the match must end
    where the data ends, and the groups are converted and checked. *)

Module Strptime.

Import Str Datetime.

Inductive directive : Type := dY | dm | dd | dH | dM | dS.

Definition directive_eqb (a b : directive) : bool :=
  match a, b with
  | dY, dY | dm, dm | dd, dd | dH, dH | dM, dM | dS, dS => true
  | _, _ => false
  end.

(** The directives of [TimeRE] used by this program; any other character
    after [%] is reported as a bad directive. *)
Definition directive_of (c : ascii) : option directive :=
  if Ascii.eqb c "Y" then Some dY
  else if Ascii.eqb c "m" then Some dm
  else if Ascii.eqb c "d" then Some dd
  else if Ascii.eqb c "H" then Some dH
  else if Ascii.eqb c "M" then Some dM
  else if Ascii.eqb c "S" then Some dS
  else None.

Inductive cclass : Type :=
| Digit                       (* \d *)
| Range (lo hi : ascii)       (* [lo-hi] *)
| Exact (c : ascii).

Definition in_class (k : cclass) (c : ascii) : bool :=
  match k with
  | Digit => isdigit c
  | Range lo hi => (code lo <=? code c) && (code c <=? code hi)
  | Exact a => Ascii.eqb c a
  end.

(** The alternatives of each directive's group, in the order of the
    source table:
    [Y: \d\d\d\d], [m: 1[0-2]|0[1-9]|[1-9]],
    [d: 3[0-1]|[1-2]\d|0[1-9]|[1-9]| [1-9]], [H: 2[0-3]|[0-1]\d|\d],
    [M: [0-5]\d|\d], [S: 6[0-1]|[0-5]\d|\d]. *)
Definition alts (d : directive) : list (list cclass) :=
  match d with
  | dY => [[Digit; Digit; Digit; Digit]]
  | dm => [[Exact "1"; Range "0" "2"]; [Exact "0"; Range "1" "9"];
           [Range "1" "9"]]
  | dd => [[Exact "3"; Range "0" "1"]; [Range "1" "2"; Digit];
           [Exact "0"; Range "1" "9"]; [Range "1" "9"];
           [Exact " "; Range "1" "9"]]
  | dH => [[Exact "2"; Range "0" "3"]; [Range "0" "1"; Digit]; [Digit]]
  | dM => [[Range "0" "5"; Digit]; [Digit]]
  | dS => [[Exact "6"; Range "0" "1"]; [Range "0" "5"; Digit]; [Digit]]
  end.

Inductive item : Type :=
| ILit (c : ascii)            (* a literal character of the format *)
| ISpaces                     (* \s+ : a run of whitespace in the format *)
| IDir (d : directive).       (* (?P<d>...) *)

(** [TimeRE.pattern]: runs of whitespace become [\s+], [%x] becomes the
    group of directive [x], every other character stands for itself.
    [in_ws] tells that the previous character belonged to a whitespace
    run. *)
Fixpoint pattern (fmt : string) (in_ws : bool) : result (list item) :=
  match fmt with
  | EmptyString => Ok []
  | String c rest =>
      if Ascii.eqb c "%" then
        match rest with
        | EmptyString => Raise ValueError          (* stray % *)
        | String x rest' =>
            match directive_of x with
            | Some d => its <- pattern rest' false ;; Ok (IDir d :: its)
            | None => Raise ValueError             (* bad directive *)
            end
        end
      else if isspace c then
        if in_ws then pattern rest true
        else its <- pattern rest true ;; Ok (ISpaces :: its)
      else its <- pattern rest false ;; Ok (ILit c :: its)
  end.

(** Lower case of an ASCII letter: the expression is compiled with
    [IGNORECASE]. *)
Definition lower (c : ascii) : ascii :=
  let n := code c in
  if (65 <=? n) && (n <=? 90) then ascii_of_nat (nat_of_ascii c + 32) else c.

Section Matcher.

Context {R : Type}.

(** One alternative: its classes against a prefix of [s]; the matched
    text and the rest. *)
Fixpoint match_classes (ks : list cclass) (s : string)
  : option (string * string) :=
  match ks with
  | [] => Some ("", s)
  | k :: ks' =>
      match s with
      | EmptyString => None
      | String c s' =>
          if in_class k c then
            match match_classes ks' s' with
            | Some (t, r) => Some (String c t, r)
            | None => None
            end
          else None
      end
  end.

(** Alternatives in order; when the rest of the expression ([k]) fails
    after one, the next is tried. *)
Fixpoint try_alts (al : list (list cclass)) (s : string)
    (k : string -> string -> option R) : option R :=
  match al with
  | [] => None
  | a :: al' =>
      match match_classes a s with
      | Some (t, r) =>
          match k t r with
          | Some x => Some x
          | None => try_alts al' s k
          end
      | None => try_alts al' s k
      end
  end.

(** [\s+], greedy: the longest run first, giving characters back one by
    one while the rest of the expression ([k]) fails. *)
Fixpoint match_spaces (k : string -> option R) (s : string) : option R :=
  match s with
  | EmptyString => None
  | String c s' =>
      if isspace c then
        match match_spaces k s' with
        | Some x => Some x
        | None => k s'
        end
      else None
  end.

End Matcher.

Definition captures : Type := list (directive * string).

(** [format_regex.match(data_string)]: the first match in backtracking
    order, as the groups and the unmatched rest of the data. *)
Fixpoint regex_match (its : list item) (s : string)
  : option (captures * string) :=
  match its with
  | [] => Some ([], s)
  | ILit c :: its' =>
      match s with
      | EmptyString => None
      | String a s' =>
          if Ascii.eqb (lower a) (lower c) then regex_match its' s' else None
      end
  | ISpaces :: its' => match_spaces (regex_match its') s
  | IDir d :: its' =>
      try_alts (alts d) s
        (fun t r =>
           match regex_match its' r with
           | Some (caps, rest) => Some ((d, t) :: caps, rest)
           | None => None
           end)
  end.

(** [int(text)] for the text of a group: surrounding whitespace is
    dropped, decimal digits are read. *)
Fixpoint lstrip (s : string) : string :=
  match s with
  | String c s' => if isspace c then lstrip s' else s
  | EmptyString => ""
  end.

Fixpoint int_digits (s : string) (acc : Z) : result Z :=
  match s with
  | EmptyString => Ok acc
  | String c s' =>
      if isdigit c then int_digits s' (acc * 10 + (code c - 48))
      else if is_empty (lstrip s) then Ok acc
      else Raise ValueError
  end.

Definition int (s : string) : result Z :=
  match lstrip s with
  | EmptyString => Raise ValueError
  | String c s' => if isdigit c then int_digits (String c s') 0
                   else Raise ValueError
  end.

(** The variables that the loop over the groups assigns. *)
Record fields : Type := mk_fields {
  f_year : option Z; f_month : Z; f_day : Z;
  f_hour : Z; f_minute : Z; f_second : Z
}.

Definition fields0 : fields := mk_fields None 1 1 0 0 0.

Definition set_field (f : fields) (d : directive) (v : Z) : fields :=
  match d with
  | dY => mk_fields (Some v) (f_month f) (f_day f) (f_hour f) (f_minute f) (f_second f)
  | dm => mk_fields (f_year f) v (f_day f) (f_hour f) (f_minute f) (f_second f)
  | dd => mk_fields (f_year f) (f_month f) v (f_hour f) (f_minute f) (f_second f)
  | dH => mk_fields (f_year f) (f_month f) (f_day f) v (f_minute f) (f_second f)
  | dM => mk_fields (f_year f) (f_month f) (f_day f) (f_hour f) v (f_second f)
  | dS => mk_fields (f_year f) (f_month f) (f_day f) (f_hour f) (f_minute f) v
  end.

Fixpoint read_groups (caps : captures) (f : fields) : result fields :=
  match caps with
  | [] => Ok f
  | (d, t) :: caps' => v <- int t ;; read_groups caps' (set_field f d v)
  end.

(** [datetime.datetime.strptime(data_string, format)]. *)
Definition strptime (data : pyval) (fmt : string) : result naive :=
  match data with
  | PStr s =>
      its <- pattern fmt false ;;
      match regex_match its s with
      | None => Raise ValueError       (* does not match format *)
      | Some (caps, rest) =>
          if negb (is_empty rest) then Raise ValueError
                                       (* unconverted data remains *)
          else
            f <- read_groups caps fields0 ;;
            let y :=
              match f_year f with
              | Some y => y
              | None => if (f_month f =? 2) && (f_day f =? 29)
                        then 1904 else 1900
              end in
            _ <- new_date y (f_month f) (f_day f) ;;   (* julian, weekday *)
            new y (f_month f) (f_day f) (f_hour f) (f_minute f) (f_second f)
      end
  | _ => Raise TypeError               (* argument 1 must be str *)
  end.

End Strptime.

(* ================================================================== *)
(** ** [pytz]

    The three classes of [pytz.tzinfo]: the [UTC] singleton,
    [StaticTzInfo] (one fixed offset) and [DstTzInfo] (a table of UTC
    transition times and the offset in force after each).  A [DstTzInfo]
    zone has one object per table entry ([_tzinfos]); [inf] is the entry an
    object stands for. *)

Module Pytz.

Import Datetime.

Inductive tzinfo : Type :=
| UTC
| StaticTzInfo (zone : string) (off : Z)
| DstTzInfo (zone : string) (utc_transition_times : list naive)
            (transition_info : list ttinfo) (inf : ttinfo).

(** An aware datetime: local fields and the attached tzinfo object. *)
Record aware : Type := mk_aware { local : naive; tz : tzinfo }.

(** Object identity ([is]): the singleton, or the object of the same zone
    (and, in a [DstTzInfo] zone, of the same table entry). *)
Definition tz_is (a b : tzinfo) : bool :=
  match a, b with
  | UTC, UTC => true
  | StaticTzInfo z1 _, StaticTzInfo z2 _ => String.eqb z1 z2
  | DstTzInfo z1 _ _ i1, DstTzInfo z2 _ _ i2 =>
      String.eqb z1 z2 && ttinfo_eqb i1 i2
  | _, _ => false
  end.

(** [_check_utc_offset]: an offset handed to [datetime] by a tzinfo method
    must lie strictly within one day. *)
Definition check_utc_offset (off : Z) : result Z :=
  if (-86400 <? off) && (off <? 86400) then Ok off else Raise ValueError.

(** [dt.utcoffset()] of an aware datetime. *)
Definition call_utcoffset (t : tzinfo) : result Z :=
  match t with
  | UTC => check_utc_offset 0
  | StaticTzInfo _ off => check_utc_offset off
  | DstTzInfo _ _ _ inf => check_utc_offset (utcoffset inf)
  end.

(** The attribute [_utcoffset], read without the check. *)
Definition raw_utcoffset (t : tzinfo) : Z :=
  match t with
  | UTC => 0
  | StaticTzInfo _ off => off
  | DstTzInfo _ _ _ inf => utcoffset inf
  end.

(** [dt.dst()]: [None] for a static zone. *)
Definition call_dst (t : tzinfo) : result (option Z) :=
  match t with
  | UTC => d <- check_utc_offset 0 ;; Ok (Some d)
  | StaticTzInfo _ _ => Ok None
  | DstTzInfo _ _ _ inf => d <- check_utc_offset (dst inf) ;; Ok (Some d)
  end.

(** [bisect.bisect_right(a, x)]: every round shrinks [hi - lo], so
    [length a] rounds reach [lo >= hi]. *)
Fixpoint bisect_loop (fuel : nat) (a : list naive) (x : naive) (lo hi : Z)
  : Z :=
  match fuel with
  | O => lo
  | S fuel' =>
      if lo <? hi then
        let mid := (lo + hi) / 2 in
        match nth_error a (Z.to_nat mid) with
        | Some am =>
            if naive_ltb x am then bisect_loop fuel' a x lo mid
            else bisect_loop fuel' a x (mid + 1) hi
        | None => lo
        end
      else lo
  end.

Definition bisect_right (a : list naive) (x : naive) : Z :=
  bisect_loop (List.length a) a x 0 (Z.of_nat (List.length a)).

(** [self._transition_info[idx]] for
    [idx = max(0, bisect_right(self._utc_transition_times, dt) - 1)]. *)
Definition info_at (times : list naive) (infos : list ttinfo) (t : naive)
  : result ttinfo :=
  let idx := Z.max 0 (bisect_right times t - 1) in
  match nth_error infos (Z.to_nat idx) with
  | Some inf => Ok inf
  | None => Raise IndexError
  end.

(** [tz.fromutc(dt)] for [dt] holding UTC fields. *)
Definition fromutc (t : tzinfo) (u : naive) : result aware :=
  match t with
  | UTC => l <- add u 0 ;; Ok (mk_aware l UTC)
  | StaticTzInfo z off => l <- add u off ;; Ok (mk_aware l t)
  | DstTzInfo z times infos _ =>
      inf <- info_at times infos u ;;
      l <- add u (utcoffset inf) ;;
      Ok (mk_aware l (DstTzInfo z times infos inf))
  end.

(** [tz.normalize(dt)]: through UTC and back. *)
Definition normalize (t : tzinfo) (d : aware) : result aware :=
  u <- sub (local d) (raw_utcoffset (tz d)) ;;
  fromutc t u.

Section Localize.

Variables (zone : string) (times : list naive) (infos : list ttinfo).

(** One round of the loop over [timedelta(days=-1)], [timedelta(days=1)]
    in [DstTzInfo.localize]: the candidate when it reads back as [dt]. *)
Definition candidate (dt : naive) (delta : Z) : result (option aware) :=
  loc_dt <- add dt delta ;;
  inf <- info_at times infos loc_dt ;;
  let tzi := DstTzInfo zone times infos inf in
  loc <- normalize tzi (mk_aware dt tzi) ;;
  Ok (if naive_eqb (local loc) dt then Some loc else None).

(** [possible_loc_dt.add(loc_dt)]: aware datetimes are hashed and compared
    by their UTC instant; the candidates share their local fields, so two
    are equal when their offsets are. *)
Definition set_add (c : option aware) (s : list aware) : result (list aware) :=
  match c with
  | None => Ok s
  | Some x =>
      ox <- call_utcoffset (tz x) ;;
      if existsb (fun y => raw_utcoffset (tz y) =? ox) s
      then Ok s else Ok (s ++ [x])%list
  end.

Definition tz_dst_is_zero (x : aware) : bool :=
  match tz x with
  | DstTzInfo _ _ _ inf => dst inf =? 0
  | _ => true
  end.

(** The closing dictionary of [localize]: [utc -> local], then the entry of
    the latest UTC time ([is_dst] is false). *)
Fixpoint latest_by_utc (l : list aware) (best : option (naive * aware))
  : result (option aware) :=
  match l with
  | [] => Ok (option_map snd best)
  | x :: l' =>
      u <- sub (local x) (raw_utcoffset (tz x)) ;;
      match best with
      | None => latest_by_utc l' (Some (u, x))
      | Some (bu, bx) =>
          if naive_eqb u bu then Raise AssertionError
          else if naive_ltb bu u then latest_by_utc l' (Some (u, x))
          else latest_by_utc l' best
      end
  end.

(** [DstTzInfo.localize(dt)] with the default [is_dst=False]; [depth] is
    the number of nested calls the interpreter still allows. *)
Fixpoint localize_dst (depth : nat) (dt : naive) : result aware :=
  match depth with
  | O => Raise RecursionError
  | S depth' =>
      c1 <- candidate dt (-86400) ;;
      s1 <- set_add c1 [] ;;
      c2 <- candidate dt 86400 ;;
      possible <- set_add c2 s1 ;;
      match possible with
      | [x] => Ok x
      | [] =>
          (* a time that never happened: wind the clock back *)
          earlier <- sub dt 21600 ;;
          r <- localize_dst depth' earlier ;;
          l <- add (local r) 21600 ;;
          Ok (mk_aware l (tz r))
      | _ =>
          let filtered := filter tz_dst_is_zero possible in
          match filtered with
          | [x] => Ok x
          | _ =>
              let filtered' :=
                match filtered with [] => possible | _ => filtered end in
              r <- latest_by_utc filtered' None ;;
              match r with
              | Some x => Ok x
              | None => Raise ValueError      (* max() of an empty dict *)
              end
          end
      end
  end.

End Localize.

(** [tz.localize(dt)] for a naive [dt]. *)
Definition localize (depth : nat) (t : tzinfo) (dt : naive) : result aware :=
  match t with
  | UTC => Ok (mk_aware dt UTC)
  | StaticTzInfo _ _ => Ok (mk_aware dt t)
  | DstTzInfo z times infos _ => localize_dst z times infos depth dt
  end.

(** [dt.astimezone(tz)] for an aware [dt]: nothing to do when [tz] is the
    datetime's own tzinfo object; otherwise through UTC. *)
Definition astimezone (d : aware) (target : tzinfo) : result aware :=
  if tz_is target (tz d) then Ok d
  else
    myoffset <- call_utcoffset (tz d) ;;
    u <- sub (local d) myoffset ;;
    fromutc target u.

End Pytz.

(* ================================================================== *)
(** ** [strftime] *)

Module Strftime.

Import Datetime Pytz.

(** Decimal digits of a non-negative number. *)
Definition decimal (n : Z) : string :=
  NilZero.string_of_uint (N.to_uint (Z.to_N n)).

Fixpoint zeros (k : nat) : string :=
  match k with O => "" | S k' => String "0" (zeros k') end.

(** C's [%0wd]. *)
Definition zfill (w : nat) (n : Z) : string :=
  let s := decimal n in
  zeros (w - String.length s) ++ s.

(** The C library formats the directives.  [%m %d %H %M %S] are two
    digits.  [%Y] is the year in decimal; whether a year below 1000 is
    zero-filled to four digits is the C library's choice ([pads_year]):
    glibc prints it as it is, so on Linux CPython 3.11 gives
    [datetime(999,1,2,3,4,5).strftime("%Y") == "999"]; other C libraries
    give ["0999"]. *)
Definition directive (pads_year : bool) (t : naive) (c : ascii)
  : option string :=
  if Ascii.eqb c "Y" then
    Some (if pads_year then zfill 4 (year t) else decimal (year t))
  else if Ascii.eqb c "m" then Some (zfill 2 (month t))
  else if Ascii.eqb c "d" then Some (zfill 2 (day t))
  else if Ascii.eqb c "H" then Some (zfill 2 (hour t))
  else if Ascii.eqb c "M" then Some (zfill 2 (minute t))
  else if Ascii.eqb c "S" then Some (zfill 2 (second t))
  else None.

(** The format is copied, each [%x] replaced; a directive outside the six
    above is left as written. *)
Fixpoint expand (pads_year : bool) (t : naive) (fmt : string) : string :=
  match fmt with
  | EmptyString => ""
  | String c rest =>
      if Ascii.eqb c "%" then
        match rest with
        | EmptyString => "%"
        | String x rest' =>
            match directive pads_year t x with
            | Some s => s ++ expand pads_year t rest'
            | None => String c (String x (expand pads_year t rest'))
            end
        end
      else String c (expand pads_year t rest)
  end.

(** [dt.strftime(fmt)]: the time tuple asks the tzinfo for [dst()]
    first. *)
Definition strftime (pads_year : bool) (d : aware) (fmt : string)
  : result string :=
  _ <- call_dst (tz d) ;;
  Ok (expand pads_year (local d) fmt).

End Strftime.

(* ================================================================== *)
(** ** The platform under the program *)

(** What the program takes from its installation:
    - [zoneinfo]: the compiled time-zone database of [pytz], from a zone
      name to the zone's tzinfo object, [None] for a name that is not in
      it;
    - [recursion_limit]: how deeply calls can nest before the interpreter
      raises [RecursionError];
    - [strftime_pads_year]: see [Strftime.directive]. *)
Record platform : Type := mk_platform {
  zoneinfo : string -> option Pytz.tzinfo;
  recursion_limit : nat;
  strftime_pads_year : bool
}.

Definition upper (c : ascii) : ascii :=
  let n := Str.code c in
  if (97 <=? n) && (n <=? 122) then ascii_of_nat (nat_of_ascii c - 32) else c.

Fixpoint str_upper (s : string) : string :=
  match s with
  | EmptyString => ""
  | String c s' => String (upper c) (str_upper s')
  end.

(** [pytz.timezone(zone)]: any spelling of ["UTC"] is the singleton;
    otherwise the database decides, and an unknown name raises
    [UnknownTimeZoneError]. *)
Definition timezone (p : platform) (zone : string) : result Pytz.tzinfo :=
  if String.eqb (str_upper zone) "UTC" then Ok Pytz.UTC
  else match zoneinfo p zone with
       | Some t => Ok t
       | None => Raise UnknownTimeZoneError
       end.

(* ================================================================== *)
(** ** Logging *)

Inductive level : Type := INFO | WARNING | ERROR.

(** The log lines of [main.py], one constructor per message, with the
    values that the message interpolates. *)
Inductive message : Type :=
| Could_not_parse (timestamp : pyval)
| Invalid_timezone (e : exn)
| Error_normalizing (e : exn)
| No_EXIF_data (file_path : string)
| Processing_tag (tag : option string) (tag_id : Z) (value : pyval)
| Normalized_tag (tag : option string) (value : pyval)
                 (normalized : string) (target_timezone : string)
| Failed_to_normalize (tag : option string) (value : pyval)
| Updated_EXIF (file_path : string)
| Dry_run_EXIF (file_path : string) (updated_exif : list (Z * string))
| No_DateTime_EXIF (file_path : string)
| File_not_found (file_path : string)
| Error_opening (file_path : string) (e : exn)
| Unexpected_error (file_path : string) (e : exn)
| Normalized_text (timestamp normalized target_timezone : string)
| Normalized_file (file_path : string)
| Dry_run_text (file_path : string) (replacements : list (string * string))
| No_timestamps (file_path : string)
| Unicode_decode_error (e : exn)
| Error_processing_text (e : exn).

Definition log : Type := list (level * message).

(* ================================================================== *)
(** ** [normalize_timestamp] (main.py, lines 27-70)

    Both callers pass the three arguments, so the default of
    [target_timezone] plays no part. *)

Section Normalizer.

Variable p : platform.

Definition formats_to_try : list string :=
  [ "%Y:%m:%d %H:%M:%S"; "%Y-%m-%d %H:%M:%S"; "%Y/%m/%d %H:%M:%S";
    "%m/%d/%Y %H:%M:%S"; "%d/%m/%Y %H:%M:%S" ].

(** Lines 43-48: the loop over the formats; [None] when it ends with
    [dt_object] still unset.  Only [ValueError] is caught here. *)
Fixpoint parse_loop (timestamp : pyval) (fmts : list string)
  : result (option Datetime.naive) :=
  match fmts with
  | [] => Ok None
  | fmt :: rest =>
      match Strptime.strptime timestamp fmt with
      | Ok dt_object => Ok (Some dt_object)                  (* break *)
      | Raise e =>
          if issubclass e ValueError then parse_loop timestamp rest
          else Raise e
      end
  end.

(** Lines 54-63. *)
Definition convert (dt_object : Datetime.naive)
    (source_timezone target_timezone : string) : result string :=
  source_tz <- timezone p source_timezone ;;
  localized_dt <- Pytz.localize (recursion_limit p) source_tz dt_object ;;
  target_tz <- timezone p target_timezone ;;
  utc_dt <- Pytz.astimezone localized_dt target_tz ;;
  Strftime.strftime (strftime_pads_year p) utc_dt "%Y:%m:%d %H:%M:%S".

(** The body of the [try] (lines 40-63), with what it logs. *)
Definition normalize_try (timestamp : pyval)
    (source_timezone target_timezone : string)
  : result (option string) * log :=
  match parse_loop timestamp formats_to_try with
  | Raise e => (Raise e, [])
  | Ok None => (Ok None, [(ERROR, Could_not_parse timestamp)])
  | Ok (Some dt_object) =>
      match convert dt_object source_timezone target_timezone with
      | Ok s => (Ok (Some s), [])
      | Raise e => (Raise e, [])
      end
  end.

(** The function: the two [except] clauses (lines 65-70) turn
    [UnknownTimeZoneError] and every other [Exception] into [None]; an
    exception outside [Exception] would pass through. *)
Definition normalize_timestamp (timestamp : pyval)
    (source_timezone target_timezone : string)
  : result (option string) * log :=
  match normalize_try timestamp source_timezone target_timezone with
  | (Raise e, lg) =>
      if issubclass e UnknownTimeZoneError
      then (Ok None, lg ++ [(ERROR, Invalid_timezone e)])%list
      else if issubclass e Exception
      then (Ok None, lg ++ [(ERROR, Error_normalizing e)])%list
      else (Raise e, lg)
  | r => r
  end.

End Normalizer.

(* ================================================================== *)
(** ** The world of the file processors *)

Definition bytes : Type := list Byte.byte.

(** What a run does, in order: log lines, calls of the normalizer, and
    replacements of a file's content. *)
Inductive event : Type :=
| EvLog (lv : level) (m : message)
| EvNormalize (timestamp : pyval)
| EvWrite (file_path : string) (content : bytes).

Record world : Type := mk_world {
  files : string -> option bytes;
  trace : list event
}.

(** A computation that may raise and changes the world. *)
Definition M (A : Type) : Type := world -> result A * world.

Definition ret {A} (a : A) : M A := fun w => (Ok a, w).

Definition raise {A} (e : exn) : M A := fun w => (Raise e, w).

Definition bindM {A B} (m : M A) (k : A -> M B) : M B :=
  fun w => match m w with
           | (Ok a, w') => k a w'
           | (Raise e, w') => (Raise e, w')
           end.

Notation "x <~ e ;; k" := (bindM e (fun x => k))
  (at level 61, e at next level, right associativity).
Notation "e ;;; k" := (bindM e (fun _ => k))
  (at level 61, right associativity).

Definition lift {A} (r : result A) : M A := fun w => (r, w).

Definition emit (ev : event) : M unit :=
  fun w => (Ok tt, mk_world (files w) (trace w ++ [ev])%list).

Definition logging (lv : level) (m : message) : M unit := emit (EvLog lv m).

Definition emit_log (lg : log) : M unit :=
  fun w => (Ok tt, mk_world (files w)
                     (trace w ++ map (fun '(lv, m) => EvLog lv m) lg)%list).

Definition read_file (file_path : string) : M bytes :=
  fun w => match files w file_path with
           | Some b => (Ok b, w)
           | None => (Raise FileNotFoundError, w)
           end.

(** The content of [file_path] becomes [b]. *)
Definition write_file (file_path : string) (b : bytes) : M unit :=
  fun w => (Ok tt,
            mk_world (fun q => if String.eqb q file_path then Some b
                               else files w q)
                     (trace w ++ [EvWrite file_path b])%list).

(** The type of [normalize_timestamp]: the value returned or the exception
    raised, and the lines logged. *)
Definition normalizer : Type :=
  pyval -> string -> string -> result (option string) * log.

(** A call of the normalizer from a processor. *)
Definition call_normalize (normalize : normalizer) (timestamp : pyval)
    (source_timezone target_timezone : string) : M (option string) :=
  emit (EvNormalize timestamp) ;;;
  let '(r, lg) := normalize timestamp source_timezone target_timezone in
  emit_log lg ;;; lift r.

(** Python truth of the normalizer's result. *)
Definition truthy (r : option string) : option string :=
  match r with
  | Some s => if Str.is_empty s then None else Some s
  | None => None
  end.

(** [d[k] = v] on a dict kept in insertion order. *)
Fixpoint dict_set {K V} (eqb : K -> K -> bool) (d : list (K * V)) (k : K)
    (v : V) : list (K * V) :=
  match d with
  | [] => [(k, v)]
  | (k', v') :: d' =>
      if eqb k' k then (k, v) :: d' else (k', v') :: dict_set eqb d' k v
  end.

(** [d.get(k)]. *)
Fixpoint dict_get {K V} (eqb : K -> K -> bool) (d : list (K * V)) (k : K)
  : option V :=
  match d with
  | [] => None
  | (k', v') :: d' => if eqb k' k then Some v' else dict_get eqb d' k
  end.

(* ================================================================== *)
(** ** [process_image_file] (main.py, lines 72-126)

    The two processors are written over the function that the global name
    [normalize_timestamp] denotes when they run ([normalize]); the
    program's own are their instances at [normalize_timestamp], given
    last. *)

(** What the program takes from Pillow.
    - [Image_open]: decoding the file's bytes into an image object;
    - [getexif]: [img._getexif()], the decoded tags in the file's order, or
      [None];
    - [TAGS]: the table [ExifTags.TAGS];
    - [ExifTag]: the attribute [ExifTag] of the module [PIL.ExifTags],
      when the installed Pillow has one, as the value of the expression
      [ExifTag.string_to_bytes(ExifTag.dict_to_bytes(exif_data))];
    - [save]: [img.save(file_path, exif=...)]: the bytes left in the file,
      if it was touched, and how the call ended. *)
Record pillow : Type := mk_pillow {
  image : Type;
  Image_open : bytes -> result image;
  getexif : image -> result (option (list (Z * pyval)));
  TAGS : Z -> option string;
  ExifTag : option (list (Z * pyval) -> result bytes);
  save : image -> bytes -> option bytes * result unit
}.

Section ImageProcessor.

Variables (normalize : normalizer) (pil : pillow).

Definition is_datetime_tag (tag : option string) : bool :=
  match tag with
  | Some t => String.eqb t "DateTime" || String.eqb t "DateTimeOriginal"
              || String.eqb t "DateTimeDigitized"
  | None => false
  end.

(** Lines 91-103: the loop over [exif_data.items()]. *)
Fixpoint stage_tags (items : list (Z * pyval)) (target_timezone : string)
    (verbose : bool) (updated_exif : list (Z * string))
  : M (list (Z * string)) :=
  match items with
  | [] => ret updated_exif
  | (tag_id, value) :: rest =>
      let tag := TAGS pil tag_id in
      (if verbose then logging INFO (Processing_tag tag tag_id value)
       else ret tt) ;;;
      if is_datetime_tag tag then
        r <~ call_normalize normalize value "UTC" target_timezone ;;
        match truthy r with
        | Some normalized_timestamp =>
            let updated_exif' :=
              dict_set Z.eqb updated_exif tag_id normalized_timestamp in
            logging INFO (Normalized_tag tag value normalized_timestamp
                            target_timezone) ;;;
            stage_tags rest target_timezone verbose updated_exif'
        | None =>
            logging WARNING (Failed_to_normalize tag value) ;;;
            stage_tags rest target_timezone verbose updated_exif
        end
      else stage_tags rest target_timezone verbose updated_exif
  end.

(** Lines 108-109. *)
Fixpoint apply_updates (exif_data : list (Z * pyval))
    (updated_exif : list (Z * string)) : list (Z * pyval) :=
  match updated_exif with
  | [] => exif_data
  | (tag_id, new_value) :: rest =>
      apply_updates (dict_set Z.eqb exif_data tag_id (PStr new_value)) rest
  end.

(** Line 113. *)
Definition img_save (img : image pil) (file_path : string) (exif : bytes)
  : M unit :=
  let '(written, r) := save pil img exif in
  match written with
  | Some b => write_file file_path b
  | None => ret tt
  end ;;; lift r.

(** The body of the [try] (lines 83-118). *)
Definition process_image_try (file_path target_timezone : string)
    (dry_run verbose : bool) : M unit :=
  raw <~ read_file file_path ;;
  img <~ lift (Image_open pil raw) ;;
  exif_data <~ lift (getexif pil img) ;;
  match exif_data with
  | None => logging WARNING (No_EXIF_data file_path)
  | Some exif_data =>
      updated_exif <~ stage_tags exif_data target_timezone verbose [] ;;
      match updated_exif with
      | _ :: _ =>
          if negb dry_run then
            let exif_data' := apply_updates exif_data updated_exif in
            new_exif <~ lift (match ExifTag pil with
                              | Some to_bytes => to_bytes exif_data'
                              | None => Raise AttributeError
                              end) ;;
            img_save img file_path new_exif ;;;
            logging INFO (Updated_EXIF file_path)
          else logging INFO (Dry_run_EXIF file_path updated_exif)
      | [] => logging INFO (No_DateTime_EXIF file_path)
      end
  end.

(** The function, with its [except] clauses (lines 121-126). *)
Definition process_image_file_with (file_path target_timezone : string)
    (dry_run verbose : bool) : M unit :=
  fun w =>
    match process_image_try file_path target_timezone dry_run verbose w with
    | (Raise e, w') =>
        if issubclass e FileNotFoundError
        then logging ERROR (File_not_found file_path) w'
        else if issubclass e OSError
        then logging ERROR (Error_opening file_path e) w'
        else if issubclass e Exception
        then logging ERROR (Unexpected_error file_path e) w'
        else (Raise e, w')
    | r => r
    end.

End ImageProcessor.

(* ================================================================== *)
(** ** [process_text_file] (main.py, lines 128-188) *)

(** What the program takes from [chardet] and the codecs.
    - [detect]: [chardet.detect(raw)['encoding']], possibly [None];
    - [decode]: reading the file in text mode with that encoding;
    - [encode]: the bytes that writing the text with that encoding
      produces. *)
Record codecs : Type := mk_codecs {
  detect : bytes -> result (option string);
  decode : option string -> bytes -> result string;
  encode : option string -> string -> result bytes
}.

Section TextProcessor.

Variables (normalize : normalizer) (cd : codecs).

(** Lines 155-160: the words of one line that parse as [%Y-%m-%d]. *)
Fixpoint scan_words (words : list string) : result (list string) :=
  match words with
  | [] => Ok []
  | word :: rest =>
      match Strptime.strptime (PStr word) "%Y-%m-%d" with
      | Ok _ => ts <- scan_words rest ;; Ok (word :: ts)
      | Raise e =>
          if issubclass e ValueError then scan_words rest else Raise e
      end
  end.

(** Lines 152-160. *)
Fixpoint scan_lines (lines : list string) : result (list string) :=
  match lines with
  | [] => Ok []
  | line :: rest =>
      a <- scan_words (Str.split line) ;;
      b <- scan_lines rest ;;
      Ok (a ++ b)%list
  end.

(** Lines 165-170: the loop over the candidates, from the content and the
    replacements so far. *)
Fixpoint replace_loop (potential_timestamps : list string)
    (target_timezone : string) (normalized_content : string)
    (replacements : list (string * string))
  : M (string * list (string * string)) :=
  match potential_timestamps with
  | [] => ret (normalized_content, replacements)
  | timestamp :: rest =>
      r <~ call_normalize normalize (PStr timestamp) "UTC" target_timezone ;;
      match truthy r with
      | Some normalized_timestamp =>
          let replacements' :=
            dict_set String.eqb replacements timestamp normalized_timestamp in
          let normalized_content' :=
            Str.replace normalized_content timestamp normalized_timestamp in
          logging INFO (Normalized_text timestamp normalized_timestamp
                          target_timezone) ;;;
          replace_loop rest target_timezone normalized_content' replacements'
      | None => replace_loop rest target_timezone normalized_content
                  replacements
      end
  end.

(** Lines 174-175: opening for writing empties the file; the text is
    then encoded and written. *)
Definition write_text (file_path : string) (encoding : option string)
    (text : string) : M unit :=
  match encode cd encoding text with
  | Ok b => write_file file_path b
  | Raise e => write_file file_path [] ;;; raise e
  end.

(** The body of the [try] (lines 141-180). *)
Definition process_text_try (file_path target_timezone : string)
    (dry_run verbose : bool) : M unit :=
  raw <~ read_file file_path ;;
  encoding <~ lift (detect cd raw) ;;
  raw' <~ read_file file_path ;;
  content <~ lift (decode cd encoding raw') ;;
  potential_timestamps <~ lift (scan_lines (Str.splitlines content)) ;;
  cr <~ replace_loop potential_timestamps target_timezone content [] ;;
  let '(normalized_content, replacements) := cr in
  match replacements with
  | _ :: _ =>
      if negb dry_run then
        write_text file_path encoding normalized_content ;;;
        logging INFO (Normalized_file file_path)
      else logging INFO (Dry_run_text file_path replacements)
  | [] => logging INFO (No_timestamps file_path)
  end.

(** The function, with its [except] clauses (lines 183-188). *)
Definition process_text_file_with (file_path target_timezone : string)
    (dry_run verbose : bool) : M unit :=
  fun w =>
    match process_text_try file_path target_timezone dry_run verbose w with
    | (Raise e, w') =>
        if issubclass e FileNotFoundError
        then logging ERROR (File_not_found file_path) w'
        else if issubclass e UnicodeDecodeError
        then logging ERROR (Unicode_decode_error e) w'
        else if issubclass e Exception
        then logging ERROR (Error_processing_text e) w'
        else (Raise e, w')
    | r => r
    end.

End TextProcessor.

(** The program's processors. *)
Definition process_image_file (p : platform) (pil : pillow)
  : string -> string -> bool -> bool -> M unit :=
  process_image_file_with (normalize_timestamp p) pil.

Definition process_text_file (p : platform) (cd : codecs)
  : string -> string -> bool -> bool -> M unit :=
  process_text_file_with (normalize_timestamp p) cd.

(* ================================================================== *)
(** ** [main] (main.py, lines 190-220)

    [main] is modelled from the parsed arguments on; [argparse] itself is
    not.  Raising the log level for [--verbose] changes nothing that is
    logged: the program has no call below [INFO]. *)

Module Path.

(** [s.rfind(c)] for a character: the highest index of [c], or -1. *)
Fixpoint rfind (c : ascii) (s : string) : Z :=
  match s with
  | EmptyString => -1
  | String a s' =>
      let r := rfind c s' in
      if 0 <=? r then r + 1 else if Ascii.eqb a c then 0 else -1
  end.

(** [s[:n]] and [s[n:]]. *)
Fixpoint take (n : nat) (s : string) : string :=
  match n, s with
  | S n', String a s' => String a (take n' s')
  | _, _ => ""
  end.

Fixpoint drop (n : nat) (s : string) : string :=
  match n, s with
  | S n', String _ s' => drop n' s'
  | _, _ => s
  end.

(** [s[i:i+1] != "."]. *)
Definition not_dot_at (s : string) (i : Z) : bool :=
  match drop (Z.to_nat i) s with
  | String a _ => negb (Ascii.eqb a ".")
  | EmptyString => true
  end.

(** The loop of [genericpath._splitext] that skips leading dots: [true]
    when it returns the split, [false] when it runs out.  The index grows
    by one each round, so [dotIndex - filenameIndex] rounds are all there
    can be. *)
Fixpoint skip_dots (rounds : nat) (p : string) (filenameIndex dotIndex : Z)
  : bool :=
  match rounds with
  | O => false
  | S rounds' =>
      if filenameIndex <? dotIndex then
        if not_dot_at p filenameIndex then true
        else skip_dots rounds' p (filenameIndex + 1) dotIndex
      else false
  end.

(** [os.path.splitext(p)] of [posixpath]: separator [/], no alternative
    separator. *)
Definition splitext (p : string) : string * string :=
  let sepIndex := rfind "/" p in
  let dotIndex := rfind "." p in
  if (sepIndex <? dotIndex)
     && skip_dots (Z.to_nat (dotIndex - (sepIndex + 1))) p (sepIndex + 1)
          dotIndex
  then (take (Z.to_nat dotIndex) p, drop (Z.to_nat dotIndex) p)
  else (p, "").

(** [str.lower] on the code points below 256: the ASCII capitals and the
    Latin-1 capitals (192 to 222 but the multiplication sign, 215). *)
Definition lower_char (c : ascii) : ascii :=
  let n := Str.code c in
  if ((65 <=? n) && (n <=? 90))
     || ((192 <=? n) && (n <=? 222) && negb (n =? 215))
  then ascii_of_nat (nat_of_ascii c + 32) else c.

Fixpoint lower (s : string) : string :=
  match s with
  | EmptyString => ""
  | String c s' => String (lower_char c) (lower s')
  end.

End Path.

Record arguments : Type := mk_arguments {
  file_path : string;
  timezone_arg : string;           (* --timezone, default "UTC" *)
  dry_run : bool;
  verbose : bool
}.

(** Lines 211 and 213. *)
Definition image_extensions : list string :=
  [".jpg"; ".jpeg"; ".png"; ".tiff"; ".tif"].

Definition text_extensions : list string :=
  [".txt"; ".log"; ".csv"; ".json"; ".xml"].

Definition str_in (x : string) (l : list string) : bool :=
  existsb (String.eqb x) l.

(** The log lines of [main] itself. *)
Inductive main_message : Type :=
| Main_file_not_found (file_path : string)
| Unsupported_file_type (file_extension : string)
| Main_unexpected_error (e : exn).

(** How the process ends: [sys.exit(code)], falling off the end of
    [main] being [Exit 0], or an exception that nothing catches. *)
Inductive ending : Type :=
| Exit (code : Z)
| Uncaught (e : exn).

(** A run of [main]: how it ends, the world the processor left, and the
    lines [main] logged itself.  In every path these lines come after
    whatever the processor did. *)
Record run : Type := mk_run {
  ended : ending;
  left : world;
  said : list (level * main_message)
}.

Section Main.

Variables (p : platform) (pil : pillow) (cd : codecs).

(** Lines 208-220 for an existing path. *)
Definition dispatch (a : arguments) (w : world) : run :=
  let file_extension := Path.lower (snd (Path.splitext (file_path a))) in
  let finish (r : result unit * world) : run :=
    match r with
    | (Ok _, w') => mk_run (Exit 0) w' []
    | (Raise e, w') =>
        if issubclass e Exception
        then mk_run (Exit 1) w' [(ERROR, Main_unexpected_error e)]
        else mk_run (Uncaught e) w' []
    end in
  if str_in file_extension image_extensions then
    finish (process_image_file p pil (file_path a) (timezone_arg a)
              (dry_run a) (verbose a) w)
  else if str_in file_extension text_extensions then
    finish (process_text_file p cd (file_path a) (timezone_arg a)
              (dry_run a) (verbose a) w)
  else mk_run (Exit 0) w [(WARNING, Unsupported_file_type file_extension)].

(** Lines 200-220: [os.path.exists] is the presence of the file. *)
Definition main (a : arguments) (w : world) : run :=
  match files w (file_path a) with
  | None => mk_run (Exit 1) w [(ERROR, Main_file_not_found (file_path a))]
  | Some _ => dispatch a w
  end.

End Main.

(** A result that is a value, or an exception that [except Exception]
    catches. *)
Definition caught_by_Exception {A} (r : result A) : Prop :=
  match r with
  | Ok _ => True
  | Raise e => issubclass e Exception = true
  end.

(** Library functions that raise nothing outside [Exception]. *)
Definition pillow_raises_Exceptions (pil : pillow) : Prop :=
  (forall raw, caught_by_Exception (Image_open pil raw)) /\
  (forall img, caught_by_Exception (getexif pil img)) /\
  (forall to_bytes exif_data,
     ExifTag pil = Some to_bytes -> caught_by_Exception (to_bytes exif_data))
  /\ (forall img exif, caught_by_Exception (snd (save pil img exif))).

Definition codecs_raise_Exceptions (cd : codecs) : Prop :=
  (forall raw, caught_by_Exception (detect cd raw)) /\
  (forall encoding raw, caught_by_Exception (decode cd encoding raw)) /\
  (forall encoding text, caught_by_Exception (encode cd encoding text)).

(* ================================================================== *)
(** ** Notions used by the statements *)

Fixpoint has_space (s : string) : bool :=
  match s with
  | EmptyString => false
  | String c s' => Str.isspace c || has_space s'
  end.

Module Pattern.

Import Str Strptime.

(** The language of a compiled format, read without any matching order:
    [remainders its s] lists every suffix that some match of [its] against
    a prefix of [s] leaves. *)
Fixpoint after_spaces (s : string) : list string :=
  match s with
  | EmptyString => []
  | String c s' => if isspace c then s' :: after_spaces s' else []
  end.

Fixpoint remainders (its : list item) (s : string) : list string :=
  match its with
  | [] => [s]
  | ILit c :: its' =>
      match s with
      | EmptyString => []
      | String a s' =>
          if Ascii.eqb (lower a) (lower c) then remainders its' s' else []
      end
  | ISpaces :: its' => flat_map (remainders its') (after_spaces s)
  | IDir d :: its' =>
      flat_map (fun alt => match match_classes alt s with
                           | Some (_, r) => remainders its' r
                           | None => []
                           end) (alts d)
  end.

(** The whole of [s] matches the format [fmt]. *)
Definition fullmatch (fmt s : string) : bool :=
  match pattern fmt false with
  | Ok its => existsb is_empty (remainders its s)
  | Raise _ => false
  end.

(** The shape [YYYY:MM:DD HH:MM:SS]. *)
Definition exif_shape : list cclass :=
  [ Digit; Digit; Digit; Digit; Exact ":"; Digit; Digit; Exact ":";
    Digit; Digit; Exact " "; Digit; Digit; Exact ":"; Digit; Digit;
    Exact ":"; Digit; Digit ].

Definition all_of (ks : list cclass) (s : string) : bool :=
  match match_classes ks s with
  | Some (_, EmptyString) => true
  | _ => false
  end.

Definition exif_format (s : string) : bool := all_of exif_shape s.

(** The same with a year of one to four digits. *)
Definition exif_tail : list cclass := skipn 4 exif_shape.

Definition exif_format_short_year (s : string) : bool :=
  existsb (fun k => all_of (repeat Digit k ++ exif_tail)%list s)
          [1; 2; 3; 4]%nat.

End Pattern.

Module Trace.

Definition is_log (ev : event) : bool :=
  match ev with EvLog _ _ => true | _ => false end.

Definition is_write (ev : event) : bool :=
  match ev with EvWrite _ _ => true | _ => false end.

(** The timestamps handed to the normalizer, in order. *)
Fixpoint calls (evs : list event) : list pyval :=
  match evs with
  | [] => []
  | EvNormalize t :: rest => t :: calls rest
  | _ :: rest => calls rest
  end.

Definition count_writes (evs : list event) : nat :=
  List.length (filter is_write evs).

(** No write, or exactly one, with nothing but log lines after it. *)
Fixpoint single_late_write (evs : list event) : bool :=
  match evs with
  | [] => true
  | EvWrite _ _ :: rest => forallb is_log rest
  | _ :: rest => single_late_write rest
  end.

End Trace.

(** The values of the tags that the image processor hands to the
    normalizer. *)
Definition datetime_values (pil : pillow) (exif_data : list (Z * pyval))
  : list pyval :=
  map snd (filter (fun kv => is_datetime_tag (TAGS pil (fst kv))) exif_data).

(** A result that is a value, or a [ValueError]. *)
Definition only_ValueError {A} (r : result A) : Prop :=
  match r with
  | Ok _ => True
  | Raise e => e = ValueError
  end.

(** The second or the third character is a slash. *)
Definition slash_early (s : string) : bool :=
  match s with
  | String _ (String b r) =>
      Ascii.eqb b "/" ||
      match r with String c _ => Ascii.eqb c "/" | EmptyString => false end
  | _ => false
  end.

(** Datetimes that pass the constructor's checks. *)
Definition all_valid (l : list Pytz.aware) : Prop :=
  Forall (fun a => Datetime.valid (Pytz.local a)) l.

(** Events without a write. *)
Definition no_writes (evs : list event) : bool :=
  forallb (fun ev => negb (Trace.is_write ev)) evs.

(** The world after further events that write nothing. *)
Definition after (w : world) (evs : list event) : world :=
  mk_world (files w) (trace w ++ evs).

(** The log lines of the normalizer as events. *)
Definition log_events (lg : log) : list event :=
  map (fun '(lv, m) => EvLog lv m) lg.

(** The events of a run of the replacement loop of the program. *)
Definition rejected (cands : list string) : list event :=
  flat_map (fun c => [EvNormalize (PStr c);
                      EvLog ERROR (Could_not_parse (PStr c))]) cands.

(** What a run of the body of the [try] adds to the world. *)
Definition image_run_ok (pil : pillow) (file_path : string)
    (dry_run : bool) (w w1 : world) : Prop :=
  exists evs,
    trace w1 = (trace w ++ evs)%list /\
    Trace.single_late_write evs = true /\
    (no_writes evs = true -> files w1 = files w) /\
    (dry_run = true -> no_writes evs = true) /\
    (ExifTag pil = None -> no_writes evs = true) /\
    (forall raw img exif_data,
       files w file_path = Some raw -> Image_open pil raw = Ok img ->
       getexif pil img = Ok (Some exif_data) ->
       (0 < Trace.count_writes evs)%nat ->
       Trace.calls evs = datetime_values pil exif_data).

(** The same for the text processor. *)
Definition text_run_ok (cd : codecs) (file_path : string)
    (dry_run : bool) (w w1 : world) : Prop :=
  exists evs,
    trace w1 = (trace w ++ evs)%list /\
    Trace.single_late_write evs = true /\
    (no_writes evs = true -> files w1 = files w) /\
    (dry_run = true -> no_writes evs = true) /\
    (forall raw encoding content cands,
       files w file_path = Some raw -> detect cd raw = Ok encoding ->
       decode cd encoding raw = Ok content ->
       scan_lines (Str.splitlines content) = Ok cands ->
       (0 < Trace.count_writes evs)%nat ->
       Trace.calls evs = map PStr cands).

(** The world [w] after events [evs], with the file at [file_path]
    holding [content]. *)
Definition rewritten (file_path : string) (content : bytes) (w : world)
    (evs : list event) : world :=
  mk_world (fun q => if String.eqb q file_path then Some content
                     else files w q)
           (trace w ++ evs).

(** A world reached from [w] by writing nothing, or by putting a new
    content in the one file at [file_path]. *)
Definition reached (file_path : string) (w w1 : world) : Prop :=
  exists evs,
    w1 = after w evs \/ exists content, w1 = rewritten file_path content w evs.

(** A zone of one offset: UTC or a [StaticTzInfo]. *)
Definition fixed_offset (t : Pytz.tzinfo) : bool :=
  match t with
  | Pytz.DstTzInfo _ _ _ _ => false
  | _ => true
  end.

(** [first_full al s]: the first alternative of [al] that matches a prefix
    of [s] matches all of it. *)
Fixpoint first_full (al : list (list Strptime.cclass)) (s : string) : bool :=
  match al with
  | [] => false
  | a :: al' =>
      match Strptime.match_classes a s with
      | Some (_, EmptyString) => true
      | Some _ => false
      | None => first_full al' s
      end
  end.

(** No alternative is longer than [s]. *)
Definition alts_fit (al : list (list Strptime.cclass)) (s : string) : bool :=
  forallb (fun a => (List.length a <=? String.length s)%nat) al.

(** The text [zfill w n] is taken whole by the group of directive [d]. *)
Definition fits (d : Strptime.directive) (w : nat) (n : Z) : bool :=
  first_full (Strptime.alts d) (Strftime.zfill w n)
  && alts_fit (Strptime.alts d) (Strftime.zfill w n).

(** The number that a list of decimal digits denotes, read from the left
    with [acc] before it, as [int] reads them. *)
Fixpoint uint_value (d : Decimal.uint) (acc : Z) : Z :=
  match d with
  | Decimal.Nil => acc
  | Decimal.D0 l => uint_value l (acc * 10 + 0)
  | Decimal.D1 l => uint_value l (acc * 10 + 1)
  | Decimal.D2 l => uint_value l (acc * 10 + 2)
  | Decimal.D3 l => uint_value l (acc * 10 + 3)
  | Decimal.D4 l => uint_value l (acc * 10 + 4)
  | Decimal.D5 l => uint_value l (acc * 10 + 5)
  | Decimal.D6 l => uint_value l (acc * 10 + 6)
  | Decimal.D7 l => uint_value l (acc * 10 + 7)
  | Decimal.D8 l => uint_value l (acc * 10 + 8)
  | Decimal.D9 l => uint_value l (acc * 10 + 9)
  end.

Definition starts_digit (s : string) : bool :=
  match s with
  | String a _ => Str.isdigit a
  | EmptyString => false
  end.

Definition starts_nonspace (s : string) : bool :=
  match s with
  | String a _ => negb (Str.isspace a)
  | EmptyString => false
  end.

(** The lines that only [--verbose] asks for (line 94), and a trace
    without them. *)
Definition is_processing_line (ev : event) : bool :=
  match ev with
  | EvLog _ (Processing_tag _ _ _) => true
  | _ => false
  end.

Definition other_events (evs : list event) : list event :=
  filter (fun ev => negb (is_processing_line ev)) evs.

(** Two worlds with the same files and, but for those lines, the same
    trace; two computations that keep such worlds so and end alike. *)
Definition same_but_processing (w1 w2 : world) : Prop :=
  files w1 = files w2 /\ other_events (trace w1) = other_events (trace w2).

Definition agree {A} (m1 m2 : M A) : Prop :=
  forall w1 w2, same_but_processing w1 w2 ->
    fst (m1 w1) = fst (m2 w2) /\
    same_but_processing (snd (m1 w1)) (snd (m2 w2)).

(** A computation that raises nothing outside [Exception]. *)
Definition caughtM {A} (m : M A) : Prop :=
  forall w, caught_by_Exception (fst (m w)).

(** Only the file at [file_path] may differ between two worlds. *)
Definition touches_only (file_path : string) (w w1 : world) : Prop :=
  forall q, q <> file_path -> files w1 q = files w q.

(* ================================================================== *)
(** ** Sample installations *)

Module Sample.

Import Datetime Pytz.

(** An excerpt of the zone America/New_York as [pytz] compiles it: local
    mean time, the 1883 switch to standard time, and the transitions from
    November 2022 to March 2024. *)
Definition new_york_times : list naive :=
  [ mk_naive 1 1 1 0 0 0; mk_naive 1883 11 18 17 0 0;
    mk_naive 2022 11 6 6 0 0; mk_naive 2023 3 12 7 0 0;
    mk_naive 2023 11 5 6 0 0; mk_naive 2024 3 10 7 0 0 ].

Definition LMT : ttinfo := mk_ttinfo (-17760) 0 "LMT".
Definition EST : ttinfo := mk_ttinfo (-18000) 0 "EST".
Definition EDT : ttinfo := mk_ttinfo (-14400) 3600 "EDT".

Definition new_york_info : list ttinfo := [LMT; EST; EST; EDT; EST; EDT].

Definition new_york : tzinfo :=
  DstTzInfo "America/New_York" new_york_times new_york_info LMT.

Definition zones (zone : string) : option tzinfo :=
  if String.eqb zone "America/New_York" then Some new_york else None.

(** CPython on Linux with glibc, and an installation whose C library
    zero-fills the year. *)
Definition linux : platform := mk_platform zones 1000 false.
Definition padding : platform := mk_platform zones 1000 true.

(** A Pillow as released: [PIL.ExifTags] has no attribute [ExifTag].  The
    image is its tag list; the file holds three tags. *)
Definition tags_of_file : list (Z * pyval) :=
  [ (271, PStr "Camera"); (306, PStr "2023:06:15 12:00:00");
    (36867, PStr "not-a-date") ].

Definition tag_names (tag_id : Z) : option string :=
  if tag_id =? 306 then Some "DateTime"
  else if tag_id =? 36867 then Some "DateTimeOriginal"
  else if tag_id =? 36868 then Some "DateTimeDigitized"
  else if tag_id =? 271 then Some "Make"
  else None.

Definition pillow_released : pillow :=
  mk_pillow (list (Z * pyval)) (fun _ => Ok tags_of_file)
            (fun img => Ok (Some img)) tag_names None
            (fun _ _ => (None, Ok tt)).

(** A Pillow that had the attribute, encoding to the given bytes and
    saving them. *)
Definition pillow_with_ExifTag : pillow :=
  mk_pillow (list (Z * pyval)) (fun _ => Ok tags_of_file)
            (fun img => Ok (Some img)) tag_names
            (Some (fun _ => Ok [Byte.x45]))
            (fun _ exif => (Some exif, Ok tt)).

(** Codecs for ASCII text. *)
Definition ascii_codecs : codecs :=
  mk_codecs (fun _ => Ok (Some "ascii"))
            (fun _ b => Ok (string_of_list_byte b))
            (fun _ s => Ok (list_byte_of_string s)).

Definition twice : string := "start 2023-06-15 end 2023-06-15".

(** One file, [photo.jpg] or [notes.txt] by the processor that reads it. *)
Definition disk (name : string) (content : bytes) : world :=
  mk_world (fun q => if String.eqb q name then Some content else None) [].

Definition text_disk : world := disk "notes.txt" (list_byte_of_string twice).
Definition image_disk : world := disk "photo.jpg" [Byte.xff; Byte.xd8].

(** A normalizer that succeeds on every timestamp, to exercise the
    processors' write paths. *)
Definition always_noon : normalizer :=
  fun _ _ _ => (Ok (Some "2023:06:15 12:00:00"), []).

End Sample.

(** Installations that fail: a Pillow that cannot identify the file, and
    codecs that cannot decode it. *)
Module Faulty.

Definition pillow_unreadable : pillow :=
  mk_pillow unit (fun _ => Raise OSError) (fun _ => Ok None)
            Sample.tag_names None (fun _ _ => (None, Ok tt)).

Definition codecs_undecodable : codecs :=
  mk_codecs (fun _ => Ok (Some "utf-8"))
            (fun _ _ => Raise UnicodeDecodeError)
            (fun _ s => Ok (list_byte_of_string s)).

End Faulty.

(* ================================================================== *)
(** * Properties *)

(** ** Exceptions of the library code *)

Section Caught.

Import Datetime Pytz Strptime.

Lemma caught_bind {A B} (r : result A) (k : A -> result B) :
  caught_by_Exception r ->
  (forall a, r = Ok a -> caught_by_Exception (k a)) ->
  caught_by_Exception (bind r k).
Proof.
  destruct r as [a|e]; simpl; intros Hr Hk; [apply Hk; reflexivity | exact Hr].
Qed.

Ltac caught :=
  repeat first
    [ progress simpl
    | exact I
    | reflexivity
    | apply caught_bind; [ | intros ? ? ]
    | match goal with
      | |- caught_by_Exception (if ?b then _ else _) => destruct b
      | |- caught_by_Exception (match ?x with _ => _ end) => destruct x
      | |- caught_by_Exception (let '(_, _) := ?x in _) => destruct x
      end ].

Lemma new_caught y m d H M S : caught_by_Exception (new y m d H M S).
Proof. unfold new; caught. Qed.

Lemma new_date_caught y m d : caught_by_Exception (new_date y m d).
Proof. unfold new_date; caught. Qed.

Lemma add_caught t delta : caught_by_Exception (add t delta).
Proof.
  unfold add.
  destruct (_ && _); [ | reflexivity ].
  destruct (ord2ymd _) as [[y m] d]. apply new_caught.
Qed.

Lemma sub_caught t delta : caught_by_Exception (sub t delta).
Proof. apply add_caught. Qed.

Lemma check_utc_offset_caught off : caught_by_Exception (check_utc_offset off).
Proof. unfold check_utc_offset; caught. Qed.

Lemma call_utcoffset_caught t : caught_by_Exception (call_utcoffset t).
Proof. destruct t; apply check_utc_offset_caught. Qed.

Lemma call_dst_caught t : caught_by_Exception (call_dst t).
Proof.
  destruct t; simpl; try exact I;
    (apply caught_bind; [apply check_utc_offset_caught | intros; exact I]).
Qed.

Lemma info_at_caught times infos t : caught_by_Exception (info_at times infos t).
Proof. unfold info_at; caught. Qed.

Lemma fromutc_caught t u : caught_by_Exception (fromutc t u).
Proof.
  destruct t; simpl.
  - apply caught_bind; [apply add_caught | intros; exact I].
  - apply caught_bind; [apply add_caught | intros; exact I].
  - apply caught_bind; [apply info_at_caught | intros].
    apply caught_bind; [apply add_caught | intros; exact I].
Qed.

Lemma normalize_caught t d : caught_by_Exception (normalize t d).
Proof.
  unfold normalize.
  apply caught_bind; [apply sub_caught | intros; apply fromutc_caught].
Qed.

Lemma candidate_caught z times infos dt delta :
  caught_by_Exception (candidate z times infos dt delta).
Proof.
  unfold candidate.
  apply caught_bind; [apply add_caught | intros].
  apply caught_bind; [apply info_at_caught | intros].
  apply caught_bind; [apply normalize_caught | intros; exact I].
Qed.

Lemma set_add_caught c s : caught_by_Exception (set_add c s).
Proof.
  destruct c; simpl; [ | exact I].
  apply caught_bind; [apply call_utcoffset_caught | intros].
  destruct (existsb _ _); exact I.
Qed.

Lemma latest_by_utc_caught l : forall best,
  caught_by_Exception (latest_by_utc l best).
Proof.
  induction l as [|x l IH]; intros best; simpl; [exact I | ].
  apply caught_bind; [apply sub_caught | intros u _].
  destruct best as [[bu bx]|]; [ | apply IH].
  destruct (naive_eqb u bu); [reflexivity | ].
  destruct (naive_ltb bu u); apply IH.
Qed.

Lemma localize_dst_caught z times infos depth : forall dt,
  caught_by_Exception (localize_dst z times infos depth dt).
Proof.
  induction depth as [|depth IH]; intros dt; simpl; [reflexivity | ].
  apply caught_bind; [apply candidate_caught | intros c1 _].
  apply caught_bind; [apply set_add_caught | intros s1 _].
  apply caught_bind; [apply candidate_caught | intros c2 _].
  apply caught_bind; [apply set_add_caught | intros possible _].
  destruct possible as [|x [|y rest]].
  - apply caught_bind; [apply sub_caught | intros earlier _].
    apply caught_bind; [apply IH | intros r _].
    apply caught_bind; [apply add_caught | intros; exact I].
  - exact I.
  - destruct (filter tz_dst_is_zero (x :: y :: rest)) as [|a [|b l]].
    + apply caught_bind; [apply latest_by_utc_caught | intros [r|] _];
        [exact I | reflexivity].
    + exact I.
    + apply caught_bind; [apply latest_by_utc_caught | intros [r|] _];
        [exact I | reflexivity].
Qed.

Lemma localize_caught depth t dt : caught_by_Exception (localize depth t dt).
Proof. destruct t; simpl; try exact I. apply localize_dst_caught. Qed.

Lemma astimezone_caught d target : caught_by_Exception (astimezone d target).
Proof.
  unfold astimezone.
  destruct (tz_is _ _); [exact I | ].
  apply caught_bind; [apply call_utcoffset_caught | intros off _].
  apply caught_bind; [apply sub_caught | intros; apply fromutc_caught].
Qed.

Lemma strftime_caught pads d fmt :
  caught_by_Exception (Strftime.strftime pads d fmt).
Proof.
  unfold Strftime.strftime.
  apply caught_bind; [apply call_dst_caught | intros; exact I].
Qed.

Lemma timezone_caught p zone : caught_by_Exception (timezone p zone).
Proof. unfold timezone; caught. Qed.

Lemma convert_caught p dt src tgt : caught_by_Exception (convert p dt src tgt).
Proof.
  unfold convert.
  apply caught_bind; [apply timezone_caught | intros source_tz _].
  apply caught_bind; [apply localize_caught | intros localized_dt _].
  apply caught_bind; [apply timezone_caught | intros target_tz _].
  apply caught_bind; [apply astimezone_caught | intros utc_dt _].
  apply strftime_caught.
Qed.

End Caught.

(** ** [strptime] raises nothing but [ValueError] on a string *)

Section ParseErrors.

Import Datetime Strptime.

Lemma only_ValueError_bind {A B} (r : result A) (k : A -> result B) :
  only_ValueError r ->
  (forall a, only_ValueError (k a)) ->
  only_ValueError (bind r k).
Proof. destruct r; simpl; auto. Qed.

Lemma pattern_only_ValueError : forall n fmt in_ws,
  (String.length fmt <= n)%nat -> only_ValueError (pattern fmt in_ws).
Proof.
  induction n as [|n IH]; intros fmt in_ws Hlen.
  - destruct fmt; [exact I | simpl in Hlen; lia].
  - destruct fmt as [|c rest]; [exact I | ].
    simpl in Hlen. cbn [pattern].
    destruct (Ascii.eqb c "%").
    + destruct rest as [|x rest']; [reflexivity | ].
      destruct (directive_of x); [ | reflexivity].
      apply only_ValueError_bind; [ | intros; exact I].
      apply IH. simpl in Hlen. lia.
    + destruct (Str.isspace c).
      * destruct in_ws.
        -- apply IH. lia.
        -- apply only_ValueError_bind; [apply IH; lia | intros; exact I].
      * apply only_ValueError_bind; [apply IH; lia | intros; exact I].
Qed.

Lemma int_digits_only_ValueError s : forall acc,
  only_ValueError (int_digits s acc).
Proof.
  induction s as [|c s IH]; intros acc; simpl; [exact I | ].
  destruct (Str.isdigit c); [apply IH | ].
  destruct (Str.is_empty _); [exact I | reflexivity].
Qed.

Lemma int_only_ValueError s : only_ValueError (int s).
Proof.
  unfold int. destruct (lstrip s) as [|c s']; [reflexivity | ].
  destruct (Str.isdigit c); [apply int_digits_only_ValueError | reflexivity].
Qed.

Lemma read_groups_only_ValueError caps : forall f,
  only_ValueError (read_groups caps f).
Proof.
  induction caps as [|[d t] caps IH]; intros f; simpl; [exact I | ].
  apply only_ValueError_bind; [apply int_only_ValueError | intros; apply IH].
Qed.

Lemma new_only_ValueError y m d H M S : only_ValueError (new y m d H M S).
Proof. unfold new. destruct (_ && _); [exact I | reflexivity]. Qed.

Lemma new_date_only_ValueError y m d : only_ValueError (new_date y m d).
Proof. unfold new_date. destruct (check_date_fields _ _ _); [exact I | reflexivity]. Qed.

Lemma strptime_only_ValueError s fmt : only_ValueError (strptime (PStr s) fmt).
Proof.
  unfold strptime.
  apply only_ValueError_bind;
    [apply (pattern_only_ValueError (String.length fmt)); lia | intros its].
  destruct (regex_match its s) as [[caps rest]|]; [ | reflexivity].
  destruct (negb _); [reflexivity | ].
  apply only_ValueError_bind; [apply read_groups_only_ValueError | intros f].
  apply only_ValueError_bind; [apply new_date_only_ValueError | intros _].
  apply new_only_ValueError.
Qed.

Lemma strptime_str_raise s fmt e :
  strptime (PStr s) fmt = Raise e -> e = ValueError.
Proof.
  intros H. pose proof (strptime_only_ValueError s fmt) as HV.
  rewrite H in HV. exact HV.
Qed.

(** On a value that is not a string every format raises [TypeError], which
    the loop does not catch. *)
Lemma strptime_not_str v fmt :
  (forall s, v <> PStr s) -> strptime v fmt = Raise TypeError.
Proof. destruct v; intros H; [exfalso; apply (H s); reflexivity | | ]; reflexivity. Qed.

Lemma parse_loop_caught v fmts : caught_by_Exception (parse_loop v fmts).
Proof.
  induction fmts as [|fmt rest IH]; simpl; [exact I | ].
  destruct (strptime v fmt) as [d|e] eqn:E; [exact I | ].
  destruct (issubclass e ValueError) eqn:Es; [exact IH | ].
  destruct v as [s| |]; simpl in E.
  - apply strptime_str_raise in E. subst e. discriminate Es.
  - inversion E; reflexivity.
  - inversion E; reflexivity.
Qed.

End ParseErrors.

(** ** C10 and C5: the normalizer returns, and fails on an unknown zone *)

Section NormalizerReturns.

Variable p : platform.

Lemma normalize_try_caught ts src tgt :
  caught_by_Exception (fst (normalize_try p ts src tgt)).
Proof.
  unfold normalize_try.
  pose proof (parse_loop_caught ts formats_to_try) as Hp.
  destruct (parse_loop ts formats_to_try) as [[dt|]|e]; simpl; try exact I.
  - pose proof (convert_caught p dt src tgt) as Hc.
    destruct (convert p dt src tgt); simpl; [exact I | exact Hc].
  - exact Hp.
Qed.

Lemma normalize_timestamp_returns (ts : pyval) (src tgt : string) :
  exists (r : option string) (lg : log),
    normalize_timestamp p ts src tgt = (Ok r, lg).
Proof.
  unfold normalize_timestamp.
  pose proof (normalize_try_caught ts src tgt) as Hc.
  destruct (normalize_try p ts src tgt) as [[r|e] lg]; simpl in Hc.
  - eauto.
  - destruct (issubclass e UnknownTimeZoneError); [eauto | ].
    rewrite Hc. eauto.
Qed.

(** C10. [normalize_timestamp] returns to its caller on every input: a
    string or [None], never an exception, for every timestamp value (a
    string or not), every pair of zone names and every installation.
    Every exception that the body can raise is an [Exception], which the
    last [except] clause catches. *)
Theorem normalize_timestamp_total (ts : pyval) (src tgt : string) :
  caught_by_Exception (fst (normalize_try p ts src tgt)) /\
  exists (r : option string) (lg : log),
    normalize_timestamp p ts src tgt = (Ok r, lg).
Proof.
  split; [apply normalize_try_caught | apply normalize_timestamp_returns].
Qed.

(** C5. When the source or the target zone name is unknown to [pytz]
    ([pytz.timezone] raises [UnknownTimeZoneError]), [normalize_timestamp]
    returns [None], whatever the timestamp. *)
Theorem normalize_timestamp_unknown_zone (ts : pyval) (src tgt : string) :
  timezone p src = Raise UnknownTimeZoneError \/
  timezone p tgt = Raise UnknownTimeZoneError ->
  fst (normalize_timestamp p ts src tgt) = Ok None.
Proof.
  intros Hz.
  destruct (normalize_timestamp_returns ts src tgt) as (r & lg & Hr).
  rewrite Hr. simpl. f_equal.
  destruct r as [out|]; [exfalso | reflexivity].
  revert Hr. unfold normalize_timestamp, normalize_try.
  destruct (parse_loop ts formats_to_try) as [[dt|]|e].
  - destruct (convert p dt src tgt) as [s|e] eqn:Ec.
    + exfalso. unfold convert in Ec.
      destruct Hz as [Hs|Ht].
      * rewrite Hs in Ec. discriminate Ec.
      * destruct (timezone p src) as [source_tz|]; [simpl in Ec | discriminate Ec].
        destruct (Pytz.localize _ _ _); [simpl in Ec | discriminate Ec].
        rewrite Ht in Ec. discriminate Ec.
    + destruct (issubclass e UnknownTimeZoneError); [discriminate | ].
      destruct (issubclass e Exception); discriminate.
  - discriminate.
  - destruct (issubclass e UnknownTimeZoneError); [discriminate | ].
    destruct (issubclass e Exception); discriminate.
Qed.

End NormalizerReturns.

(** The name ["Mars/Phobos"] on the sample installation, as source and as
    target. *)
Lemma normalize_timestamp_unknown_zone_witness :
  fst (normalize_timestamp Sample.linux (PStr "2023:06:15 12:00:00")
         "Mars/Phobos" "UTC") = Ok None /\
  fst (normalize_timestamp Sample.linux (PStr "2023:06:15 12:00:00")
         "UTC" "Mars/Phobos") = Ok None.
Proof.
  split.
  - apply (normalize_timestamp_unknown_zone Sample.linux
             (PStr "2023:06:15 12:00:00") "Mars/Phobos" "UTC").
    left. reflexivity.
  - apply (normalize_timestamp_unknown_zone Sample.linux
             (PStr "2023:06:15 12:00:00") "UTC" "Mars/Phobos").
    right. reflexivity.
Defined.

(** ** The matcher and the language of a format *)

Section MatcherFacts.

Import Str Strptime Pattern.

Lemma match_classes_app ks : forall s t r,
  match_classes ks s = Some (t, r) -> s = t ++ r.
Proof.
  induction ks as [|k ks IH]; intros s t r H; simpl in H.
  - inversion H; reflexivity.
  - destruct s as [|c s']; [discriminate | ].
    destruct (in_class k c); [ | discriminate].
    destruct (match_classes ks s') as [[t' r']|] eqn:E; [ | discriminate].
    inversion H; subst. simpl. f_equal. apply IH; assumption.
Qed.

Lemma try_alts_some {R} al s (k : string -> string -> option R) x :
  try_alts al s k = Some x ->
  exists alt t r, In alt al /\ match_classes alt s = Some (t, r) /\
                  k t r = Some x.
Proof.
  induction al as [|a al IH]; simpl; [discriminate | ].
  destruct (match_classes a s) as [[t r]|] eqn:E.
  - destruct (k t r) as [y|] eqn:Ek.
    + intros H; inversion H; subst. exists a, t, r.
      repeat split; [left; reflexivity | assumption | assumption].
    + intros H. destruct (IH H) as (alt & t' & r' & Hin & Hm & Hk).
      exists alt, t', r'.
      repeat split; [right; assumption | assumption | assumption].
  - intros H. destruct (IH H) as (alt & t' & r' & Hin & Hm & Hk).
    exists alt, t', r'.
    repeat split; [right; assumption | assumption | assumption].
Qed.

Lemma match_spaces_some {R} (k : string -> option R) s x :
  match_spaces k s = Some x ->
  exists r, In r (after_spaces s) /\ k r = Some x.
Proof.
  induction s as [|c s IH]; simpl; [discriminate | ].
  destruct (isspace c); [ | discriminate].
  destruct (match_spaces k s) as [y|].
  - intros H. destruct (IH H) as (r & Hin & Hk). exists r.
    split; [right; assumption | assumption].
  - intros H. exists s. split; [left; reflexivity | assumption].
Qed.

(** What [re.match] finds is a match of the language. *)
Lemma regex_match_sound its : forall s caps rest,
  regex_match its s = Some (caps, rest) -> In rest (remainders its s).
Proof.
  induction its as [|it its IH]; intros s caps rest H.
  - simpl in H. inversion H. left; reflexivity.
  - destruct it as [c| |d]; cbn [regex_match remainders] in *.
    + destruct s as [|a s']; [discriminate | ].
      destruct (Ascii.eqb (lower a) (lower c)); [eauto | discriminate].
    + apply match_spaces_some in H. destruct H as (r & Hin & Hk).
      apply in_flat_map. exists r. eauto.
    + apply try_alts_some in H.
      destruct H as (alt & t & r & Hin & Hm & Hk).
      destruct (regex_match its r) as [[caps' rest']|] eqn:E; [ | discriminate].
      inversion Hk; subst.
      apply in_flat_map. exists alt. split; [assumption | ].
      rewrite Hm. eauto.
Qed.

(** A format that [strptime] accepts matches the whole string. *)
Lemma strptime_fullmatch s fmt d :
  strptime (PStr s) fmt = Ok d -> fullmatch fmt s = true.
Proof.
  unfold strptime, fullmatch.
  destruct (pattern fmt false) as [its|]; [simpl | discriminate].
  destruct (regex_match its s) as [[caps rest]|] eqn:E; [ | discriminate].
  destruct rest as [|c rest]; [ | discriminate].
  intros _. apply existsb_exists. exists "".
  split; [ | reflexivity].
  eapply regex_match_sound; eassumption.
Qed.

(** The suffixes of a string keep its whitespace. *)
Lemma has_space_app t r : has_space r = true -> has_space (t ++ r) = true.
Proof.
  induction t as [|c t IH]; simpl; intros H; [assumption | ].
  rewrite (IH H). apply orb_true_r.
Qed.

Lemma after_spaces_has_space s r :
  In r (after_spaces s) -> has_space s = true.
Proof.
  destruct s as [|c s]; simpl; [tauto | ].
  destruct (isspace c); simpl; [reflexivity | tauto].
Qed.

(** A string matched against a format with a whitespace run has
    whitespace in it. *)
Lemma regex_match_has_space its : forall s caps rest,
  In ISpaces its ->
  regex_match its s = Some (caps, rest) -> has_space s = true.
Proof.
  induction its as [|it its IH]; intros s caps rest Hin H.
  - destruct Hin.
  - destruct it as [c| |d]; cbn [regex_match] in H.
    + destruct Hin as [Hd|Hin]; [discriminate | ].
      destruct s as [|a s']; [discriminate | ].
      destruct (Ascii.eqb (lower a) (lower c)); [ | discriminate].
      simpl. rewrite (IH _ _ _ Hin H). apply orb_true_r.
    + apply match_spaces_some in H. destruct H as (r & Hr & _).
      eapply after_spaces_has_space; eassumption.
    + destruct Hin as [Hd|Hin]; [discriminate | ].
      apply try_alts_some in H.
      destruct H as (alt & t & r & _ & Hm & Hk).
      destruct (regex_match its r) as [[caps' rest']|] eqn:E; [ | discriminate].
      rewrite (match_classes_app _ _ _ _ Hm).
      apply has_space_app. eapply IH; eassumption.
Qed.

(** None of the five formats accepts a string without whitespace. *)
Lemma strptime_needs_space s fmt :
  In fmt formats_to_try -> has_space s = false ->
  strptime (PStr s) fmt = Raise ValueError.
Proof.
  intros Hin Hs.
  destruct (strptime (PStr s) fmt) as [d|e] eqn:E.
  - exfalso.
    assert (Hsp : has_space s = true); [ | congruence].
    unfold strptime in E.
    destruct (pattern fmt false) as [its|] eqn:Ep; [simpl in E | discriminate].
    destruct (regex_match its s) as [[caps rest]|] eqn:Em; [ | discriminate].
    apply (regex_match_has_space its s caps rest); [ | assumption].
    simpl in Hin.
    repeat (destruct Hin as [<-|Hin];
            [vm_compute in Ep; inversion Ep; subst its; simpl; tauto | ]).
    destruct Hin.
  - f_equal. eapply strptime_str_raise; eassumption.
Qed.

Lemma lower_is_slash a : Ascii.eqb (lower a) (lower "/") = true -> a = "/"%char.
Proof.
  destruct a as [[] [] [] [] [] [] [] []]; vm_compute; intros H;
    first [reflexivity | discriminate H].
Qed.

Lemma match_classes_length ks : forall s t r,
  match_classes ks s = Some (t, r) -> String.length t = List.length ks.
Proof.
  induction ks as [|k ks IH]; intros s t r H; simpl in H.
  - inversion H; reflexivity.
  - destruct s as [|c s']; [discriminate | ].
    destruct (in_class k c); [ | discriminate].
    destruct (match_classes ks s') as [[t' r']|] eqn:E; [ | discriminate].
    inversion H; subst. simpl. f_equal. eapply IH; eassumption.
Qed.

Lemma month_then_slash its s x :
  regex_match (IDir dm :: ILit "/" :: its) s = Some x -> slash_early s = true.
Proof.
  cbn [regex_match]. intros H.
  apply try_alts_some in H. destruct H as (alt & t & r & Hin & Hm & Hk).
  destruct r as [|a r']; [discriminate | ].
  destruct (Ascii.eqb (lower a) (lower "/")) eqn:Ea; [ | discriminate].
  apply lower_is_slash in Ea. subst a.
  pose proof (match_classes_length _ _ _ _ Hm) as Hlen.
  rewrite (match_classes_app _ _ _ _ Hm).
  assert (Hl : List.length alt = 2%nat \/ List.length alt = 1%nat).
  { simpl in Hin. destruct Hin as [<-|[<-|[<-|[]]]]; simpl; auto. }
  destruct t as [|c1 [|c2 [|c3 t']]]; simpl in Hlen;
    destruct Hl as [Hl|Hl]; rewrite Hl in Hlen; try discriminate Hlen.
  - reflexivity.
  - simpl. apply orb_true_r.
Qed.

Lemma four_digits_not_before_slash s :
  slash_early s = true -> match_classes [Digit; Digit; Digit; Digit] s = None.
Proof.
  intros H.
  destruct s as [|a [|b [|c r]]]; try discriminate H; simpl in H.
  - rewrite orb_false_r in H. apply Ascii.eqb_eq in H. subst b.
    simpl. destruct (isdigit a); reflexivity.
  - apply orb_true_iff in H. destruct H as [H|H]; apply Ascii.eqb_eq in H; subst.
    + simpl. destruct (isdigit a); reflexivity.
    + simpl. destruct (isdigit a); [ | reflexivity].
      destruct (isdigit b); reflexivity.
Qed.

Lemma year_not_before_slash its s :
  slash_early s = true -> regex_match (IDir dY :: its) s = None.
Proof.
  intros H. cbn [regex_match alts try_alts].
  rewrite (four_digits_not_before_slash s H). reflexivity.
Qed.

End MatcherFacts.

(** ** C4 and C6: the order of the formats, and strings that match none *)

Section ParseOrder.

Import Strptime Pattern.

Lemma parse_loop_step s fmt rest :
  parse_loop (PStr s) (fmt :: rest) =
  match strptime (PStr s) fmt with
  | Ok d => Ok (Some d)
  | Raise _ => parse_loop (PStr s) rest
  end.
Proof.
  cbn [parse_loop].
  destruct (strptime (PStr s) fmt) as [d|e] eqn:E; [reflexivity | ].
  rewrite (strptime_str_raise _ _ _ E). reflexivity.
Qed.

Lemma year_first_fails s fmt its :
  pattern fmt false = Ok (IDir dY :: its) -> slash_early s = true ->
  strptime (PStr s) fmt = Raise ValueError.
Proof.
  intros Hp Hs. unfold strptime. rewrite Hp. cbv beta iota delta [bind].
  rewrite (year_not_before_slash its s Hs). reflexivity.
Qed.

Lemma month_first_slash_early s d :
  strptime (PStr s) "%m/%d/%Y %H:%M:%S" = Ok d -> slash_early s = true.
Proof.
  unfold strptime.
  change (pattern "%m/%d/%Y %H:%M:%S" false)
    with (Ok [IDir dm; ILit "/"; IDir dd; ILit "/"; IDir dY; ISpaces;
              IDir dH; ILit ":"; IDir dM; ILit ":"; IDir dS]).
  cbv beta iota delta [bind].
  destruct (regex_match _ s) as [x|] eqn:E; [ | discriminate].
  intros _. eapply month_then_slash; eassumption.
Qed.

Lemma parse_loop_formats s :
  parse_loop (PStr s) formats_to_try =
    match strptime (PStr s) "%Y:%m:%d %H:%M:%S" with
    | Ok d => Ok (Some d)
    | Raise _ =>
    match strptime (PStr s) "%Y-%m-%d %H:%M:%S" with
    | Ok d => Ok (Some d)
    | Raise _ =>
    match strptime (PStr s) "%Y/%m/%d %H:%M:%S" with
    | Ok d => Ok (Some d)
    | Raise _ =>
    match strptime (PStr s) "%m/%d/%Y %H:%M:%S" with
    | Ok d => Ok (Some d)
    | Raise _ =>
    match strptime (PStr s) "%d/%m/%Y %H:%M:%S" with
    | Ok d => Ok (Some d)
    | Raise _ => Ok None
    end end end end end.
Proof. unfold formats_to_try. rewrite !parse_loop_step. reflexivity. Qed.

(** C4. The five formats are tried in the order
    [%Y:%m:%d], [%Y-%m-%d], [%Y/%m/%d], [%m/%d/%Y], [%d/%m/%Y] (each with
    [ %H:%M:%S]), the first that [strptime] accepts gives the parsed value,
    and none gives the failure; a format is accepted only on a match of the
    whole string; and a string that [%m/%d/%Y %H:%M:%S] accepts is read
    by that format, whether or not [%d/%m/%Y %H:%M:%S] accepts it too. *)
Theorem first_format_wins (s : string) :
  parse_loop (PStr s) formats_to_try =
    match strptime (PStr s) "%Y:%m:%d %H:%M:%S" with
    | Ok d => Ok (Some d)
    | Raise _ =>
    match strptime (PStr s) "%Y-%m-%d %H:%M:%S" with
    | Ok d => Ok (Some d)
    | Raise _ =>
    match strptime (PStr s) "%Y/%m/%d %H:%M:%S" with
    | Ok d => Ok (Some d)
    | Raise _ =>
    match strptime (PStr s) "%m/%d/%Y %H:%M:%S" with
    | Ok d => Ok (Some d)
    | Raise _ =>
    match strptime (PStr s) "%d/%m/%Y %H:%M:%S" with
    | Ok d => Ok (Some d)
    | Raise _ => Ok None
    end end end end end
  /\ (forall fmt d, In fmt formats_to_try ->
        strptime (PStr s) fmt = Ok d -> fullmatch fmt s = true)
  /\ (forall d, strptime (PStr s) "%m/%d/%Y %H:%M:%S" = Ok d ->
        parse_loop (PStr s) formats_to_try = Ok (Some d)).
Proof.
  pose proof (parse_loop_formats s) as Hloop.
  split; [exact Hloop | split].
  - intros fmt d _ H. eapply strptime_fullmatch; eassumption.
  - intros d H. rewrite Hloop.
    pose proof (month_first_slash_early s d H) as Hs.
    rewrite (year_first_fails s "%Y:%m:%d %H:%M:%S" _ eq_refl Hs).
    rewrite (year_first_fails s "%Y-%m-%d %H:%M:%S" _ eq_refl Hs).
    rewrite (year_first_fails s "%Y/%m/%d %H:%M:%S" _ eq_refl Hs).
    rewrite H. reflexivity.
Qed.

(** The input of the specification's test: both slash formats accept it,
    and the result reads 03 as the month. *)
Example ambiguous_date_reads_month_first (p : platform) :
  (exists d, strptime (PStr "03/04/2023 10:00:00") "%d/%m/%Y %H:%M:%S" = Ok d)
  /\ normalize_timestamp p (PStr "03/04/2023 10:00:00") "UTC" "UTC"
     = (Ok (Some "2023:03:04 10:00:00"), []).
Proof.
  split; [eexists; vm_compute; reflexivity | ].
  unfold normalize_timestamp, normalize_try.
  change (parse_loop (PStr "03/04/2023 10:00:00") formats_to_try)
    with (Ok (Some (Datetime.mk_naive 2023 3 4 10 0 0))).
  cbv beta iota.
  unfold convert, timezone. simpl String.eqb. cbv beta iota.
  simpl. destruct (strftime_pads_year p); reflexivity.
Qed.

(** C6. A string that matches none of the five formats as a whole makes
    [normalize_timestamp] return [None], with the parse failure logged,
    for every pair of zone names. *)
Theorem normalize_timestamp_unparseable (p : platform) (s src tgt : string) :
  (forall fmt, In fmt formats_to_try -> fullmatch fmt s = false) ->
  normalize_timestamp p (PStr s) src tgt
  = (Ok None, [(ERROR, Could_not_parse (PStr s))]).
Proof.
  intros Hnone.
  assert (Hfail : forall fmt, In fmt formats_to_try ->
                    exists e, strptime (PStr s) fmt = Raise e).
  { intros fmt Hin.
    destruct (strptime (PStr s) fmt) as [d|e] eqn:E; [ | eauto].
    apply strptime_fullmatch in E. rewrite (Hnone fmt Hin) in E. discriminate. }
  unfold normalize_timestamp, normalize_try.
  rewrite (parse_loop_formats s).
  destruct (Hfail "%Y:%m:%d %H:%M:%S") as (e1 & ->); [simpl; tauto | ].
  destruct (Hfail "%Y-%m-%d %H:%M:%S") as (e2 & ->); [simpl; tauto | ].
  destruct (Hfail "%Y/%m/%d %H:%M:%S") as (e3 & ->); [simpl; tauto | ].
  destruct (Hfail "%m/%d/%Y %H:%M:%S") as (e4 & ->); [simpl; tauto | ].
  destruct (Hfail "%d/%m/%Y %H:%M:%S") as (e5 & ->); [simpl; tauto | ].
  reflexivity.
Qed.

End ParseOrder.

(** ["not-a-date"], and a timestamp followed by more text. *)
Lemma normalize_timestamp_unparseable_witness :
  normalize_timestamp Sample.linux (PStr "not-a-date") "UTC" "UTC"
  = (Ok None, [(ERROR, Could_not_parse (PStr "not-a-date"))]) /\
  normalize_timestamp Sample.linux (PStr "2023:06:15 12:00:00 UTC") "UTC" "UTC"
  = (Ok None, [(ERROR, Could_not_parse (PStr "2023:06:15 12:00:00 UTC"))]).
Proof.
  split.
  - apply (normalize_timestamp_unparseable Sample.linux "not-a-date").
    intros fmt Hin. simpl in Hin.
    repeat (destruct Hin as [<-|Hin]; [vm_compute; reflexivity | ]).
    destruct Hin.
  - apply (normalize_timestamp_unparseable Sample.linux
             "2023:06:15 12:00:00 UTC").
    intros fmt Hin. simpl in Hin.
    repeat (destruct Hin as [<-|Hin]; [vm_compute; reflexivity | ]).
    destruct Hin.
Defined.

(** ** C3: the offset in force on the date *)

Section Conversion.

Import Datetime Pytz.

Variable p : platform.



End Conversion.


(** The same table in January: standard time, five hours. *)
Example utc_noon_in_new_york_in_january :
  normalize_timestamp Sample.linux (PStr "2023:01:15 12:00:00") "UTC"
    "America/New_York"
  = (Ok (Some "2023:01:15 07:00:00"), []).
Proof. vm_compute. reflexivity. Qed.

(** ** The datetimes of a run satisfy the constructor's checks *)

Section Validity.

Import Datetime Pytz Strptime.

Lemma new_valid y m d H M S t : new y m d H M S = Ok t -> valid t.
Proof.
  unfold new, valid.
  destruct (check_date_fields y m d && check_time_fields H M S) eqn:E;
    [ | discriminate].
  intros Ht; inversion Ht; subst; exact E.
Qed.

Lemma add_valid t delta l : add t delta = Ok l -> valid l.
Proof.
  unfold add. destruct (_ && _); [ | discriminate].
  destruct (ord2ymd _) as [[y m] d]. apply new_valid.
Qed.

Lemma strptime_valid v fmt d : strptime v fmt = Ok d -> valid d.
Proof.
  destruct v as [s| |]; [ | discriminate | discriminate].
  unfold strptime.
  destruct (pattern fmt false) as [its|]; [cbn [bind] | discriminate].
  destruct (regex_match its s) as [[caps rest]|]; [ | discriminate].
  destruct (negb _); [discriminate | ].
  destruct (read_groups caps fields0) as [f|]; [cbn [bind] | discriminate].
  destruct (new_date _ _ _); [cbn [bind] | discriminate].
  apply new_valid.
Qed.

Lemma parse_loop_valid v fmts d : parse_loop v fmts = Ok (Some d) -> valid d.
Proof.
  induction fmts as [|fmt rest IH]; simpl; [discriminate | ].
  destruct (strptime v fmt) as [d'|e] eqn:E.
  - intros H; inversion H; subst. eapply strptime_valid; eassumption.
  - destruct (issubclass e ValueError); [exact IH | discriminate].
Qed.

Lemma fromutc_valid t u a : fromutc t u = Ok a -> valid (local a).
Proof.
  destruct t; simpl.
  - destruct (add u 0) as [l|] eqn:E; [cbn [bind] | discriminate].
    intros H; inversion H; subst. eapply add_valid; eassumption.
  - destruct (add u off) as [l|] eqn:E; [cbn [bind] | discriminate].
    intros H; inversion H; subst. eapply add_valid; eassumption.
  - destruct (info_at _ _ _) as [i|]; [cbn [bind] | discriminate].
    destruct (add u (utcoffset i)) as [l|] eqn:E; [cbn [bind] | discriminate].
    intros H; inversion H; subst. eapply add_valid; eassumption.
Qed.

Lemma candidate_valid z times infos dt delta a :
  candidate z times infos dt delta = Ok (Some a) -> valid (local a).
Proof.
  unfold candidate, normalize.
  destruct (add dt delta); [cbn [bind] | discriminate].
  destruct (info_at _ _ _); [cbn [bind] | discriminate].
  destruct (sub _ _); [cbn [bind] | discriminate].
  destruct (fromutc _ _) as [loc|] eqn:E; [cbn [bind] | discriminate].
  destruct (naive_eqb _ _); [ | discriminate].
  intros H; inversion H; subst. eapply fromutc_valid; eassumption.
Qed.

Lemma set_add_valid c s s' :
  (forall a, c = Some a -> valid (local a)) -> all_valid s ->
  set_add c s = Ok s' -> all_valid s'.
Proof.
  intros Hc Hs. destruct c as [x|]; simpl.
  - destruct (call_utcoffset _); [cbn [bind] | discriminate].
    destruct (existsb _ _); intros H; inversion H; subst; [assumption | ].
    apply Forall_app. split; [assumption | ].
    constructor; [apply Hc; reflexivity | constructor].
  - intros H; inversion H; subst; assumption.
Qed.

Lemma latest_by_utc_valid l : forall best x,
  all_valid l -> (forall u b, best = Some (u, b) -> valid (local b)) ->
  latest_by_utc l best = Ok (Some x) -> valid (local x).
Proof.
  induction l as [|y l IH]; intros best x Hl Hb; simpl.
  - destruct best as [[u b]|]; simpl; [ | discriminate].
    intros H; inversion H; subst. eapply Hb; reflexivity.
  - inversion Hl; subst.
    destruct (sub _ _) as [u|]; [cbn [bind] | discriminate].
    destruct best as [[bu bx]|].
    + destruct (naive_eqb u bu); [discriminate | ].
      destruct (naive_ltb bu u); apply IH; try assumption.
      intros u' b' E; inversion E; subst; assumption.
    + apply IH; [assumption | ].
      intros u' b' E; inversion E; subst; assumption.
Qed.

Lemma filter_valid f l : all_valid l -> all_valid (filter f l).
Proof.
  intros H. apply Forall_forall. intros a Ha.
  apply filter_In in Ha. destruct Ha as [Ha _].
  revert a Ha. apply Forall_forall. exact H.
Qed.

Lemma localize_dst_valid z times infos depth : forall dt a,
  localize_dst z times infos depth dt = Ok a -> valid (local a).
Proof.
  induction depth as [|depth IH]; intros dt a; simpl; [discriminate | ].
  destruct (candidate z times infos dt (-86400)) as [c1|] eqn:E1;
    [cbn [bind] | discriminate].
  destruct (set_add c1 []) as [s1|] eqn:Es1; [cbn [bind] | discriminate].
  destruct (candidate z times infos dt 86400) as [c2|] eqn:E2;
    [cbn [bind] | discriminate].
  destruct (set_add c2 s1) as [possible|] eqn:Es2; [cbn [bind] | discriminate].
  assert (H1 : all_valid s1).
  { eapply set_add_valid; [ | constructor | exact Es1].
    intros x ->. eapply candidate_valid; eassumption. }
  assert (Hp : all_valid possible).
  { eapply set_add_valid; [ | exact H1 | exact Es2].
    intros x ->. eapply candidate_valid; eassumption. }
  destruct possible as [|x [|y rest]].
  - destruct (sub dt 21600) as [earlier|]; [cbn [bind] | discriminate].
    destruct (localize_dst z times infos depth earlier) as [r|];
      [cbn [bind] | discriminate].
    destruct (add (local r) 21600) as [l|] eqn:El; [cbn [bind] | discriminate].
    intros H; inversion H; subst. simpl. eapply add_valid; eassumption.
  - intros H; inversion H; subst. inversion Hp; assumption.
  - pose proof (filter_valid tz_dst_is_zero _ Hp) as Hf.
    destruct (filter tz_dst_is_zero (x :: y :: rest)) as [|b [|b' l]].
    + destruct (latest_by_utc _ None) as [[r|]|] eqn:El; simpl;
        try discriminate.
      intros H; inversion H; subst.
      eapply latest_by_utc_valid; [exact Hp | | exact El]. discriminate.
    + intros H; inversion H; subst. inversion Hf; assumption.
    + destruct (latest_by_utc _ None) as [[r|]|] eqn:El; simpl;
        try discriminate.
      intros H; inversion H; subst.
      eapply latest_by_utc_valid; [exact Hf | | exact El]. discriminate.
Qed.

Lemma localize_valid depth t dt a :
  valid dt -> localize depth t dt = Ok a -> valid (local a).
Proof.
  intros Hv. destruct t; simpl.
  - intros H; inversion H; subst; assumption.
  - intros H; inversion H; subst; assumption.
  - apply localize_dst_valid.
Qed.

Lemma astimezone_valid d target a :
  valid (local d) -> astimezone d target = Ok a -> valid (local a).
Proof.
  intros Hv. unfold astimezone.
  destruct (tz_is _ _).
  - intros H; inversion H; subst; assumption.
  - destruct (call_utcoffset _); [cbn [bind] | discriminate].
    destruct (sub _ _); [cbn [bind] | discriminate]. apply fromutc_valid.
Qed.

(** What [convert] formats is a checked datetime. *)
Lemma convert_formats_valid p dt src tgt out :
  valid dt -> convert p dt src tgt = Ok out ->
  exists t, valid t /\
    out = Strftime.expand (strftime_pads_year p) t "%Y:%m:%d %H:%M:%S".
Proof.
  intros Hv. unfold convert.
  destruct (timezone p src) as [source_tz|]; [cbn [bind] | discriminate].
  destruct (localize _ _ _) as [localized_dt|] eqn:El; [cbn [bind] | discriminate].
  destruct (timezone p tgt) as [target_tz|]; [cbn [bind] | discriminate].
  destruct (astimezone _ _) as [utc_dt|] eqn:Ea; [cbn [bind] | discriminate].
  unfold Strftime.strftime.
  destruct (call_dst _); [cbn [bind] | discriminate].
  intros H; inversion H; subst.
  exists (local utc_dt). split; [ | reflexivity].
  eapply astimezone_valid; [ | exact Ea].
  eapply localize_valid; eassumption.
Qed.

Lemma normalize_timestamp_formats_valid p ts src tgt out lg :
  normalize_timestamp p ts src tgt = (Ok (Some out), lg) ->
  exists t, valid t /\
    out = Strftime.expand (strftime_pads_year p) t "%Y:%m:%d %H:%M:%S".
Proof.
  unfold normalize_timestamp, normalize_try.
  destruct (parse_loop ts formats_to_try) as [[dt|]|e] eqn:Ep.
  - destruct (convert p dt src tgt) as [s|e] eqn:Ec.
    + intros H; inversion H; subst.
      eapply convert_formats_valid; [ | exact Ec].
      eapply parse_loop_valid; eassumption.
    + destruct (issubclass e UnknownTimeZoneError); [discriminate | ].
      destruct (issubclass e Exception); discriminate.
  - discriminate.
  - destruct (issubclass e UnknownTimeZoneError); [discriminate | ].
    destruct (issubclass e Exception); discriminate.
Qed.

End Validity.

(** ** C7: the shape of the result *)

Section Shape.

Import Datetime Strptime Pattern Strftime.

Lemma below_forall (P : Z -> bool) (N : Z) :
  forallb P (map Z.of_nat (seq 0 (Z.to_nat N))) = true ->
  forall n, 0 <= n < N -> P n = true.
Proof.
  intros H n Hn. rewrite forallb_forall in H. apply H.
  apply in_map_iff. exists (Z.to_nat n).
  split; [lia | apply in_seq; lia].
Qed.

Lemma zfill2_digits n :
  0 <= n < 100 -> all_of [Digit; Digit] (zfill 2 n) = true.
Proof.
  apply (below_forall (fun n => all_of [Digit; Digit] (zfill 2 n)) 100).
  vm_compute. reflexivity.
Qed.

Lemma zfill4_digits y :
  0 <= y < 10000 -> all_of [Digit; Digit; Digit; Digit] (zfill 4 y) = true.
Proof.
  apply (below_forall
           (fun y => all_of [Digit; Digit; Digit; Digit] (zfill 4 y)) 10000).
  vm_compute. reflexivity.
Qed.

Lemma decimal4_digits y :
  1000 <= y < 10000 ->
  all_of [Digit; Digit; Digit; Digit] (decimal y) = true.
Proof.
  intros Hy.
  pose proof (below_forall
           (fun y => (y <? 1000)
                     || all_of [Digit; Digit; Digit; Digit] (decimal y)) 10000)
    as H.
  specialize (H ltac:(vm_compute; reflexivity) y ltac:(lia)).
  apply orb_true_iff in H. destruct H as [H|H]; [ | exact H].
  apply Z.ltb_lt in H. lia.
Qed.

Lemma all_of_cons k ks c s :
  all_of (k :: ks) (String c s) = in_class k c && all_of ks s.
Proof.
  unfold all_of. simpl. destruct (in_class k c); [ | reflexivity].
  destruct (match_classes ks s) as [[t r]|]; reflexivity.
Qed.

Lemma all_of_app ks1 : forall ks2 s1 s2,
  all_of ks1 s1 = true -> all_of ks2 s2 = true ->
  all_of (ks1 ++ ks2) (s1 ++ s2) = true.
Proof.
  induction ks1 as [|k ks1 IH]; intros ks2 s1 s2 H1 H2.
  - destruct s1; [exact H2 | discriminate H1].
  - destruct s1 as [|c s1]; [discriminate H1 | ].
    rewrite all_of_cons in H1. apply andb_true_iff in H1.
    destruct H1 as [Hc H1].
    change (all_of (k :: (ks1 ++ ks2)) (String c (s1 ++ s2)) = true).
    rewrite all_of_cons, Hc. simpl. apply IH; assumption.
Qed.

Lemma all_of_sep c ks s :
  all_of ks s = true -> all_of (Exact c :: ks) (String c s) = true.
Proof.
  intros H. rewrite all_of_cons, H. simpl. rewrite Ascii.eqb_refl. reflexivity.
Qed.

Lemma expand_exif pads t :
  expand pads t "%Y:%m:%d %H:%M:%S" =
  (if pads then zfill 4 (year t) else decimal (year t))
  ++ String ":" (zfill 2 (month t)
  ++ String ":" (zfill 2 (day t)
  ++ String " " (zfill 2 (hour t)
  ++ String ":" (zfill 2 (minute t)
  ++ String ":" (zfill 2 (second t) ++ ""))))).
Proof. reflexivity. Qed.

Lemma days_in_month_le_31 y m : days_in_month y m <= 31.
Proof.
  unfold days_in_month. destruct (_ && _); [lia | ].
  unfold DAYS_IN_MONTH.
  repeat match goal with
         | |- context [match ?x with _ => _ end] => destruct x
         end; lia.
Qed.

Lemma valid_bounds t :
  valid t ->
  1 <= year t <= 9999 /\ 1 <= month t <= 12 /\ 1 <= day t <= 31 /\
  0 <= hour t <= 23 /\ 0 <= minute t <= 59 /\ 0 <= second t <= 59.
Proof.
  unfold valid, check_date_fields, check_time_fields, MINYEAR, MAXYEAR.
  intros H. repeat rewrite andb_true_iff in H.
  repeat rewrite Z.leb_le in H.
  pose proof (days_in_month_le_31 (year t) (month t)). lia.
Qed.

(** The part after the year. *)
Lemma tail_shape t :
  valid t ->
  all_of exif_tail
    (String ":" (zfill 2 (month t)
     ++ String ":" (zfill 2 (day t)
     ++ String " " (zfill 2 (hour t)
     ++ String ":" (zfill 2 (minute t)
     ++ String ":" (zfill 2 (second t) ++ "")))))) = true.
Proof.
  intros Hv. apply valid_bounds in Hv.
  change exif_tail with
    (Exact ":" :: [Digit; Digit] ++ Exact ":" :: [Digit; Digit] ++
     Exact " " :: [Digit; Digit] ++ Exact ":" :: [Digit; Digit] ++
     Exact ":" :: [Digit; Digit] ++ [])%list.
  repeat first [ apply all_of_sep
               | apply all_of_app; [apply zfill2_digits; lia | ] ].
  reflexivity.
Qed.

(** A checked datetime is formatted as [YYYY:MM:DD HH:MM:SS] when the
    year is zero-filled or has four digits, and with a shorter year
    otherwise. *)
Lemma expand_shape pads t :
  valid t ->
  exif_format_short_year (expand pads t "%Y:%m:%d %H:%M:%S") = true /\
  (pads = true \/ 1000 <= year t ->
   exif_format (expand pads t "%Y:%m:%d %H:%M:%S") = true).
Proof.
  intros Hv. pose proof (tail_shape t Hv) as Ht.
  pose proof (valid_bounds t Hv) as Hb.
  rewrite expand_exif.
  assert (Hfull : pads = true \/ 1000 <= year t ->
    exif_format
      ((if pads then zfill 4 (year t) else decimal (year t))
       ++ String ":" (zfill 2 (month t)
       ++ String ":" (zfill 2 (day t)
       ++ String " " (zfill 2 (hour t)
       ++ String ":" (zfill 2 (minute t)
       ++ String ":" (zfill 2 (second t) ++ "")))))) = true).
  { intros Hy. unfold exif_format.
    change exif_shape with ([Digit; Digit; Digit; Digit] ++ exif_tail)%list.
    apply all_of_app; [ | exact Ht].
    destruct pads.
    - apply zfill4_digits; lia.
    - destruct Hy as [Hy|Hy]; [discriminate | apply decimal4_digits; lia]. }
  split; [ | exact Hfull].
  unfold exif_format_short_year.
  apply existsb_exists.
  destruct pads.
  - exists 4%nat. split; [simpl; tauto | ].
    apply all_of_app; [apply zfill4_digits; lia | exact Ht].
  - pose proof (below_forall
      (fun y => existsb (fun k => all_of (repeat Digit k) (decimal y))
                        [1; 2; 3; 4]%nat) 10000
      ltac:(vm_compute; reflexivity) (year t) ltac:(lia)) as Hd.
    apply existsb_exists in Hd. destruct Hd as (k & Hk & Hd).
    exists k. split; [exact Hk | ].
    apply all_of_app; [exact Hd | exact Ht].
Qed.

(** C7, as the code has it. Whatever format matched, a returned string is
    the one format [%Y:%m:%d %H:%M:%S] applied to a checked datetime:
    [:MM:DD HH:MM:SS] after a year of at most four digits, and
    [YYYY:MM:DD HH:MM:SS] when the year is at least 1000 or the
    installation zero-fills the year. *)
Theorem normalize_timestamp_output_shape p ts src tgt out lg :
  normalize_timestamp p ts src tgt = (Ok (Some out), lg) ->
  exists t,
    valid t /\
    out = expand (strftime_pads_year p) t "%Y:%m:%d %H:%M:%S" /\
    exif_format_short_year out = true /\
    (strftime_pads_year p = true \/ 1000 <= year t ->
     exif_format out = true).
Proof.
  intros H.
  apply normalize_timestamp_formats_valid in H.
  destruct H as (t & Hv & ->).
  destruct (expand_shape (strftime_pads_year p) t Hv) as (Hs & Hf).
  exists t. repeat split; assumption.
Qed.

End Shape.

(** The ambiguous date of the specification on Linux: the slash format
    comes back in the colon format. *)
Lemma normalize_timestamp_output_shape_witness :
  exists t,
    Datetime.valid t /\
    "2023:03:04 10:00:00"
    = Strftime.expand (strftime_pads_year Sample.linux) t "%Y:%m:%d %H:%M:%S" /\
    Pattern.exif_format_short_year "2023:03:04 10:00:00" = true /\
    (strftime_pads_year Sample.linux = true \/ 1000 <= Datetime.year t ->
     Pattern.exif_format "2023:03:04 10:00:00" = true).
Proof.
  apply (normalize_timestamp_output_shape Sample.linux
           (PStr "03/04/2023 10:00:00") "UTC" "UTC" "2023:03:04 10:00:00" []).
  vm_compute. reflexivity.
Defined.

(** On an installation that does not zero-fill the year (Linux), a
    timestamp of the year 999 is accepted and comes back with a
    three-digit year, which is not [YYYY:MM:DD HH:MM:SS]. *)
Lemma small_year_loses_its_zero :
  normalize_timestamp Sample.linux (PStr "0999:01:02 03:04:05") "UTC" "UTC"
  = (Ok (Some "999:01:02 03:04:05"), []) /\
  Pattern.exif_format "999:01:02 03:04:05" = false.
Proof. split; vm_compute; reflexivity. Qed.

(** ** Traces of the processors *)

Section TraceFacts.

Import Trace.

Lemma after_after w a b : after (after w a) b = after w (a ++ b).
Proof. unfold after. simpl. rewrite app_assoc. reflexivity. Qed.

Lemma after_nil w : after w [] = w.
Proof. destruct w. unfold after. simpl. rewrite app_nil_r. reflexivity. Qed.

Lemma logs_are_logs lg : forallb is_log (log_events lg) = true.
Proof. induction lg as [|[lv m] lg IH]; simpl; auto. Qed.

Lemma logs_no_writes evs : forallb is_log evs = true -> no_writes evs = true.
Proof.
  induction evs as [|[| |] evs IH]; simpl; intros H; try discriminate; auto.
Qed.

Lemma logs_no_calls evs : forallb is_log evs = true -> calls evs = [].
Proof.
  induction evs as [|[| |] evs IH]; simpl; intros H; try discriminate; auto.
Qed.

Lemma no_writes_app a b :
  no_writes (a ++ b) = no_writes a && no_writes b.
Proof. apply forallb_app. Qed.

Lemma calls_app a b : calls (a ++ b) = (calls a ++ calls b)%list.
Proof.
  induction a as [|[| |] a IH]; simpl; try rewrite IH; reflexivity.
Qed.

Lemma count_writes_app a b :
  count_writes (a ++ b) = (count_writes a + count_writes b)%nat.
Proof. unfold count_writes. rewrite filter_app, length_app. reflexivity. Qed.

Lemma no_writes_count evs : no_writes evs = true -> count_writes evs = 0%nat.
Proof.
  unfold count_writes.
  induction evs as [|[| |] evs IH]; simpl; intros H; try discriminate; auto.
Qed.

Lemma no_writes_single evs :
  no_writes evs = true -> single_late_write evs = true.
Proof.
  induction evs as [|[| |] evs IH]; simpl; intros H; try discriminate; auto.
Qed.

Lemma single_after_quiet a b :
  no_writes a = true -> single_late_write b = true ->
  single_late_write (a ++ b) = true.
Proof.
  induction a as [|[| |] a IH]; simpl; intros Ha Hb; try discriminate; auto.
Qed.

Lemma single_then_logs a b :
  single_late_write a = true -> forallb is_log b = true ->
  single_late_write (a ++ b) = true.
Proof.
  induction a as [|[| |] a IH]; simpl; intros Ha Hb; auto.
  - apply no_writes_single, logs_no_writes; assumption.
  - rewrite forallb_app, Ha, Hb. reflexivity.
Qed.

Lemma single_count evs :
  single_late_write evs = true -> (count_writes evs <= 1)%nat.
Proof.
  unfold count_writes.
  induction evs as [|[| |] evs IH]; simpl; intros H; auto.
  apply logs_no_writes, no_writes_count in H.
  unfold count_writes in H. rewrite H. auto.
Qed.

Lemma emit_run ev w : emit ev w = (Ok tt, after w [ev]).
Proof. reflexivity. Qed.

Lemma logging_run lv m w : logging lv m w = (Ok tt, after w [EvLog lv m]).
Proof. reflexivity. Qed.

Lemma call_normalize_run (normalize : normalizer) v src tgt w :
  call_normalize normalize v src tgt w
  = (fst (normalize v src tgt),
     after w (EvNormalize v :: log_events (snd (normalize v src tgt)))).
Proof.
  unfold call_normalize, bindM. rewrite emit_run.
  destruct (normalize v src tgt) as [r lg]. simpl.
  unfold lift, after. simpl. rewrite <- app_assoc. reflexivity.
Qed.

End TraceFacts.

(** ** The image processor *)

Section ImageFacts.

Import Trace.

Variables (normalize : normalizer) (pil : pillow).

(** The staging loop writes nothing and, when it ends, has handed every
    datetime tag's value, in order, to the normalizer. *)
Lemma stage_tags_run items : forall tz verbose acc w,
  exists r evs,
    stage_tags normalize pil items tz verbose acc w = (r, after w evs) /\
    no_writes evs = true /\
    (forall staged, r = Ok staged -> calls evs = datetime_values pil items).
Proof.
  induction items as [|[tag_id value] rest IH]; intros tz verbose acc w.
  - exists (Ok acc), []. simpl. rewrite after_nil. auto.
  - cbn [stage_tags]. unfold bindM at 1.
    set (pre := if verbose
                then [EvLog INFO (Processing_tag (TAGS pil tag_id) tag_id value)]
                else []).
    assert (Hpre : (if verbose
                    then logging INFO
                           (Processing_tag (TAGS pil tag_id) tag_id value)
                    else ret tt) w = (Ok tt, after w pre)).
    { subst pre. destruct verbose; [reflexivity | ].
      rewrite after_nil. reflexivity. }
    rewrite Hpre.
    assert (Hq : no_writes pre = true /\ calls pre = []).
    { subst pre. destruct verbose; auto. }
    destruct Hq as (Hq1 & Hq2).
    unfold datetime_values. cbn [filter fst].
    destruct (is_datetime_tag (TAGS pil tag_id)) eqn:Etag.
    + unfold bindM at 1. rewrite call_normalize_run.
      set (lgs := log_events (snd (normalize value "UTC" tz))).
      assert (Hl1 : no_writes lgs = true)
        by apply logs_no_writes, logs_are_logs.
      assert (Hl2 : calls lgs = []) by apply logs_no_calls, logs_are_logs.
      destruct (fst (normalize value "UTC" tz)) as [r|e].
      * rewrite after_after.
        destruct (truthy r) as [n|].
        -- unfold bindM at 1. rewrite logging_run, after_after.
           destruct (IH tz verbose (dict_set Z.eqb acc tag_id n)
                       (after w ((pre ++ EvNormalize value :: lgs)
                                 ++ [EvLog INFO
                                       (Normalized_tag (TAGS pil tag_id) value
                                          n tz)])))
             as (r' & evs & Hw & Hn & Hc).
           rewrite Hw, after_after. exists r'. eexists.
           split; [reflexivity | ]. split.
           ++ rewrite !no_writes_app, Hq1, Hn. simpl. rewrite Hl1. reflexivity.
           ++ intros staged Hs. rewrite !calls_app, Hq2. simpl.
              rewrite Hl2. simpl. f_equal. eapply Hc; eassumption.
        -- unfold bindM at 1. rewrite logging_run, after_after.
           destruct (IH tz verbose acc
                       (after w ((pre ++ EvNormalize value :: lgs)
                                 ++ [EvLog WARNING
                                       (Failed_to_normalize (TAGS pil tag_id)
                                          value)])))
             as (r' & evs & Hw & Hn & Hc).
           rewrite Hw, after_after. exists r'. eexists.
           split; [reflexivity | ]. split.
           ++ rewrite !no_writes_app, Hq1, Hn. simpl. rewrite Hl1. reflexivity.
           ++ intros staged Hs. rewrite !calls_app, Hq2. simpl.
              rewrite Hl2. simpl. f_equal. eapply Hc; eassumption.
      * rewrite after_after. exists (Raise e). eexists.
        split; [reflexivity | ].
        split; [ | discriminate].
        rewrite no_writes_app, Hq1. simpl. exact Hl1.
    + destruct (IH tz verbose acc (after w pre)) as (r' & evs & Hw & Hn & Hc).
      rewrite Hw, after_after. exists r'. eexists.
      split; [reflexivity | ]. split.
      * rewrite no_writes_app, Hq1, Hn. reflexivity.
      * intros staged Hs. rewrite calls_app, Hq2. simpl.
        eapply Hc; eassumption.
Qed.

Lemma image_run_quiet file_path dry_run w evs :
  no_writes evs = true -> image_run_ok pil file_path dry_run w (after w evs).
Proof.
  intros Hn. exists evs. repeat split; auto.
  - apply no_writes_single; assumption.
  - intros raw img exif_data _ _ _ Hpos.
    rewrite (no_writes_count evs Hn) in Hpos. inversion Hpos.
Qed.

Lemma process_image_try_run file_path tz dry_run verbose w :
  image_run_ok pil file_path dry_run w
    (snd (process_image_try normalize pil file_path tz dry_run verbose w)).
Proof.
  unfold process_image_try. unfold bindM at 1. unfold read_file.
  destruct (files w file_path) as [raw|] eqn:Ef.
  2:{ simpl. rewrite <- (after_nil w) at 2.
      apply image_run_quiet; reflexivity. }
  unfold bindM at 1. unfold lift at 1.
  destruct (Image_open pil raw) as [img|e] eqn:Eo.
  2:{ simpl. rewrite <- (after_nil w) at 2.
      apply image_run_quiet; reflexivity. }
  unfold bindM at 1. unfold lift at 1.
  destruct (getexif pil img) as [[exif_data|]|e] eqn:Eg.
  3:{ simpl. rewrite <- (after_nil w) at 2.
      apply image_run_quiet; reflexivity. }
  2:{ rewrite logging_run. simpl. apply image_run_quiet; reflexivity. }
  assert (Hsame : forall raw' img' exif',
            files w file_path = Some raw' -> Image_open pil raw' = Ok img' ->
            getexif pil img' = Ok (Some exif') -> exif' = exif_data).
  { intros raw' img' exif' H1 H2 H3. rewrite H1 in Ef.
    inversion Ef; subst. rewrite H2 in Eo. inversion Eo; subst.
    rewrite H3 in Eg. inversion Eg; reflexivity. }
  unfold bindM at 1.
  destruct (stage_tags_run exif_data tz verbose [] w)
    as (r & evs & Hrun & Hn & Hc).
  rewrite Hrun.
  destruct r as [updated_exif|e].
  2:{ simpl. apply image_run_quiet; assumption. }
  specialize (Hc updated_exif eq_refl).
  destruct updated_exif as [|kv updated_exif].
  { rewrite logging_run, after_after. simpl.
    apply image_run_quiet. rewrite no_writes_app, Hn. reflexivity. }
  destruct dry_run; cbn [negb].
  { rewrite logging_run, after_after. simpl.
    apply image_run_quiet. rewrite no_writes_app, Hn. reflexivity. }
  unfold bindM at 1. unfold lift at 1.
  destruct (ExifTag pil) as [to_bytes|] eqn:Ee.
  2:{ simpl. apply image_run_quiet; assumption. }
  destruct (to_bytes _) as [new_exif|e].
  2:{ simpl. apply image_run_quiet; assumption. }
  unfold bindM at 1. unfold img_save.
  destruct (save pil img new_exif) as [[content|] r].
  - (* the file is written *)
    unfold bindM at 1. unfold write_file at 1. unfold lift at 1.
    assert (Hfinal : forall tail, forallb is_log tail = true ->
      image_run_ok pil file_path false w
        (mk_world
           (fun q => if String.eqb q file_path then Some content
                     else files (after w evs) q)
           ((trace (after w evs) ++ [EvWrite file_path content]) ++ tail))).
    { intros tail Htail.
      exists (evs ++ EvWrite file_path content :: tail)%list.
      assert (Hw : no_writes (evs ++ EvWrite file_path content :: tail)
                   = false).
      { rewrite no_writes_app. simpl. apply andb_false_r. }
      split; [simpl; rewrite <- !app_assoc; reflexivity | ].
      split; [apply single_after_quiet; [assumption | exact Htail] | ].
      split; [rewrite Hw; discriminate | ].
      split; [discriminate | ].
      split; [intros Hnone; rewrite Hnone in Ee; discriminate Ee | ].
      intros raw' img' exif' H1 H2 H3 _.
      rewrite (Hsame _ _ _ H1 H2 H3), calls_app, Hc. simpl.
      rewrite (logs_no_calls tail Htail). apply app_nil_r. }
    destruct r as [[]|e].
    + rewrite logging_run. unfold after. simpl.
      apply (Hfinal [EvLog INFO (Updated_EXIF file_path)]). reflexivity.
    + simpl. rewrite <- (app_nil_r (_ ++ [EvWrite _ _])).
      apply (Hfinal []). reflexivity.
  - (* the library left the file alone *)
    unfold bindM at 1. unfold ret at 1. unfold lift at 1.
    destruct r as [[]|e].
    + rewrite logging_run, after_after. simpl.
      apply image_run_quiet. rewrite no_writes_app, Hn. reflexivity.
    + simpl. apply image_run_quiet; assumption.
Qed.

(** The [except] clauses add at most a log line. *)
Lemma process_image_file_handler file_path tz dry_run verbose w :
  exists tail,
    forallb is_log tail = true /\
    snd (process_image_file_with normalize pil file_path tz dry_run verbose w)
    = after (snd (process_image_try normalize pil file_path tz dry_run
                    verbose w)) tail.
Proof.
  unfold process_image_file_with.
  destruct (process_image_try normalize pil file_path tz dry_run verbose w)
    as [[[]|e] w1].
  - exists []. rewrite after_nil. auto.
  - destruct (issubclass e FileNotFoundError);
      [eexists; split; [ | reflexivity]; reflexivity | ].
    destruct (issubclass e OSError);
      [eexists; split; [ | reflexivity]; reflexivity | ].
    destruct (issubclass e Exception);
      [eexists; split; [ | reflexivity]; reflexivity | ].
    exists []. rewrite after_nil. auto.
Qed.

Lemma process_image_file_run file_path tz dry_run verbose w :
  image_run_ok pil file_path dry_run w
    (snd (process_image_file_with normalize pil file_path tz dry_run verbose
            w)).
Proof.
  destruct (process_image_file_handler file_path tz dry_run verbose w)
    as (tail & Htail & ->).
  destruct (process_image_try_run file_path tz dry_run verbose w)
    as (evs & Ht & Hs & Hf & Hd & He & Hc).
  exists (evs ++ tail)%list.
  assert (Hnw : no_writes (evs ++ tail) = no_writes evs).
  { rewrite no_writes_app, (logs_no_writes tail Htail). apply andb_true_r. }
  assert (Hcw : count_writes (evs ++ tail) = count_writes evs).
  { rewrite count_writes_app,
      (no_writes_count tail (logs_no_writes tail Htail)). lia. }
  rewrite Hnw, Hcw.
  split; [simpl; rewrite Ht, app_assoc; reflexivity | ].
  split; [apply single_then_logs; assumption | ].
  split; [exact Hf | ].
  split; [exact Hd | ].
  split; [exact He | ].
  intros raw img exif_data H1 H2 H3 Hpos.
  rewrite calls_app, (logs_no_calls tail Htail), app_nil_r.
  eapply Hc; eassumption.
Qed.

(** *** The update of the tag set in memory (lines 108-109) *)

Lemma dict_set_In {V} (d : list (Z * V)) k v k' v' :
  In (k', v') (dict_set Z.eqb d k v) -> (k', v') = (k, v) \/ In (k', v') d.
Proof.
  induction d as [|[k0 v0] d IH]; simpl.
  - intros [H|[]]; left; symmetry; exact H.
  - destruct (Z.eqb k0 k).
    + intros [H|H]; [left; symmetry; exact H | right; right; exact H].
    + intros [H|H]; [right; left; exact H | ].
      destruct (IH H) as [E|E]; [left; exact E | right; right; exact E].
Qed.

Lemma dict_get_set_other {V} (d : list (Z * V)) k v k' :
  k <> k' -> dict_get Z.eqb (dict_set Z.eqb d k v) k' = dict_get Z.eqb d k'.
Proof.
  intros Hne. induction d as [|[k0 v0] d IH]; simpl.
  - destruct (Z.eqb_spec k k'); [contradiction | reflexivity].
  - destruct (Z.eqb_spec k0 k) as [->|Hk]; simpl.
    + destruct (Z.eqb_spec k k'); [contradiction | reflexivity].
    + destruct (Z.eqb k0 k'); [reflexivity | exact IH].
Qed.

Lemma dict_get_set_same {V} (d : list (Z * V)) k v :
  dict_get Z.eqb (dict_set Z.eqb d k v) k = Some v.
Proof.
  induction d as [|[k0 v0] d IH]; simpl.
  - rewrite Z.eqb_refl. reflexivity.
  - destruct (Z.eqb_spec k0 k) as [->|Hk]; simpl.
    + rewrite Z.eqb_refl. reflexivity.
    + destruct (Z.eqb_spec k0 k); [contradiction | exact IH].
Qed.

Lemma apply_updates_other updated_exif : forall exif_data tag_id,
  (forall v, ~ In (tag_id, v) updated_exif) ->
  dict_get Z.eqb (apply_updates exif_data updated_exif) tag_id
  = dict_get Z.eqb exif_data tag_id.
Proof.
  induction updated_exif as [|[k v] rest IH]; intros exif_data tag_id Hnot;
    simpl; [reflexivity | ].
  rewrite IH.
  - apply dict_get_set_other. intros ->. apply (Hnot v). left; reflexivity.
  - intros v' Hin. apply (Hnot v'). right; exact Hin.
Qed.

(** Only datetime tags are staged. *)
Lemma stage_tags_keys items : forall tz verbose acc w staged w1,
  stage_tags normalize pil items tz verbose acc w = (Ok staged, w1) ->
  (forall k v, In (k, v) acc -> is_datetime_tag (TAGS pil k) = true) ->
  forall k v, In (k, v) staged -> is_datetime_tag (TAGS pil k) = true.
Proof.
  induction items as [|[tag_id value] rest IH];
    intros tz verbose acc w staged w1.
  - simpl. intros H; inversion H; subst. auto.
  - cbn [stage_tags]. unfold bindM at 1.
    destruct ((if verbose
               then logging INFO
                      (Processing_tag (TAGS pil tag_id) tag_id value)
               else ret tt) w) as [[[]|e] w0] eqn:Ev.
    2:{ destruct verbose; discriminate Ev. }
    destruct (is_datetime_tag (TAGS pil tag_id)) eqn:Etag.
    + unfold bindM at 1. rewrite call_normalize_run.
      destruct (fst (normalize value "UTC" tz)) as [r|e]; [ | discriminate].
      destruct (truthy r) as [n|].
      * unfold bindM at 1. rewrite logging_run.
        intros H Hacc. eapply IH; [exact H | ].
        intros k v Hin. apply dict_set_In in Hin.
        destruct Hin as [E|Hin]; [inversion E; subst; exact Etag | ].
        eapply Hacc; exact Hin.
      * unfold bindM at 1. rewrite logging_run.
        intros H Hacc. eapply IH; eassumption.
    + intros H Hacc. eapply IH; eassumption.
Qed.

(** The tag set handed on to the encoder agrees with the one read from
    the file on every tag that is not a datetime tag. *)
Lemma update_keeps_other_tags exif_data tz verbose w staged w1 tag_id :
  stage_tags normalize pil exif_data tz verbose [] w = (Ok staged, w1) ->
  is_datetime_tag (TAGS pil tag_id) = false ->
  dict_get Z.eqb (apply_updates exif_data staged) tag_id
  = dict_get Z.eqb exif_data tag_id.
Proof.
  intros Hs Htag. apply apply_updates_other.
  intros v Hin.
  pose proof (stage_tags_keys exif_data tz verbose [] w staged w1 Hs
                ltac:(intros k v' []) tag_id v Hin) as Hd.
  rewrite Hd in Htag. discriminate.
Qed.

End ImageFacts.

(** ** The text processor *)

Section TextFacts.

Import Trace.

Variables (normalize : normalizer) (cd : codecs).

(** The replacement loop writes nothing and, when it ends, has handed
    every candidate, in order, to the normalizer. *)
Lemma replace_loop_run cands : forall tz content repl w,
  exists r evs,
    replace_loop normalize cands tz content repl w = (r, after w evs) /\
    no_writes evs = true /\
    (forall cr, r = Ok cr -> calls evs = map PStr cands).
Proof.
  induction cands as [|ts rest IH]; intros tz content repl w.
  - exists (Ok (content, repl)), []. simpl. rewrite after_nil. auto.
  - cbn [replace_loop]. unfold bindM at 1. rewrite call_normalize_run.
    set (lgs := log_events (snd (normalize (PStr ts) "UTC" tz))).
    assert (Hl1 : no_writes lgs = true)
      by apply logs_no_writes, logs_are_logs.
    assert (Hl2 : calls lgs = []) by apply logs_no_calls, logs_are_logs.
    destruct (fst (normalize (PStr ts) "UTC" tz)) as [r|e].
    + destruct (truthy r) as [n|].
      * unfold bindM at 1. rewrite logging_run, after_after.
        destruct (IH tz (Str.replace content ts n)
                    (dict_set String.eqb repl ts n)
                    (after w ((EvNormalize (PStr ts) :: lgs)
                              ++ [EvLog INFO (Normalized_text ts n tz)])))
          as (r' & evs & Hw & Hn & Hc).
        rewrite Hw, after_after. exists r'. eexists.
        split; [reflexivity | ]. split.
        -- rewrite !no_writes_app, Hn. simpl. rewrite Hl1. reflexivity.
        -- intros cr Hs. rewrite !calls_app. simpl. rewrite Hl2. simpl.
           f_equal. eapply Hc; eassumption.
      * destruct (IH tz content repl (after w (EvNormalize (PStr ts) :: lgs)))
          as (r' & evs & Hw & Hn & Hc).
        rewrite Hw, after_after. exists r'. eexists.
        split; [reflexivity | ]. split.
        -- rewrite !no_writes_app, Hn. simpl. rewrite Hl1. reflexivity.
        -- intros cr Hs. rewrite !calls_app. simpl. rewrite Hl2. simpl.
           f_equal. eapply Hc; eassumption.
    + exists (Raise e). eexists. split; [reflexivity | ].
      split; [exact Hl1 | discriminate].
Qed.

Lemma text_run_quiet file_path dry_run w evs :
  no_writes evs = true -> text_run_ok cd file_path dry_run w (after w evs).
Proof.
  intros Hn. exists evs. repeat split; auto.
  - apply no_writes_single; assumption.
  - intros raw encoding content cands _ _ _ _ Hpos.
    rewrite (no_writes_count evs Hn) in Hpos. inversion Hpos.
Qed.

Lemma process_text_try_run file_path tz dry_run verbose w :
  text_run_ok cd file_path dry_run w
    (snd (process_text_try normalize cd file_path tz dry_run verbose w)).
Proof.
  unfold process_text_try. unfold bindM at 1. unfold read_file.
  destruct (files w file_path) as [raw|] eqn:Ef.
  2:{ simpl. rewrite <- (after_nil w) at 2.
      apply text_run_quiet; reflexivity. }
  unfold bindM at 1. unfold lift at 1.
  destruct (detect cd raw) as [encoding|e] eqn:Ed.
  2:{ simpl. rewrite <- (after_nil w) at 2.
      apply text_run_quiet; reflexivity. }
  unfold bindM at 1. rewrite Ef.
  unfold bindM at 1. unfold lift at 1.
  destruct (decode cd encoding raw) as [content|e] eqn:Ec.
  2:{ simpl. rewrite <- (after_nil w) at 2.
      apply text_run_quiet; reflexivity. }
  unfold bindM at 1. unfold lift at 1.
  destruct (scan_lines (Str.splitlines content)) as [cands|e] eqn:Es.
  2:{ simpl. rewrite <- (after_nil w) at 2.
      apply text_run_quiet; reflexivity. }
  assert (Hsame : forall raw' encoding' content' cands',
            files w file_path = Some raw' -> detect cd raw' = Ok encoding' ->
            decode cd encoding' raw' = Ok content' ->
            scan_lines (Str.splitlines content') = Ok cands' ->
            cands' = cands).
  { intros raw' encoding' content' cands' H1 H2 H3 H4. rewrite H1 in Ef.
    inversion Ef; subst. rewrite H2 in Ed. inversion Ed; subst.
    rewrite H3 in Ec. inversion Ec; subst. rewrite H4 in Es.
    inversion Es; reflexivity. }
  unfold bindM at 1.
  destruct (replace_loop_run cands tz content [] w)
    as (r & evs & Hrun & Hn & Hc).
  rewrite Hrun.
  destruct r as [[normalized_content replacements]|e].
  2:{ simpl. apply text_run_quiet; assumption. }
  specialize (Hc _ eq_refl).
  destruct replacements as [|kv replacements].
  { rewrite logging_run, after_after. simpl.
    apply text_run_quiet. rewrite no_writes_app, Hn. reflexivity. }
  destruct dry_run; cbn [negb].
  { rewrite logging_run, after_after. simpl.
    apply text_run_quiet. rewrite no_writes_app, Hn. reflexivity. }
  unfold bindM at 1. unfold write_text.
  assert (Hfinal : forall b tail, forallb is_log tail = true ->
    text_run_ok cd file_path false w
      (mk_world
         (fun q => if String.eqb q file_path then Some b
                   else files (after w evs) q)
         ((trace (after w evs) ++ [EvWrite file_path b]) ++ tail))).
  { intros b tail Htail.
    exists (evs ++ EvWrite file_path b :: tail)%list.
    assert (Hw : no_writes (evs ++ EvWrite file_path b :: tail) = false).
    { rewrite no_writes_app. simpl. apply andb_false_r. }
    split; [simpl; rewrite <- !app_assoc; reflexivity | ].
    split; [apply single_after_quiet; [assumption | exact Htail] | ].
    split; [rewrite Hw; discriminate | ].
    split; [discriminate | ].
    intros raw' encoding' content' cands' H1 H2 H3 H4 _.
    rewrite (Hsame _ _ _ _ H1 H2 H3 H4), calls_app, Hc. simpl.
    rewrite (logs_no_calls tail Htail). apply app_nil_r. }
  destruct (encode cd encoding normalized_content) as [b|e].
  - unfold write_file at 1. rewrite logging_run. unfold after at 1. simpl.
    apply (Hfinal b [EvLog INFO (Normalized_file file_path)]). reflexivity.
  - unfold bindM at 1. unfold write_file at 1. unfold raise. simpl.
    rewrite <- (app_nil_r (_ ++ [EvWrite _ _])).
    apply (Hfinal [] []). reflexivity.
Qed.

Lemma process_text_file_handler file_path tz dry_run verbose w :
  exists tail,
    forallb is_log tail = true /\
    snd (process_text_file_with normalize cd file_path tz dry_run verbose w)
    = after (snd (process_text_try normalize cd file_path tz dry_run
                    verbose w)) tail.
Proof.
  unfold process_text_file_with.
  destruct (process_text_try normalize cd file_path tz dry_run verbose w)
    as [[[]|e] w1].
  - exists []. rewrite after_nil. auto.
  - destruct (issubclass e FileNotFoundError);
      [eexists; split; [ | reflexivity]; reflexivity | ].
    destruct (issubclass e UnicodeDecodeError);
      [eexists; split; [ | reflexivity]; reflexivity | ].
    destruct (issubclass e Exception);
      [eexists; split; [ | reflexivity]; reflexivity | ].
    exists []. rewrite after_nil. auto.
Qed.

Lemma process_text_file_run file_path tz dry_run verbose w :
  text_run_ok cd file_path dry_run w
    (snd (process_text_file_with normalize cd file_path tz dry_run verbose
            w)).
Proof.
  destruct (process_text_file_handler file_path tz dry_run verbose w)
    as (tail & Htail & ->).
  destruct (process_text_try_run file_path tz dry_run verbose w)
    as (evs & Ht & Hs & Hf & Hd & Hc).
  exists (evs ++ tail)%list.
  assert (Hnw : no_writes (evs ++ tail) = no_writes evs).
  { rewrite no_writes_app, (logs_no_writes tail Htail). apply andb_true_r. }
  assert (Hcw : count_writes (evs ++ tail) = count_writes evs).
  { rewrite count_writes_app,
      (no_writes_count tail (logs_no_writes tail Htail)). lia. }
  rewrite Hnw, Hcw.
  split; [simpl; rewrite Ht, app_assoc; reflexivity | ].
  split; [apply single_then_logs; assumption | ].
  split; [exact Hf | ].
  split; [exact Hd | ].
  intros raw encoding content cands H1 H2 H3 H4 Hpos.
  rewrite calls_app, (logs_no_calls tail Htail), app_nil_r.
  eapply Hc; eassumption.
Qed.

End TextFacts.

(** ** The text processor of the program: no candidate is ever normalized *)

Section TextProgram.

Import Trace.

Lemma has_space_snoc cur c :
  has_space cur = false -> Str.isspace c = false ->
  has_space (Str.snoc cur c) = false.
Proof.
  unfold Str.snoc. induction cur as [|a cur IH]; simpl; intros H Hc.
  - rewrite Hc. reflexivity.
  - apply orb_false_iff in H. destruct H as [Ha H].
    rewrite Ha, (IH H Hc). reflexivity.
Qed.

Lemma split_aux_no_space s : forall cur word,
  has_space cur = false -> In word (Str.split_aux s cur) ->
  has_space word = false.
Proof.
  induction s as [|c s IH]; intros cur word Hcur; simpl.
  - destruct (Str.is_empty cur); simpl; [tauto | ].
    intros [<-|[]]; assumption.
  - destruct (Str.isspace c) eqn:Ec.
    + destruct (Str.is_empty cur); simpl.
      * apply IH; reflexivity.
      * intros [<-|H]; [assumption | ]. eapply IH; [ | exact H]. reflexivity.
    + apply IH. apply has_space_snoc; assumption.
Qed.

(** The words of [line.split()] hold no whitespace. *)
Lemma split_no_space line word :
  In word (Str.split line) -> has_space word = false.
Proof. apply split_aux_no_space. reflexivity. Qed.

Lemma scan_words_subset words : forall cands,
  scan_words words = Ok cands -> forall c, In c cands -> In c words.
Proof.
  induction words as [|word rest IH]; intros cands; cbn [scan_words].
  - intros H; inversion H; subst. intros c [].
  - destruct (Strptime.strptime (PStr word) "%Y-%m-%d") as [d|e].
    + destruct (scan_words rest) as [ts|]; cbn [bind]; [ | discriminate].
      intros H; inversion H; subst. intros c [<-|Hc]; [left; reflexivity | ].
      right. eapply IH; [reflexivity | assumption].
    + destruct (issubclass e ValueError); [ | discriminate].
      intros H c Hc. right. eapply IH; eassumption.
Qed.

Lemma scan_lines_no_space lines : forall cands,
  scan_lines lines = Ok cands ->
  forall c, In c cands -> has_space c = false.
Proof.
  induction lines as [|line rest IH]; intros cands; cbn [scan_lines].
  - intros H; inversion H; subst. intros c [].
  - destruct (scan_words (Str.split line)) as [a|] eqn:Ea;
      cbn [bind]; [ | discriminate].
    destruct (scan_lines rest) as [b|]; cbn [bind]; [ | discriminate].
    intros H; inversion H; subst. intros c Hc.
    apply in_app_or in Hc. destruct Hc as [Hc|Hc].
    + apply (split_no_space line). eapply scan_words_subset; eassumption.
    + eapply IH; [reflexivity | assumption].
Qed.

Variable p : platform.

(** A string without whitespace is rejected by the normalizer: each of
    its formats asks for a space before the time of day. *)
Lemma normalize_timestamp_needs_space s src tgt :
  has_space s = false ->
  normalize_timestamp p (PStr s) src tgt
  = (Ok None, [(ERROR, Could_not_parse (PStr s))]).
Proof.
  intros Hs. unfold normalize_timestamp, normalize_try.
  rewrite (parse_loop_formats s).
  rewrite !(strptime_needs_space s); try assumption; simpl; tauto.
Qed.

Lemma rejected_no_writes cands : no_writes (rejected cands) = true.
Proof. induction cands; simpl; auto. Qed.

Lemma replace_loop_rejects cands : forall tz content repl w,
  (forall c, In c cands -> has_space c = false) ->
  replace_loop (normalize_timestamp p) cands tz content repl w
  = (Ok (content, repl), after w (rejected cands)).
Proof.
  induction cands as [|c rest IH]; intros tz content repl w Hc.
  - simpl. rewrite after_nil. reflexivity.
  - cbn [replace_loop]. unfold bindM at 1. rewrite call_normalize_run.
    rewrite (normalize_timestamp_needs_space c "UTC" tz)
      by (apply Hc; left; reflexivity).
    cbn [fst snd truthy log_events map].
    rewrite IH by (intros c' Hc'; apply Hc; right; assumption).
    rewrite after_after. reflexivity.
Qed.

End TextProgram.

(** ** C1, C2, C8, C9: what the processors write *)

Section Processors.

Import Trace.

(** C2. Whatever the text holds, the program's text processor replaces
    nothing: every candidate it found (a word that parses as [%Y-%m-%d])
    is handed to the normalizer and rejected, since a word holds no
    space and every format of the normalizer asks for one; the file is not
    written, with or without dry-run, and the run ends with the
    "no recognizable timestamps" line. *)
Theorem text_candidates_are_never_replaced (p : platform) (cd : codecs)
    (file_path tz : string) (dry_run verbose : bool) (w : world)
    (raw : bytes) (encoding : option string) (content : string)
    (cands : list string) :
  files w file_path = Some raw ->
  detect cd raw = Ok encoding ->
  decode cd encoding raw = Ok content ->
  scan_lines (Str.splitlines content) = Ok cands ->
  process_text_file p cd file_path tz dry_run verbose w
  = (Ok tt,
     after w (rejected cands ++ [EvLog INFO (No_timestamps file_path)])).
Proof.
  intros Hf Hd Hc Hs.
  unfold process_text_file, process_text_file_with, process_text_try.
  unfold bindM at 1. unfold read_file at 1. rewrite Hf.
  unfold bindM at 1. unfold lift at 1. rewrite Hd.
  unfold bindM at 1. unfold read_file at 1. rewrite Hf.
  unfold bindM at 1. unfold lift at 1. rewrite Hc.
  unfold bindM at 1. unfold lift at 1. rewrite Hs.
  unfold bindM at 1.
  rewrite (replace_loop_rejects p cands tz content [] w
             (scan_lines_no_space _ _ Hs)).
  rewrite logging_run, after_after. reflexivity.
Qed.

(** C1. With a Pillow that has no attribute [PIL.ExifTags.ExifTag], a run
    of the image processor that has staged at least one tag and is not a
    dry run does not write the file: building the new EXIF block raises
    [AttributeError], which the last [except] clause logs. *)
Theorem staged_image_update_is_not_saved (p : platform) (pil : pillow)
    (file_path tz : string) (verbose : bool) (w w1 : world)
    (raw : bytes) (img : image pil) (exif_data : list (Z * pyval))
    (updated_exif : list (Z * string)) :
  ExifTag pil = None ->
  files w file_path = Some raw ->
  Image_open pil raw = Ok img ->
  getexif pil img = Ok (Some exif_data) ->
  stage_tags (normalize_timestamp p) pil exif_data tz verbose [] w
  = (Ok updated_exif, w1) ->
  updated_exif <> [] ->
  process_image_file p pil file_path tz false verbose w
  = (Ok tt,
     after w1 [EvLog ERROR (Unexpected_error file_path AttributeError)])
  /\ files w1 = files w.
Proof.
  intros He Hf Ho Hg Hs Hne.
  split.
  - unfold process_image_file, process_image_file_with, process_image_try.
    unfold bindM at 1. unfold read_file at 1. rewrite Hf.
    unfold bindM at 1. unfold lift at 1. rewrite Ho.
    unfold bindM at 1. unfold lift at 1. rewrite Hg.
    unfold bindM at 1. rewrite Hs.
    destruct updated_exif as [|kv rest]; [contradiction Hne; reflexivity | ].
    cbn [negb]. unfold bindM at 1. unfold lift at 1. rewrite He.
    reflexivity.
  - destruct (stage_tags_run (normalize_timestamp p) pil exif_data tz verbose
                [] w) as (r & evs & Hrun & _).
    rewrite Hs in Hrun. inversion Hrun. reflexivity.
Qed.

(** C8. In a dry run neither processor writes: the files are as before
    and the run adds no write to the trace; and when tags were staged, or
    replacements recorded, the run ends by logging them.  This holds for
    every function bound to [normalize_timestamp], the program's among
    them. *)
Theorem dry_run_writes_nothing (normalize : normalizer) (pil : pillow)
    (cd : codecs) (file_path tz : string) (verbose : bool) (w : world) :
  let wi := snd (process_image_file_with normalize pil file_path tz true
                   verbose w) in
  let wt := snd (process_text_file_with normalize cd file_path tz true
                   verbose w) in
  (files wi = files w /\
   exists evs, trace wi = (trace w ++ evs)%list /\ no_writes evs = true) /\
  (files wt = files w /\
   exists evs, trace wt = (trace w ++ evs)%list /\ no_writes evs = true) /\
  (forall raw img exif_data updated_exif w1,
     files w file_path = Some raw -> Image_open pil raw = Ok img ->
     getexif pil img = Ok (Some exif_data) ->
     stage_tags normalize pil exif_data tz verbose [] w
     = (Ok updated_exif, w1) ->
     updated_exif <> [] ->
     process_image_file_with normalize pil file_path tz true verbose w
     = (Ok tt, after w1 [EvLog INFO (Dry_run_EXIF file_path updated_exif)]))
  /\
  (forall raw encoding content cands normalized_content replacements w1,
     files w file_path = Some raw -> detect cd raw = Ok encoding ->
     decode cd encoding raw = Ok content ->
     scan_lines (Str.splitlines content) = Ok cands ->
     replace_loop normalize cands tz content [] w
     = (Ok (normalized_content, replacements), w1) ->
     replacements <> [] ->
     process_text_file_with normalize cd file_path tz true verbose w
     = (Ok tt, after w1 [EvLog INFO (Dry_run_text file_path replacements)])).
Proof.
  intros wi wt.
  split; [ | split; [ | split]].
  - destruct (process_image_file_run normalize pil file_path tz true verbose w)
      as (evs & Ht & _ & Hf & Hd & _).
    specialize (Hd eq_refl). split; [apply Hf; exact Hd | ].
    exists evs. split; assumption.
  - destruct (process_text_file_run normalize cd file_path tz true verbose w)
      as (evs & Ht & _ & Hf & Hd & _).
    specialize (Hd eq_refl). split; [apply Hf; exact Hd | ].
    exists evs. split; assumption.
  - intros raw img exif_data updated_exif w1 Hf Ho Hg Hs Hne.
    unfold process_image_file_with, process_image_try.
    unfold bindM at 1. unfold read_file at 1. rewrite Hf.
    unfold bindM at 1. unfold lift at 1. rewrite Ho.
    unfold bindM at 1. unfold lift at 1. rewrite Hg.
    unfold bindM at 1. rewrite Hs.
    destruct updated_exif as [|kv rest]; [contradiction Hne; reflexivity | ].
    reflexivity.
  - intros raw encoding content cands normalized_content replacements w1
           Hf Hd Hc Hs Hr Hne.
    unfold process_text_file_with, process_text_try.
    unfold bindM at 1. unfold read_file at 1. rewrite Hf.
    unfold bindM at 1. unfold lift at 1. rewrite Hd.
    unfold bindM at 1. unfold read_file at 1. rewrite Hf.
    unfold bindM at 1. unfold lift at 1. rewrite Hc.
    unfold bindM at 1. unfold lift at 1. rewrite Hs.
    unfold bindM at 1. rewrite Hr.
    destruct replacements as [|kv rest]; [contradiction Hne; reflexivity | ].
    reflexivity.
Qed.

(** Without the attribute [ExifTag] the image processor writes in no
    run at all. *)
Lemma image_never_written_without_ExifTag (normalize : normalizer)
    (pil : pillow) (file_path tz : string) (dry_run verbose : bool)
    (w : world) :
  ExifTag pil = None ->
  files (snd (process_image_file_with normalize pil file_path tz dry_run
                verbose w)) = files w.
Proof.
  intros He.
  destruct (process_image_file_run normalize pil file_path tz dry_run
              verbose w) as (evs & _ & _ & Hf & _ & Hn & _).
  apply Hf, Hn, He.
Qed.

Lemma count_zero_no_writes evs :
  count_writes evs = 0%nat -> no_writes evs = true.
Proof.
  unfold count_writes.
  induction evs as [|[| |] evs IH]; simpl; intros H; auto; discriminate.
Qed.

(** C9. A run of either processor writes the file at most once, and after
    the write it only logs: no call of the normalizer follows the write.
    When the file is written, every candidate (every datetime tag's value,
    every word found in the text) has been handed to the normalizer
    before; a run without write leaves the files as they were.  This holds
    for every function bound to [normalize_timestamp] and every Pillow,
    with or without [ExifTag]. *)
Theorem file_written_once_after_all_candidates (normalize : normalizer)
    (pil : pillow) (cd : codecs) (file_path tz : string)
    (dry_run verbose : bool) (w : world) :
  let wi := snd (process_image_file_with normalize pil file_path tz dry_run
                   verbose w) in
  let wt := snd (process_text_file_with normalize cd file_path tz dry_run
                   verbose w) in
  (exists evs,
     trace wi = (trace w ++ evs)%list /\
     (count_writes evs <= 1)%nat /\
     single_late_write evs = true /\
     (count_writes evs = 0%nat -> files wi = files w) /\
     (forall raw img exif_data,
        files w file_path = Some raw -> Image_open pil raw = Ok img ->
        getexif pil img = Ok (Some exif_data) ->
        (0 < count_writes evs)%nat ->
        calls evs = datetime_values pil exif_data)) /\
  (exists evs,
     trace wt = (trace w ++ evs)%list /\
     (count_writes evs <= 1)%nat /\
     single_late_write evs = true /\
     (count_writes evs = 0%nat -> files wt = files w) /\
     (forall raw encoding content cands,
        files w file_path = Some raw -> detect cd raw = Ok encoding ->
        decode cd encoding raw = Ok content ->
        scan_lines (Str.splitlines content) = Ok cands ->
        (0 < count_writes evs)%nat ->
        calls evs = map PStr cands)).
Proof.
  intros wi wt. split.
  - destruct (process_image_file_run normalize pil file_path tz dry_run
                verbose w) as (evs & Ht & Hs & Hf & _ & _ & Hc).
    exists evs. split; [exact Ht | ].
    split; [apply single_count; exact Hs | ].
    split; [exact Hs | ].
    split; [intros H0; apply Hf, count_zero_no_writes, H0 | exact Hc].
  - destruct (process_text_file_run normalize cd file_path tz dry_run
                verbose w) as (evs & Ht & Hs & Hf & _ & Hc).
    exists evs. split; [exact Ht | ].
    split; [apply single_count; exact Hs | ].
    split; [exact Hs | ].
    split; [intros H0; apply Hf, count_zero_no_writes, H0 | exact Hc].
Qed.

End Processors.

(** ** The claims on the sample installations *)

(** A text with ["2023-06-15"] twice: both are found, both are rejected,
    and the file keeps its bytes (not a dry run). *)
Lemma text_candidates_are_never_replaced_witness :
  process_text_file Sample.linux Sample.ascii_codecs "notes.txt" "UTC"
    false false Sample.text_disk
  = (Ok tt,
     after Sample.text_disk
       (rejected ["2023-06-15"; "2023-06-15"]
        ++ [EvLog INFO (No_timestamps "notes.txt")])).
Proof.
  apply (text_candidates_are_never_replaced Sample.linux Sample.ascii_codecs
           "notes.txt" "UTC" false false Sample.text_disk
           (list_byte_of_string Sample.twice) (Some "ascii") Sample.twice
           ["2023-06-15"; "2023-06-15"]);
    vm_compute; reflexivity.
Defined.

(** The same text through the same processor with a normalizer that
    succeeds: both occurrences are replaced and the file is written
    once. *)
Example text_write_path :
  let w := snd (process_text_file_with Sample.always_noon Sample.ascii_codecs
                  "notes.txt" "UTC" false false Sample.text_disk) in
  option_map string_of_list_byte (files w "notes.txt")
  = Some "start 2023:06:15 12:00:00 end 2023:06:15 12:00:00"
  /\ Trace.count_writes (trace w) = 1%nat.
Proof. split; vm_compute; reflexivity. Qed.

(** A photo with a valid [DateTime] and an invalid [DateTimeOriginal], not
    a dry run, on a released Pillow: one tag is staged and nothing is
    saved. *)
Lemma staged_image_update_is_not_saved_witness :
  process_image_file Sample.linux Sample.pillow_released "photo.jpg" "UTC"
    false false Sample.image_disk
  = (Ok tt,
     after
       (after Sample.image_disk
          [ EvNormalize (PStr "2023:06:15 12:00:00");
            EvLog INFO (Normalized_tag (Some "DateTime")
                          (PStr "2023:06:15 12:00:00")
                          "2023:06:15 12:00:00" "UTC");
            EvNormalize (PStr "not-a-date");
            EvLog ERROR (Could_not_parse (PStr "not-a-date"));
            EvLog WARNING (Failed_to_normalize (Some "DateTimeOriginal")
                             (PStr "not-a-date")) ])
       [EvLog ERROR (Unexpected_error "photo.jpg" AttributeError)])
  /\ files
       (after Sample.image_disk
          [ EvNormalize (PStr "2023:06:15 12:00:00");
            EvLog INFO (Normalized_tag (Some "DateTime")
                          (PStr "2023:06:15 12:00:00")
                          "2023:06:15 12:00:00" "UTC");
            EvNormalize (PStr "not-a-date");
            EvLog ERROR (Could_not_parse (PStr "not-a-date"));
            EvLog WARNING (Failed_to_normalize (Some "DateTimeOriginal")
                             (PStr "not-a-date")) ])
     = files Sample.image_disk.
Proof.
  apply (staged_image_update_is_not_saved Sample.linux Sample.pillow_released
           "photo.jpg" "UTC" false Sample.image_disk _
           [Byte.xff; Byte.xd8] Sample.tags_of_file Sample.tags_of_file
           [(306, "2023:06:15 12:00:00")]);
    try (vm_compute; reflexivity).
  discriminate.
Defined.

(** With a Pillow that had the attribute, the same run writes the file
    once, after both tags were handed to the normalizer. *)
Example image_write_path :
  Trace.calls
    (trace (snd (process_image_file Sample.linux Sample.pillow_with_ExifTag
                   "photo.jpg" "UTC" false false Sample.image_disk)))
  = [PStr "2023:06:15 12:00:00"; PStr "not-a-date"]
  /\ Trace.count_writes
       (trace (snd (process_image_file Sample.linux
                      Sample.pillow_with_ExifTag "photo.jpg" "UTC" false
                      false Sample.image_disk))) = 1%nat.
Proof. split; vm_compute; reflexivity. Qed.

(** Dry runs on the samples: the staged tag, and the replacement that a
    succeeding normalizer records, are logged and no file changes. *)
Lemma dry_run_writes_nothing_witness :
  (exists w1,
     process_image_file_with (normalize_timestamp Sample.linux)
       Sample.pillow_with_ExifTag "photo.jpg" "UTC" true false
       Sample.image_disk
     = (Ok tt,
        after w1 [EvLog INFO (Dry_run_EXIF "photo.jpg"
                                [(306, "2023:06:15 12:00:00")])]))
  /\
  (exists w1,
     process_text_file_with Sample.always_noon Sample.ascii_codecs
       "notes.txt" "UTC" true false Sample.text_disk
     = (Ok tt,
        after w1 [EvLog INFO (Dry_run_text "notes.txt"
                                [("2023-06-15", "2023:06:15 12:00:00")])])).
Proof.
  split.
  - eexists.
    apply (proj1 (proj2 (proj2
             (dry_run_writes_nothing (normalize_timestamp Sample.linux)
                Sample.pillow_with_ExifTag Sample.ascii_codecs "photo.jpg"
                "UTC" false Sample.image_disk)))
             [Byte.xff; Byte.xd8] Sample.tags_of_file Sample.tags_of_file);
      try (vm_compute; reflexivity).
    discriminate.
  - eexists.
    apply (proj2 (proj2 (proj2
             (dry_run_writes_nothing Sample.always_noon
                Sample.pillow_released Sample.ascii_codecs "notes.txt"
                "UTC" false Sample.text_disk)))
             (list_byte_of_string Sample.twice) (Some "ascii") Sample.twice
             ["2023-06-15"; "2023-06-15"]
             "start 2023:06:15 12:00:00 end 2023:06:15 12:00:00");
      try (vm_compute; reflexivity).
    discriminate.
Defined.

(* ================================================================== *)
(** * Further properties of the program *)

(** ** The processors return to their caller *)

Section ProcessorsReturn.

Lemma caughtM_bind {A B} (m : M A) (k : A -> M B) :
  caughtM m -> (forall a, caughtM (k a)) -> caughtM (bindM m k).
Proof.
  intros Hm Hk w. unfold bindM. specialize (Hm w).
  destruct (m w) as [[a|e] w1]; simpl in *; [apply Hk | exact Hm].
Qed.

Lemma caughtM_ret {A} (a : A) : caughtM (ret a).
Proof. intros w. exact I. Qed.

Lemma caughtM_lift {A} (r : result A) : caught_by_Exception r -> caughtM (lift r).
Proof. intros H w. exact H. Qed.

Lemma caughtM_logging lv m : caughtM (logging lv m).
Proof. intros w. exact I. Qed.

Lemma caughtM_read_file file_path : caughtM (read_file file_path).
Proof.
  intros w. unfold read_file. destruct (files w file_path); [exact I | reflexivity].
Qed.

Lemma caughtM_write_file file_path b : caughtM (write_file file_path b).
Proof. intros w. exact I. Qed.

Variable normalize : normalizer.

Hypothesis normalize_caught :
  forall v src tgt, caught_by_Exception (fst (normalize v src tgt)).

Lemma caughtM_call_normalize v src tgt :
  caughtM (call_normalize normalize v src tgt).
Proof. intros w. rewrite call_normalize_run. apply normalize_caught. Qed.

Lemma stage_tags_caught (pil : pillow) items : forall tz verbose acc,
  caughtM (stage_tags normalize pil items tz verbose acc).
Proof.
  induction items as [|[tag_id value] rest IH]; intros tz verbose acc.
  - apply caughtM_ret.
  - cbn [stage_tags]. apply caughtM_bind.
    + destruct verbose; [apply caughtM_logging | apply caughtM_ret].
    + intros _. destruct (is_datetime_tag (TAGS pil tag_id)); [ | apply IH].
      apply caughtM_bind; [apply caughtM_call_normalize | intros r].
      destruct (truthy r);
        (apply caughtM_bind; [apply caughtM_logging | intros _; apply IH]).
Qed.

Lemma process_image_try_caught (pil : pillow) file_path tz dry_run verbose :
  pillow_raises_Exceptions pil ->
  caughtM (process_image_try normalize pil file_path tz dry_run verbose).
Proof.
  intros (Hopen & Hexif & Hbytes & Hsave). unfold process_image_try.
  apply caughtM_bind; [apply caughtM_read_file | intros raw].
  apply caughtM_bind; [apply caughtM_lift, Hopen | intros img].
  apply caughtM_bind; [apply caughtM_lift, Hexif | intros [exif_data|]];
    [ | apply caughtM_logging].
  apply caughtM_bind; [apply stage_tags_caught | intros updated_exif].
  destruct updated_exif as [|kv updated_exif]; [apply caughtM_logging | ].
  destruct (negb dry_run); [ | apply caughtM_logging].
  apply caughtM_bind.
  - apply caughtM_lift. destruct (ExifTag pil) as [to_bytes|] eqn:E.
    + apply Hbytes. reflexivity.
    + reflexivity.
  - intros new_exif. apply caughtM_bind; [ | intros _; apply caughtM_logging].
    unfold img_save. specialize (Hsave img new_exif).
    destruct (save pil img new_exif) as [[content|] r]; simpl in Hsave.
    + apply caughtM_bind; [apply caughtM_write_file | intros _].
      apply caughtM_lift, Hsave.
    + apply caughtM_bind; [apply caughtM_ret | intros _].
      apply caughtM_lift, Hsave.
Qed.

Lemma process_image_file_with_returns (pil : pillow) file_path tz dry_run
    verbose w :
  pillow_raises_Exceptions pil ->
  fst (process_image_file_with normalize pil file_path tz dry_run verbose w)
  = Ok tt.
Proof.
  intros Hpil. unfold process_image_file_with.
  pose proof (process_image_try_caught pil file_path tz dry_run verbose Hpil w)
    as Hc.
  destruct (process_image_try normalize pil file_path tz dry_run verbose w)
    as [[[]|e] w1]; simpl in Hc; [reflexivity | ].
  destruct (issubclass e FileNotFoundError); [reflexivity | ].
  destruct (issubclass e OSError); [reflexivity | ].
  rewrite Hc. reflexivity.
Qed.

Lemma scan_words_total words : exists cands, scan_words words = Ok cands.
Proof.
  induction words as [|word rest (cands & IH)]; cbn [scan_words].
  - eauto.
  - destruct (Strptime.strptime (PStr word) "%Y-%m-%d") as [d|e] eqn:E.
    + rewrite IH. cbn [bind]. eauto.
    + rewrite (strptime_str_raise _ _ _ E). cbn. eauto.
Qed.

Lemma scan_lines_total lines : exists cands, scan_lines lines = Ok cands.
Proof.
  induction lines as [|line rest (cands & IH)]; cbn [scan_lines].
  - eauto.
  - destruct (scan_words_total (Str.split line)) as (a & ->).
    rewrite IH. cbn [bind]. eauto.
Qed.

Lemma replace_loop_caught cands : forall tz content repl,
  caughtM (replace_loop normalize cands tz content repl).
Proof.
  induction cands as [|ts rest IH]; intros tz content repl.
  - apply caughtM_ret.
  - cbn [replace_loop].
    apply caughtM_bind; [apply caughtM_call_normalize | intros r].
    destruct (truthy r); [ | apply IH].
    apply caughtM_bind; [apply caughtM_logging | intros _; apply IH].
Qed.

Lemma process_text_try_caught (cd : codecs) file_path tz dry_run verbose :
  codecs_raise_Exceptions cd ->
  caughtM (process_text_try normalize cd file_path tz dry_run verbose).
Proof.
  intros (Hdetect & Hdecode & Hencode). unfold process_text_try.
  apply caughtM_bind; [apply caughtM_read_file | intros raw].
  apply caughtM_bind; [apply caughtM_lift, Hdetect | intros encoding].
  apply caughtM_bind; [apply caughtM_read_file | intros raw'].
  apply caughtM_bind; [apply caughtM_lift, Hdecode | intros content].
  apply caughtM_bind.
  { apply caughtM_lift.
    destruct (scan_lines_total (Str.splitlines content)) as (c & ->).
    exact I. }
  intros cands.
  apply caughtM_bind; [apply replace_loop_caught | intros [nc repl]].
  destruct repl as [|kv repl]; [apply caughtM_logging | ].
  destruct (negb dry_run); [ | apply caughtM_logging].
  apply caughtM_bind; [ | intros _; apply caughtM_logging].
  unfold write_text. specialize (Hencode encoding nc).
  destruct (encode cd encoding nc) as [b|e]; [apply caughtM_write_file | ].
  apply caughtM_bind; [apply caughtM_write_file | intros _ w; exact Hencode].
Qed.

Lemma process_text_file_with_returns (cd : codecs) file_path tz dry_run
    verbose w :
  codecs_raise_Exceptions cd ->
  fst (process_text_file_with normalize cd file_path tz dry_run verbose w)
  = Ok tt.
Proof.
  intros Hcd. unfold process_text_file_with.
  pose proof (process_text_try_caught cd file_path tz dry_run verbose Hcd w)
    as Hc.
  destruct (process_text_try normalize cd file_path tz dry_run verbose w)
    as [[[]|e] w1]; simpl in Hc; [reflexivity | ].
  destruct (issubclass e FileNotFoundError); [reflexivity | ].
  destruct (issubclass e UnicodeDecodeError); [reflexivity | ].
  rewrite Hc. reflexivity.
Qed.

End ProcessorsReturn.

Lemma normalize_timestamp_caught p v src tgt :
  caught_by_Exception (fst (normalize_timestamp p v src tgt)).
Proof.
  destruct (normalize_timestamp_returns p v src tgt) as (r & lg & ->).
  exact I.
Qed.

(** X1. [process_image_file] returns to its caller whatever goes wrong:
    when Pillow's functions raise nothing outside [Exception], every
    failure (missing file, unreadable image, missing [_getexif], failed
    save) ends in one of the three [except] clauses and the function
    returns [None]. *)
Theorem process_image_file_returns (p : platform) (pil : pillow)
    (file_path tz : string) (dry_run verbose : bool) (w : world) :
  pillow_raises_Exceptions pil ->
  fst (process_image_file p pil file_path tz dry_run verbose w) = Ok tt.
Proof.
  apply process_image_file_with_returns. apply normalize_timestamp_caught.
Qed.

(** A file that Pillow cannot identify: the [IOError] clause ends the
    call. *)
Lemma process_image_file_returns_witness :
  process_image_file Sample.linux Faulty.pillow_unreadable "photo.jpg" "UTC"
    false false Sample.image_disk
  = (Ok tt,
     after Sample.image_disk
       [EvLog ERROR (Error_opening "photo.jpg" OSError)]).
Proof.
  pose proof (process_image_file_returns Sample.linux
                Faulty.pillow_unreadable "photo.jpg" "UTC" false false
                Sample.image_disk) as H.
  destruct (process_image_file Sample.linux Faulty.pillow_unreadable
              "photo.jpg" "UTC" false false Sample.image_disk)
    as [r w1] eqn:E.
  simpl in H. rewrite H.
  - f_equal. vm_compute in E. inversion E. reflexivity.
  - repeat split; intros; simpl; try exact I; try reflexivity.
    discriminate.
Defined.

(** X2. [process_text_file] returns to its caller whatever goes wrong:
    when the encoding detector and the codecs raise nothing outside
    [Exception], every failure ends in one of the three [except] clauses.
    The scan for candidates cannot fail: [strptime] on a word raises
    nothing but [ValueError]. *)
Theorem process_text_file_returns (p : platform) (cd : codecs)
    (file_path tz : string) (dry_run verbose : bool) (w : world) :
  codecs_raise_Exceptions cd ->
  fst (process_text_file p cd file_path tz dry_run verbose w) = Ok tt.
Proof.
  apply process_text_file_with_returns. apply normalize_timestamp_caught.
Qed.

(** A file that cannot be decoded: the [UnicodeDecodeError] clause ends
    the call. *)
Lemma process_text_file_returns_witness :
  fst (process_text_file Sample.linux Faulty.codecs_undecodable "notes.txt"
         "UTC" false false Sample.text_disk) = Ok tt.
Proof.
  apply (process_text_file_returns Sample.linux Faulty.codecs_undecodable
           "notes.txt" "UTC" false false Sample.text_disk).
  repeat split; intros; simpl; try exact I; reflexivity.
Defined.

(** ** A processor touches no file but the one it is given *)

Section Frame.

Variable normalize : normalizer.

Lemma reached_after file_path w w1 tail :
  reached file_path w w1 -> reached file_path w (after w1 tail).
Proof.
  intros (evs & [-> | (c & ->)]).
  - exists (evs ++ tail)%list. left. apply after_after.
  - exists (evs ++ tail)%list. right. exists c.
    unfold rewritten, after. simpl. rewrite app_assoc. reflexivity.
Qed.

Lemma reached_quiet file_path w evs : reached file_path w (after w evs).
Proof. exists evs. left. reflexivity. Qed.

Lemma reached_touches_only file_path w w1 :
  reached file_path w w1 -> touches_only file_path w w1.
Proof.
  intros (evs & [-> | (c & ->)]) q Hq; simpl; [reflexivity | ].
  destruct (String.eqb_spec q file_path); [contradiction | reflexivity].
Qed.

Lemma process_image_try_reached (pil : pillow) file_path tz dry_run verbose w :
  reached file_path w
    (snd (process_image_try normalize pil file_path tz dry_run verbose w)).
Proof.
  unfold process_image_try. unfold bindM at 1. unfold read_file.
  destruct (files w file_path) as [raw|].
  2:{ simpl. rewrite <- (after_nil w) at 2. apply reached_quiet. }
  unfold bindM at 1. unfold lift at 1.
  destruct (Image_open pil raw) as [img|e].
  2:{ simpl. rewrite <- (after_nil w) at 2. apply reached_quiet. }
  unfold bindM at 1. unfold lift at 1.
  destruct (getexif pil img) as [[exif_data|]|e].
  3:{ simpl. rewrite <- (after_nil w) at 2. apply reached_quiet. }
  2:{ rewrite logging_run. apply reached_quiet. }
  unfold bindM at 1.
  destruct (stage_tags_run normalize pil exif_data tz verbose [] w)
    as (r & evs & Hrun & _).
  rewrite Hrun.
  destruct r as [updated_exif|e]; [ | apply reached_quiet].
  destruct updated_exif as [|kv updated_exif].
  { rewrite logging_run, after_after. apply reached_quiet. }
  destruct dry_run; cbn [negb].
  { rewrite logging_run, after_after. apply reached_quiet. }
  unfold bindM at 1. unfold lift at 1.
  destruct (match ExifTag pil with
            | Some to_bytes =>
                to_bytes (apply_updates exif_data (kv :: updated_exif))
            | None => Raise AttributeError
            end) as [new_exif|e]; [ | apply reached_quiet].
  unfold bindM at 1. unfold img_save.
  destruct (save pil img new_exif) as [[content|] r].
  - unfold bindM at 1. unfold write_file at 1. unfold lift at 1.
    destruct r as [[]|e].
    + rewrite logging_run.
      exists (evs ++ [EvWrite file_path content]
              ++ [EvLog INFO (Updated_EXIF file_path)])%list.
      right. exists content. unfold rewritten, after. simpl.
      rewrite <- !app_assoc. reflexivity.
    + exists (evs ++ [EvWrite file_path content])%list.
      right. exists content. unfold rewritten, after. simpl.
      rewrite <- !app_assoc. reflexivity.
  - unfold bindM at 1. unfold ret at 1. unfold lift at 1.
    destruct r as [[]|e].
    + rewrite logging_run, after_after. apply reached_quiet.
    + apply reached_quiet.
Qed.

Lemma process_text_try_reached (cd : codecs) file_path tz dry_run verbose w :
  reached file_path w
    (snd (process_text_try normalize cd file_path tz dry_run verbose w)).
Proof.
  unfold process_text_try. unfold bindM at 1. unfold read_file.
  destruct (files w file_path) as [raw|] eqn:Ef.
  2:{ simpl. rewrite <- (after_nil w) at 2. apply reached_quiet. }
  unfold bindM at 1. unfold lift at 1.
  destruct (detect cd raw) as [encoding|e].
  2:{ simpl. rewrite <- (after_nil w) at 2. apply reached_quiet. }
  unfold bindM at 1. rewrite Ef.
  unfold bindM at 1. unfold lift at 1.
  destruct (decode cd encoding raw) as [content|e].
  2:{ simpl. rewrite <- (after_nil w) at 2. apply reached_quiet. }
  unfold bindM at 1. unfold lift at 1.
  destruct (scan_lines (Str.splitlines content)) as [cands|e].
  2:{ simpl. rewrite <- (after_nil w) at 2. apply reached_quiet. }
  unfold bindM at 1.
  destruct (replace_loop_run normalize cands tz content [] w)
    as (r & evs & Hrun & _).
  rewrite Hrun.
  destruct r as [[normalized_content replacements]|e];
    [ | apply reached_quiet].
  destruct replacements as [|kv replacements].
  { rewrite logging_run, after_after. apply reached_quiet. }
  destruct dry_run; cbn [negb].
  { rewrite logging_run, after_after. apply reached_quiet. }
  unfold bindM at 1. unfold write_text.
  destruct (encode cd encoding normalized_content) as [b|e].
  - unfold write_file at 1. rewrite logging_run.
    exists (evs ++ [EvWrite file_path b]
            ++ [EvLog INFO (Normalized_file file_path)])%list.
    right. exists b. unfold rewritten, after. simpl.
    rewrite <- !app_assoc. reflexivity.
  - unfold bindM at 1. unfold write_file at 1. unfold raise.
    exists (evs ++ [EvWrite file_path []])%list.
    right. exists []. unfold rewritten, after. simpl.
    rewrite <- !app_assoc. reflexivity.
Qed.

Lemma process_image_file_reached (pil : pillow) file_path tz dry_run verbose w :
  reached file_path w
    (snd (process_image_file_with normalize pil file_path tz dry_run verbose
            w)).
Proof.
  destruct (process_image_file_handler normalize pil file_path tz dry_run
              verbose w) as (tail & _ & ->).
  apply reached_after, process_image_try_reached.
Qed.

Lemma process_text_file_reached (cd : codecs) file_path tz dry_run verbose w :
  reached file_path w
    (snd (process_text_file_with normalize cd file_path tz dry_run verbose
            w)).
Proof.
  destruct (process_text_file_handler normalize cd file_path tz dry_run
              verbose w) as (tail & _ & ->).
  apply reached_after, process_text_try_reached.
Qed.

(** X3. Whatever a run of either processor does, every file other than
    the one at [file_path] holds afterwards what it held before, and the
    trace of the run only grows.  This holds for every function bound to
    [normalize_timestamp], the program's among them. *)
Theorem processors_touch_only_their_file (pil : pillow) (cd : codecs)
    (file_path tz : string) (dry_run verbose : bool) (w : world) :
  let wi := snd (process_image_file_with normalize pil file_path tz dry_run
                   verbose w) in
  let wt := snd (process_text_file_with normalize cd file_path tz dry_run
                   verbose w) in
  touches_only file_path w wi /\ touches_only file_path w wt /\
  (exists evs, trace wi = (trace w ++ evs)%list) /\
  (exists evs, trace wt = (trace w ++ evs)%list).
Proof.
  intros wi wt.
  pose proof (process_image_file_reached pil file_path tz dry_run verbose w)
    as Hi.
  pose proof (process_text_file_reached cd file_path tz dry_run verbose w)
    as Ht.
  split; [apply reached_touches_only, Hi | ].
  split; [apply reached_touches_only, Ht | ].
  split.
  - destruct Hi as (evs & [H | (c & H)]); exists evs; subst wi; rewrite H;
      reflexivity.
  - destruct Ht as (evs & [H | (c & H)]); exists evs; subst wt; rewrite H;
      reflexivity.
Qed.

End Frame.

(** ** What the image processor hands to the normalizer *)

Section ImageCalls.

Import Trace.

Variables (normalize : normalizer) (pil : pillow).

Hypothesis normalize_returns :
  forall v src tgt, exists r, fst (normalize v src tgt) = Ok r.

Lemma stage_tags_returns items : forall tz verbose acc w,
  exists staged, fst (stage_tags normalize pil items tz verbose acc w) = Ok staged.
Proof.
  induction items as [|[tag_id value] rest IH]; intros tz verbose acc w.
  - exists acc. reflexivity.
  - cbn [stage_tags]. unfold bindM at 1.
    destruct ((if verbose
               then logging INFO
                      (Processing_tag (TAGS pil tag_id) tag_id value)
               else ret tt) w) as [[[]|e] w0] eqn:Ev.
    2:{ destruct verbose; discriminate Ev. }
    destruct (is_datetime_tag (TAGS pil tag_id)); [ | apply IH].
    unfold bindM at 1. rewrite call_normalize_run.
    destruct (normalize_returns value "UTC" tz) as (r & ->).
    destruct (truthy r); unfold bindM at 1; rewrite logging_run; apply IH.
Qed.

Lemma process_image_try_calls file_path tz dry_run verbose w raw img
    exif_data :
  files w file_path = Some raw -> Image_open pil raw = Ok img ->
  getexif pil img = Ok (Some exif_data) ->
  exists evs,
    trace (snd (process_image_try normalize pil file_path tz dry_run verbose
                  w)) = (trace w ++ evs)%list /\
    calls evs = datetime_values pil exif_data.
Proof.
  intros Hf Ho Hg.
  unfold process_image_try.
  unfold bindM at 1. unfold read_file at 1. rewrite Hf.
  unfold bindM at 1. unfold lift at 1. rewrite Ho.
  unfold bindM at 1. unfold lift at 1. rewrite Hg.
  unfold bindM at 1.
  destruct (stage_tags_run normalize pil exif_data tz verbose [] w)
    as (r & evs & Hrun & _ & Hc).
  destruct (stage_tags_returns exif_data tz verbose [] w) as (staged & Hst).
  rewrite Hrun in *. simpl in Hst. subst r.
  specialize (Hc staged eq_refl).
  assert (Hlogs : forall tail, calls tail = [] ->
            calls (evs ++ tail) = datetime_values pil exif_data).
  { intros tail Ht. rewrite calls_app, Hc, Ht. apply app_nil_r. }
  destruct staged as [|kv staged].
  { rewrite logging_run, after_after. eexists. split; [reflexivity | ].
    apply Hlogs. reflexivity. }
  destruct dry_run; cbn [negb].
  { rewrite logging_run, after_after. eexists. split; [reflexivity | ].
    apply Hlogs. reflexivity. }
  unfold bindM at 1. unfold lift at 1.
  destruct (match ExifTag pil with
            | Some to_bytes => to_bytes (apply_updates exif_data (kv :: staged))
            | None => Raise AttributeError
            end) as [new_exif|e].
  2:{ exists evs. split; [reflexivity | exact Hc]. }
  unfold bindM at 1. unfold img_save.
  destruct (save pil img new_exif) as [[content|] r].
  - unfold bindM at 1. unfold write_file at 1. unfold lift at 1.
    destruct r as [[]|e].
    + rewrite logging_run.
      exists (evs ++ [EvWrite file_path content;
                      EvLog INFO (Updated_EXIF file_path)])%list.
      split; [simpl; rewrite <- !app_assoc; reflexivity | ].
      apply Hlogs. reflexivity.
    + exists (evs ++ [EvWrite file_path content])%list.
      split; [simpl; rewrite <- !app_assoc; reflexivity | ].
      apply Hlogs. reflexivity.
  - unfold bindM at 1. unfold ret at 1. unfold lift at 1.
    destruct r as [[]|e].
    + rewrite logging_run, after_after. eexists. split; [reflexivity | ].
      apply Hlogs. reflexivity.
    + exists evs. split; [reflexivity | exact Hc].
Qed.

Lemma process_image_file_with_calls file_path tz dry_run verbose w raw img
    exif_data :
  files w file_path = Some raw -> Image_open pil raw = Ok img ->
  getexif pil img = Ok (Some exif_data) ->
  exists evs,
    trace (snd (process_image_file_with normalize pil file_path tz dry_run
                  verbose w)) = (trace w ++ evs)%list /\
    calls evs = datetime_values pil exif_data.
Proof.
  intros Hf Ho Hg.
  destruct (process_image_file_handler normalize pil file_path tz dry_run
              verbose w) as (tail & Htail & ->).
  destruct (process_image_try_calls file_path tz dry_run verbose w raw img
              exif_data Hf Ho Hg) as (evs & Ht & Hc).
  exists (evs ++ tail)%list. split.
  - simpl. rewrite Ht, app_assoc. reflexivity.
  - rewrite calls_app, Hc, (logs_no_calls tail Htail). apply app_nil_r.
Qed.

End ImageCalls.

(** X4. On an image whose tags can be read, a run of the image
    processor hands to the normalizer exactly the values of the tags named
    [DateTime], [DateTimeOriginal] and [DateTimeDigitized], once each and
    in the order of the file; no other tag's value is normalized and a
    failure on one tag does not stop the others.  This holds in dry runs
    and real runs alike. *)
Theorem image_processor_normalizes_the_datetime_tags (p : platform)
    (pil : pillow) (file_path tz : string) (dry_run verbose : bool)
    (w : world) (raw : bytes) (img : image pil)
    (exif_data : list (Z * pyval)) :
  files w file_path = Some raw ->
  Image_open pil raw = Ok img ->
  getexif pil img = Ok (Some exif_data) ->
  exists evs,
    trace (snd (process_image_file p pil file_path tz dry_run verbose w))
    = (trace w ++ evs)%list /\
    Trace.calls evs = datetime_values pil exif_data.
Proof.
  apply process_image_file_with_calls.
  intros v src tgt.
  destruct (normalize_timestamp_returns p v src tgt) as (r & lg & ->).
  exists r. reflexivity.
Qed.

(** The sample photo: the two date tags, not the camera make. *)
Lemma image_processor_normalizes_the_datetime_tags_witness :
  exists evs,
    trace (snd (process_image_file Sample.linux Sample.pillow_released
                  "photo.jpg" "America/New_York" true false
                  Sample.image_disk))
    = (trace Sample.image_disk ++ evs)%list /\
    Trace.calls evs = [PStr "2023:06:15 12:00:00"; PStr "not-a-date"].
Proof.
  apply (image_processor_normalizes_the_datetime_tags Sample.linux
           Sample.pillow_released "photo.jpg" "America/New_York" true false
           Sample.image_disk [Byte.xff; Byte.xd8] Sample.tags_of_file
           Sample.tags_of_file); reflexivity.
Defined.

(** ** The tag set after the update in memory *)

Section ImageUpdate.

Variables (normalize : normalizer) (pil : pillow).

Lemma dict_set_keys_present {V} (d : list (Z * V)) k v :
  In k (map fst d) -> map fst (dict_set Z.eqb d k v) = map fst d.
Proof.
  induction d as [|[k0 v0] d IH]; simpl; [tauto | ].
  destruct (Z.eqb_spec k0 k) as [->|Hne]; [reflexivity | ].
  intros [H|H]; [contradiction | ]. simpl. f_equal. apply IH, H.
Qed.

Lemma dict_set_keys_absent {V} (d : list (Z * V)) k v :
  ~ In k (map fst d) ->
  map fst (dict_set Z.eqb d k v) = (map fst d ++ [k])%list.
Proof.
  induction d as [|[k0 v0] d IH]; simpl; [reflexivity | ].
  intros Hnot.
  destruct (Z.eqb_spec k0 k) as [->|Hne]; [exfalso; apply Hnot; auto | ].
  simpl. f_equal. apply IH. intros H. apply Hnot. auto.
Qed.

Lemma dict_set_keys_NoDup {V} (d : list (Z * V)) k v :
  NoDup (map fst d) -> NoDup (map fst (dict_set Z.eqb d k v)).
Proof.
  intros Hd. destruct (in_dec Z.eq_dec k (map fst d)) as [Hin|Hnot].
  - rewrite dict_set_keys_present; assumption.
  - rewrite dict_set_keys_absent by assumption.
    apply NoDup_app; [assumption | repeat constructor; intros [] | ].
    intros x Hx [<-|[]]. contradiction.
Qed.

Lemma dict_set_keys_incl {V} (d : list (Z * V)) k v x :
  In x (map fst (dict_set Z.eqb d k v)) -> x = k \/ In x (map fst d).
Proof.
  destruct (in_dec Z.eq_dec k (map fst d)) as [Hin|Hnot].
  - rewrite dict_set_keys_present by assumption. auto.
  - rewrite dict_set_keys_absent by assumption.
    intros H. apply in_app_or in H. destruct H as [H|[H|[]]]; auto.
Qed.

(** The staged dict has each key once, and its keys are tags of the
    file. *)
Lemma stage_tags_staged items : forall tz verbose acc w staged w1,
  stage_tags normalize pil items tz verbose acc w = (Ok staged, w1) ->
  NoDup (map fst acc) ->
  NoDup (map fst staged) /\
  (forall k, In k (map fst staged) ->
             In k (map fst acc) \/ In k (map fst items)).
Proof.
  induction items as [|[tag_id value] rest IH];
    intros tz verbose acc w staged w1.
  - simpl. intros H; inversion H; subst. auto.
  - cbn [stage_tags]. unfold bindM at 1.
    destruct ((if verbose
               then logging INFO
                      (Processing_tag (TAGS pil tag_id) tag_id value)
               else ret tt) w) as [[[]|e] w0] eqn:Ev.
    2:{ destruct verbose; discriminate Ev. }
    assert (Hrest : forall acc' w',
              stage_tags normalize pil rest tz verbose acc' w'
              = (Ok staged, w1) ->
              NoDup (map fst acc') ->
              (forall k, In k (map fst acc') ->
                         k = tag_id \/ In k (map fst acc)) ->
              NoDup (map fst staged) /\
              (forall k, In k (map fst staged) ->
                 In k (map fst acc) \/
                 In k (map fst ((tag_id, value) :: rest)))).
    { intros acc' w' H Hnd Hsub.
      destruct (IH tz verbose acc' w' staged w1 H Hnd) as (Hn & Hk).
      split; [exact Hn | ]. intros k Hin. simpl.
      destruct (Hk k Hin) as [Ha|Hr]; [ | auto].
      destruct (Hsub k Ha) as [->|Ha']; auto. }
    destruct (is_datetime_tag (TAGS pil tag_id)).
    + unfold bindM at 1. rewrite call_normalize_run.
      destruct (fst (normalize value "UTC" tz)) as [r|e]; [ | discriminate].
      destruct (truthy r) as [n|]; unfold bindM at 1; rewrite logging_run;
        intros H Hnd.
      * eapply Hrest; [exact H | apply dict_set_keys_NoDup, Hnd | ].
        intros k Hk. apply dict_set_keys_incl in Hk. exact Hk.
      * eapply Hrest; [exact H | exact Hnd | auto].
    + intros H Hnd. eapply Hrest; [exact H | exact Hnd | auto].
Qed.

Lemma apply_updates_staged updated_exif : forall exif_data k v,
  NoDup (map fst updated_exif) -> In (k, v) updated_exif ->
  dict_get Z.eqb (apply_updates exif_data updated_exif) k = Some (PStr v).
Proof.
  induction updated_exif as [|[k0 v0] rest IH]; intros exif_data k v Hnd Hin;
    [destruct Hin | ].
  simpl in Hnd. inversion Hnd as [|? ? Hnot Hnd']; subst.
  cbn [apply_updates]. destruct Hin as [E|Hin].
  - inversion E; subst.
    rewrite apply_updates_other.
    + apply dict_get_set_same.
    + intros v' Hv'. apply Hnot. apply in_map_iff. exists (k, v'). auto.
  - apply IH; assumption.
Qed.

Lemma apply_updates_keys updated_exif : forall exif_data,
  (forall k, In k (map fst updated_exif) -> In k (map fst exif_data)) ->
  map fst (apply_updates exif_data updated_exif) = map fst exif_data.
Proof.
  induction updated_exif as [|[k0 v0] rest IH]; intros exif_data Hsub;
    [reflexivity | ].
  cbn [apply_updates].
  assert (Hk : map fst (dict_set Z.eqb exif_data k0 (PStr v0))
               = map fst exif_data).
  { apply dict_set_keys_present. apply Hsub. left; reflexivity. }
  rewrite IH; [exact Hk | ].
  intros k Hin. rewrite Hk. apply Hsub. right; exact Hin.
Qed.

(** X5. The update of the tag set in memory (lines 108-109), from what
    the staging loop returned: the tags are the same and in the same
    order, every staged tag now holds its normalized string, only
    datetime tags were staged, and every tag that was not staged holds
    the value it had. *)
Theorem update_in_memory_is_exact exif_data tz verbose w staged w1 :
  stage_tags normalize pil exif_data tz verbose [] w = (Ok staged, w1) ->
  map fst (apply_updates exif_data staged) = map fst exif_data /\
  (forall tag_id new_value,
     In (tag_id, new_value) staged ->
     is_datetime_tag (TAGS pil tag_id) = true /\
     dict_get Z.eqb (apply_updates exif_data staged) tag_id
     = Some (PStr new_value)) /\
  (forall tag_id,
     (forall new_value, ~ In (tag_id, new_value) staged) ->
     dict_get Z.eqb (apply_updates exif_data staged) tag_id
     = dict_get Z.eqb exif_data tag_id).
Proof.
  intros Hs.
  destruct (stage_tags_staged exif_data tz verbose [] w staged w1 Hs
              ltac:(constructor)) as (Hnd & Hsub).
  split; [ | split].
  - apply apply_updates_keys. intros k Hk.
    destruct (Hsub k Hk) as [[]|H]; exact H.
  - intros tag_id new_value Hin. split.
    + eapply (stage_tags_keys normalize pil); [exact Hs | | exact Hin].
      intros k v [].
    + apply apply_updates_staged; assumption.
  - intros tag_id Hnot. apply apply_updates_other. exact Hnot.
Qed.

End ImageUpdate.

(** The sample photo: the valid [DateTime] is staged, the camera make and
    the invalid [DateTimeOriginal] keep their values. *)
Lemma update_in_memory_is_exact_witness :
  map fst (Sample.tags_of_file) = [271; 306; 36867] /\
  dict_get Z.eqb
    (apply_updates Sample.tags_of_file [(306, "2023:06:15 08:00:00")]) 306
  = Some (PStr "2023:06:15 08:00:00") /\
  dict_get Z.eqb
    (apply_updates Sample.tags_of_file [(306, "2023:06:15 08:00:00")]) 36867
  = Some (PStr "not-a-date").
Proof.
  destruct (update_in_memory_is_exact (normalize_timestamp Sample.linux)
              Sample.pillow_released Sample.tags_of_file "America/New_York"
              false Sample.image_disk [(306, "2023:06:15 08:00:00")]
              (after Sample.image_disk
                 [ EvNormalize (PStr "2023:06:15 12:00:00");
                   EvLog INFO (Normalized_tag (Some "DateTime")
                                 (PStr "2023:06:15 12:00:00")
                                 "2023:06:15 08:00:00" "America/New_York");
                   EvNormalize (PStr "not-a-date");
                   EvLog ERROR (Could_not_parse (PStr "not-a-date"));
                   EvLog WARNING (Failed_to_normalize
                                    (Some "DateTimeOriginal")
                                    (PStr "not-a-date")) ])
              ltac:(vm_compute; reflexivity)) as (Hk & Hs & Ho).
  split; [reflexivity | split].
  - apply Hs. left; reflexivity.
  - rewrite Ho; [reflexivity | ].
    intros v [E|[]]. discriminate E.
Defined.

(** ** The normalizer within one zone, and on its own output *)

Section SameZone.

Import Datetime Pytz Strftime.

Variable p : platform.

Lemma tz_is_refl_fixed t : fixed_offset t = true -> tz_is t t = true.
Proof.
  destruct t; simpl; intros H; try reflexivity; try discriminate.
  apply String.eqb_refl.
Qed.

Lemma convert_same_fixed_zone dt src tgt t :
  timezone p src = Ok t -> timezone p tgt = Ok t -> fixed_offset t = true ->
  convert p dt src tgt
  = Ok (expand (strftime_pads_year p) dt "%Y:%m:%d %H:%M:%S").
Proof.
  intros Hs Ht Hf.
  unfold convert. rewrite Hs, Ht. cbn [bind].
  assert (Hl : localize (recursion_limit p) t dt = Ok (mk_aware dt t)).
  { destruct t; try reflexivity. discriminate Hf. }
  rewrite Hl. cbn [bind]. unfold astimezone. cbn [tz].
  rewrite (tz_is_refl_fixed t Hf). cbn [bind].
  unfold strftime. cbn [tz local].
  assert (Hd : exists d, call_dst t = Ok d).
  { destruct t; simpl; eauto. discriminate Hf. }
  destruct Hd as (d & ->). reflexivity.
Qed.

(** X6. When source and target name the same zone and that zone has one
    offset (UTC under any spelling, or a fixed-offset zone), the
    normalizer changes no field of the timestamp: the result is the parsed
    date-time written in the output format.  With the default target
    [UTC] the processors, which assume UTC as source, therefore only
    rewrite the format of a timestamp. *)
Theorem same_fixed_zone_only_reformats (ts : pyval) (src tgt : string)
    (dt : naive) (t : tzinfo) :
  parse_loop ts formats_to_try = Ok (Some dt) ->
  timezone p src = Ok t -> timezone p tgt = Ok t -> fixed_offset t = true ->
  normalize_timestamp p ts src tgt
  = (Ok (Some (expand (strftime_pads_year p) dt "%Y:%m:%d %H:%M:%S")), []).
Proof.
  intros Hp Hs Ht Hf.
  unfold normalize_timestamp, normalize_try. rewrite Hp.
  rewrite (convert_same_fixed_zone dt src tgt t Hs Ht Hf). reflexivity.
Qed.

End SameZone.

(** The slash format with the default target: the fields are kept. *)
Lemma same_fixed_zone_only_reformats_witness :
  normalize_timestamp Sample.linux (PStr "12/31/2023 23:59:59") "UTC" "utc"
  = (Ok (Some "2023:12:31 23:59:59"), []).
Proof.
  apply (same_fixed_zone_only_reformats Sample.linux
           (PStr "12/31/2023 23:59:59") "UTC" "utc"
           (Datetime.mk_naive 2023 12 31 23 59 59) Pytz.UTC);
    vm_compute; reflexivity.
Defined.

Section RoundTrip.

Import Str Datetime Strptime Pattern Strftime.

Lemma append_nil_r_local (s : string) : s ++ "" = s.
Proof. induction s as [|c s IH]; simpl; [reflexivity | rewrite IH; reflexivity]. Qed.

Lemma match_classes_prefix ks : forall s rest,
  (List.length ks <= String.length s)%nat ->
  match_classes ks (s ++ rest) =
  match match_classes ks s with
  | Some (t, r) => Some (t, r ++ rest)
  | None => None
  end.
Proof.
  induction ks as [|k ks IH]; intros s rest Hlen; [reflexivity | ].
  destruct s as [|c s]; [simpl in Hlen; lia | ].
  simpl in Hlen. simpl.
  destruct (in_class k c); [ | reflexivity].
  rewrite IH by lia.
  destruct (match_classes ks s) as [[t r]|]; reflexivity.
Qed.

(** When the first alternative that matches takes the whole text and the
    rest of the expression then succeeds, the group is that text. *)
Lemma try_alts_first_full {R} al txt rest (k : string -> string -> option R)
    x :
  first_full al txt = true -> alts_fit al txt = true ->
  k txt rest = Some x ->
  try_alts al (txt ++ rest) k = Some x.
Proof.
  induction al as [|a al IH]; simpl; [discriminate | ].
  intros Hf Hfit Hk. apply andb_true_iff in Hfit. destruct Hfit as [Ha Hfit].
  apply Nat.leb_le in Ha.
  rewrite (match_classes_prefix a txt rest Ha).
  destruct (match_classes a txt) as [[t r]|] eqn:E; [ | apply IH; assumption].
  destruct r as [|c r]; [ | discriminate Hf].
  apply match_classes_app in E. rewrite append_nil_r_local in E.
  subst t. simpl. rewrite Hk. reflexivity.
Qed.

Lemma dir_step d txt rest its caps r :
  first_full (alts d) txt = true -> alts_fit (alts d) txt = true ->
  regex_match its rest = Some (caps, r) ->
  regex_match (IDir d :: its) (txt ++ rest) = Some ((d, txt) :: caps, r).
Proof.
  intros Hf Hfit Hm. cbn [regex_match].
  apply try_alts_first_full; try assumption. rewrite Hm. reflexivity.
Qed.

Lemma lit_step c its rest x :
  regex_match its rest = Some x ->
  regex_match (ILit c :: its) (String c rest) = Some x.
Proof. intros H. cbn [regex_match]. rewrite Ascii.eqb_refl. exact H. Qed.

Lemma match_spaces_nonspace {R} (k : string -> option R) txt rest :
  starts_nonspace txt = true -> match_spaces k (txt ++ rest) = None.
Proof.
  destruct txt as [|a txt]; [discriminate | ]. simpl.
  destruct (isspace a); [discriminate | reflexivity].
Qed.

Lemma spaces_step its txt rest x :
  starts_nonspace txt = true ->
  regex_match its (txt ++ rest) = Some x ->
  regex_match (ISpaces :: its) (String " " (txt ++ rest)) = Some x.
Proof.
  intros Hn Hm. cbn [regex_match match_spaces].
  change (isspace " ") with true. cbv iota.
  rewrite match_spaces_nonspace by assumption. exact Hm.
Qed.

Lemma range_check (P : Z -> bool) (lo hi : Z) :
  (0 <=? lo) &&
  forallb (fun n => (n <? lo) || P n)
          (map Z.of_nat (seq 0 (Z.to_nat (hi + 1)))) = true ->
  forall n, lo <= n <= hi -> P n = true.
Proof.
  intros H n Hn. apply andb_true_iff in H. destruct H as (Hlo & H).
  apply Z.leb_le in Hlo.
  pose proof (below_forall (fun n => (n <? lo) || P n) (hi + 1) H n) as Hb.
  cbv beta in Hb.
  destruct (Z.ltb_spec n lo); [lia | ]. apply Hb. lia.
Qed.

Lemma all_of_length ks : forall s,
  all_of ks s = true -> String.length s = List.length ks.
Proof.
  induction ks as [|k ks IH]; intros s H.
  - destruct s; [reflexivity | discriminate H].
  - destruct s as [|c s]; [discriminate H | ].
    rewrite all_of_cons in H. apply andb_true_iff in H.
    simpl. f_equal. apply IH, H.
Qed.

Lemma year_fits y : 0 <= y <= 9999 -> fits dY 4 y = true.
Proof.
  intros Hy. pose proof (zfill4_digits y ltac:(lia)) as H.
  unfold fits, alts_fit. cbn [alts first_full forallb].
  rewrite (all_of_length _ _ H). unfold all_of in H.
  destruct (match_classes [Digit; Digit; Digit; Digit] (zfill 4 y))
    as [[t [|c r]]|]; try discriminate H. reflexivity.
Qed.

Lemma month_fits n : 1 <= n <= 12 -> fits dm 2 n = true.
Proof. apply (range_check (fits dm 2)). vm_compute. reflexivity. Qed.

Lemma day_fits n : 1 <= n <= 31 -> fits dd 2 n = true.
Proof. apply (range_check (fits dd 2)). vm_compute. reflexivity. Qed.

Lemma hour_fits n : 0 <= n <= 23 -> fits dH 2 n = true.
Proof. apply (range_check (fits dH 2)). vm_compute. reflexivity. Qed.

Lemma minute_fits n : 0 <= n <= 59 -> fits dM 2 n = true.
Proof. apply (range_check (fits dM 2)). vm_compute. reflexivity. Qed.

Lemma second_fits n : 0 <= n <= 59 -> fits dS 2 n = true.
Proof. apply (range_check (fits dS 2)). vm_compute. reflexivity. Qed.

Lemma hour_starts_nonspace n :
  0 <= n <= 23 -> starts_nonspace (zfill 2 n) = true.
Proof.
  apply (range_check (fun n => starts_nonspace (zfill 2 n))).
  vm_compute. reflexivity.
Qed.

(** [int] on decimal digits: the accumulator of [int_digits] is that of
    the library's [of_uint]. *)
Lemma of_uint_acc_value l : forall acc,
  Z.pos (Pos.of_uint_acc l acc) = uint_value l (Z.pos acc).
Proof.
  induction l; intros acc; cbn [Pos.of_uint_acc uint_value];
    try reflexivity; rewrite IHl; f_equal; lia.
Qed.

Lemma of_uint_value l : Z.of_N (Pos.of_uint l) = uint_value l 0.
Proof.
  induction l; cbn [Pos.of_uint uint_value Z.of_N]; try reflexivity;
    try exact IHl; apply of_uint_acc_value.
Qed.

Lemma int_digits_uint d : forall acc,
  int_digits (NilEmpty.string_of_uint d) acc = Ok (uint_value d acc).
Proof.
  induction d; intros acc; cbn [NilEmpty.string_of_uint uint_value];
    try reflexivity; cbn [int_digits];
    match goal with
    | |- context [isdigit ?c] => change (isdigit c) with true
    end; cbv iota;
    match goal with
    | |- context [code ?c - 48] =>
        let v := eval vm_compute in (code c - 48) in
        change (code c - 48) with v
    end; apply IHd.
Qed.

Lemma digit_not_space c : isdigit c = true -> isspace c = false.
Proof.
  unfold isdigit, isspace. cbv zeta. intros H.
  apply andb_true_iff in H. destruct H as (H1 & H2).
  apply Z.leb_le in H1, H2.
  repeat match goal with
         | |- context [?a <=? ?b] => destruct (Z.leb_spec a b); try lia
         | |- context [?a =? ?b] => destruct (Z.eqb_spec a b); try lia
         end.
Qed.

Lemma int_of_digits s : starts_digit s = true -> int s = int_digits s 0.
Proof.
  destruct s as [|c s]; [discriminate | ]. cbn [starts_digit]. intros H.
  unfold int. cbn [lstrip]. rewrite (digit_not_space c H), H. reflexivity.
Qed.

Lemma string_of_uint_starts_digit d :
  starts_digit (NilZero.string_of_uint d) = true.
Proof. destruct d; reflexivity. Qed.

Lemma int_digits_decimal n : 0 <= n -> int_digits (decimal n) 0 = Ok n.
Proof.
  intros Hn. unfold decimal.
  assert (E : uint_value (N.to_uint (Z.to_N n)) 0 = n).
  { rewrite <- of_uint_value.
    change (Pos.of_uint (N.to_uint (Z.to_N n)))
      with (N.of_uint (N.to_uint (Z.to_N n))).
    rewrite DecimalN.Unsigned.of_to. lia. }
  destruct (N.to_uint (Z.to_N n)) as [|l|l|l|l|l|l|l|l|l|l] eqn:Ed;
    [simpl in E; subst n; reflexivity | .. ];
    rewrite <- E; apply (int_digits_uint _ 0).
Qed.

Lemma int_digits_zeros k s : int_digits (zeros k ++ s) 0 = int_digits s 0.
Proof. induction k as [|k IH]; [reflexivity | exact IH]. Qed.

(** [int] reads a zero-filled number back. *)
Lemma int_zfill w n : 0 <= n -> int (zfill w n) = Ok n.
Proof.
  intros Hn. unfold zfill. cbv zeta.
  rewrite int_of_digits.
  - rewrite int_digits_zeros. apply int_digits_decimal, Hn.
  - destruct (w - String.length (decimal n))%nat; [ | reflexivity].
    apply string_of_uint_starts_digit.
Qed.

Lemma int_zfill2 n : 0 <= n <= 99 -> int (zfill 2 n) = Ok n.
Proof. intros Hn. apply int_zfill. lia. Qed.

Lemma int_zfill4 y : 0 <= y <= 9999 -> int (zfill 4 y) = Ok y.
Proof. intros Hy. apply int_zfill. lia. Qed.

Lemma decimal_is_zfill4 y : 1000 <= y <= 9999 -> decimal y = zfill 4 y.
Proof.
  intros Hy. unfold zfill. cbv zeta.
  rewrite (all_of_length _ _ (decimal4_digits y ltac:(lia))). reflexivity.
Qed.

Lemma short_decimal y :
  1 <= y <= 999 -> (String.length (decimal y) <= 3)%nat.
Proof.
  intros Hy.
  pose proof (range_check
                (fun y => (String.length (decimal y) <=? 3)%nat)
                1 999 ltac:(vm_compute; reflexivity) y Hy) as H.
  apply Nat.leb_le in H. exact H.
Qed.

(** The first format reads a formatted date-time back. *)
Lemma strptime_reads_zfilled t :
  valid t ->
  strptime
    (PStr (zfill 4 (year t)
           ++ String ":" (zfill 2 (month t)
           ++ String ":" (zfill 2 (day t)
           ++ String " " (zfill 2 (hour t)
           ++ String ":" (zfill 2 (minute t)
           ++ String ":" (zfill 2 (second t) ++ "")))))))
    "%Y:%m:%d %H:%M:%S" = Ok t.
Proof.
  intros Hv. pose proof (valid_bounds t Hv) as Hb.
  unfold strptime.
  change (pattern "%Y:%m:%d %H:%M:%S" false)
    with (Ok [IDir dY; ILit ":"; IDir dm; ILit ":"; IDir dd; ISpaces;
              IDir dH; ILit ":"; IDir dM; ILit ":"; IDir dS]).
  cbv beta iota delta [bind].
  assert (Hfit : forall d w n, fits d w n = true ->
            first_full (alts d) (zfill w n) = true /\
            alts_fit (alts d) (zfill w n) = true).
  { intros d w n H. apply andb_true_iff in H. exact H. }
  destruct (Hfit _ _ _ (year_fits (year t) ltac:(lia))) as (Y1 & Y2).
  destruct (Hfit _ _ _ (month_fits (month t) ltac:(lia))) as (M1 & M2).
  destruct (Hfit _ _ _ (day_fits (day t) ltac:(lia))) as (D1 & D2).
  destruct (Hfit _ _ _ (hour_fits (hour t) ltac:(lia))) as (H1 & H2).
  destruct (Hfit _ _ _ (minute_fits (minute t) ltac:(lia))) as (I1 & I2).
  destruct (Hfit _ _ _ (second_fits (second t) ltac:(lia))) as (S1 & S2).
  rewrite (dir_step dY _ _ _
             [(dm, zfill 2 (month t)); (dd, zfill 2 (day t));
              (dH, zfill 2 (hour t)); (dM, zfill 2 (minute t));
              (dS, zfill 2 (second t))] "" Y1 Y2).
  - cbn [is_empty negb read_groups].
    rewrite (int_zfill4 (year t)) by lia. cbn [bind].
    rewrite !int_zfill2 by lia. cbn [bind set_field fields0 f_year f_month
      f_day f_hour f_minute f_second].
    unfold valid in Hv. apply andb_true_iff in Hv. destruct Hv as (Hd & Ht).
    unfold new_date, new. rewrite Hd, Ht. cbn [bind andb].
    destruct t; reflexivity.
  - apply lit_step. apply dir_step; try assumption.
    apply lit_step. apply dir_step; try assumption.
    apply spaces_step; [apply hour_starts_nonspace; lia | ].
    apply dir_step; try assumption.
    apply lit_step. apply dir_step; try assumption.
    apply lit_step. apply dir_step; try assumption.
    reflexivity.
Qed.

(** A date-time written by the output format with a four-digit year is
    read back by the first format. *)
Lemma strptime_expand (pads : bool) (t : naive) :
  valid t -> pads = true \/ 1000 <= year t ->
  strptime (PStr (expand pads t "%Y:%m:%d %H:%M:%S")) "%Y:%m:%d %H:%M:%S"
  = Ok t.
Proof.
  intros Hv Hy. pose proof (valid_bounds t Hv) as Hb.
  rewrite expand_exif.
  assert (E : (if pads then zfill 4 (year t) else decimal (year t))
              = zfill 4 (year t)).
  { destruct pads; [reflexivity | ].
    destruct Hy as [Hy|Hy]; [discriminate | apply decimal_is_zfill4; lia]. }
  rewrite E. apply strptime_reads_zfilled, Hv.
Qed.

Lemma append_length s1 : forall s2,
  String.length (s1 ++ s2) = (String.length s1 + String.length s2)%nat.
Proof. induction s1; intros s2; simpl; [reflexivity | f_equal; apply IHs1]. Qed.

(** The full shape forces a four-digit year. *)
Lemma exif_format_year pads t :
  valid t -> exif_format (expand pads t "%Y:%m:%d %H:%M:%S") = true ->
  pads = true \/ 1000 <= year t.
Proof.
  intros Hv Hf. pose proof (valid_bounds t Hv) as Hb.
  destruct pads; [left; reflexivity | right].
  destruct (Z_lt_le_dec (year t) 1000) as [Hlt|Hge]; [exfalso | exact Hge].
  rewrite expand_exif in Hf.
  apply all_of_length in Hf. rewrite append_length in Hf.
  pose proof (all_of_length _ _ (tail_shape t Hv)) as Htl.
  rewrite Htl in Hf.
  pose proof (short_decimal (year t) ltac:(lia)) as Hs.
  change (List.length exif_shape) with 19%nat in Hf.
  change (List.length exif_tail) with 15%nat in Hf. lia.
Qed.

(** X7. The normalizer is idempotent within a zone of one offset: a
    string it returned in the shape [YYYY:MM:DD HH:MM:SS], handed back
    with the same such zone as source and target, is accepted by the
    first format and returned unchanged, with nothing logged.  (A result
    with a shorter year is not covered.) *)
Theorem normalize_timestamp_keeps_its_output (p : platform) (ts : pyval)
    (src tgt out : string) (lg : log) (z : string) (t : Pytz.tzinfo) :
  normalize_timestamp p ts src tgt = (Ok (Some out), lg) ->
  exif_format out = true ->
  timezone p z = Ok t -> fixed_offset t = true ->
  normalize_timestamp p (PStr out) z z = (Ok (Some out), []).
Proof.
  intros Hn Hf Hz Hfix.
  apply normalize_timestamp_formats_valid in Hn.
  destruct Hn as (dt & Hv & ->).
  pose proof (exif_format_year _ _ Hv Hf) as Hy.
  unfold normalize_timestamp, normalize_try, formats_to_try.
  cbn [parse_loop]. rewrite (strptime_expand _ _ Hv Hy).
  rewrite (convert_same_fixed_zone p dt z z t Hz Hz Hfix). reflexivity.
Qed.

End RoundTrip.

(** The New York time of the June noon, normalized again within UTC. *)
Lemma normalize_timestamp_keeps_its_output_witness :
  normalize_timestamp Sample.linux (PStr "2023:06:15 08:00:00") "UTC" "UTC"
  = (Ok (Some "2023:06:15 08:00:00"), []).
Proof.
  apply (normalize_timestamp_keeps_its_output Sample.linux
           (PStr "2023-06-15 12:00:00") "UTC" "America/New_York"
           "2023:06:15 08:00:00" [] "UTC" Pytz.UTC);
    vm_compute; reflexivity.
Defined.

(** ** What the normalizer logs *)

Section NormalizerLog.

Variable p : platform.

(** X8. The normalizer is silent when it succeeds and logs exactly one
    line, at level [ERROR], when it returns [None]: the parse failure of
    line 51, the unknown zone of line 66 or the other exception of line
    69.  No call logs two lines, and none fails silently. *)
Theorem normalize_timestamp_logs_one_error_or_nothing (ts : pyval)
    (src tgt : string) :
  (exists out, normalize_timestamp p ts src tgt = (Ok (Some out), [])) \/
  (exists m,
     normalize_timestamp p ts src tgt = (Ok None, [(ERROR, m)]) /\
     (m = Could_not_parse ts \/
      (exists e, m = Invalid_timezone e) \/
      (exists e, m = Error_normalizing e))).
Proof.
  unfold normalize_timestamp.
  pose proof (normalize_try_caught p ts src tgt) as Hc.
  unfold normalize_try in *.
  destruct (parse_loop ts formats_to_try) as [[dt|]|e].
  - destruct (convert p dt src tgt) as [s|e].
    + left. eauto.
    + right. simpl in Hc.
      destruct (issubclass e UnknownTimeZoneError);
        [eexists; split; [reflexivity | eauto] | ].
      rewrite Hc. eexists; split; [reflexivity | eauto].
  - right. eexists; split; [reflexivity | eauto].
  - right. simpl in Hc.
    destruct (issubclass e UnknownTimeZoneError);
      [eexists; split; [reflexivity | eauto] | ].
    rewrite Hc. eexists; split; [reflexivity | eauto].
Qed.

(** X9. A value that is not a string (an integer or a byte string, as
    EXIF tags can hold) is refused with the [TypeError] of [strptime]: the
    inner [except ValueError] does not catch it, so no other format is
    tried and the line logged is that of the last clause, whatever the
    zones are, known or not. *)
Theorem normalize_timestamp_refuses_non_strings (v : pyval)
    (src tgt : string) :
  (forall s, v <> PStr s) ->
  normalize_timestamp p v src tgt
  = (Ok None, [(ERROR, Error_normalizing TypeError)]).
Proof.
  intros Hv. destruct v as [s|n|b]; [destruct (Hv s); reflexivity | | ];
    reflexivity.
Qed.

End NormalizerLog.

Lemma normalize_timestamp_refuses_non_strings_witness :
  normalize_timestamp Sample.linux (PInt 20230615) "UTC" "Mars/Olympus"
  = (Ok None, [(ERROR, Error_normalizing TypeError)]).
Proof.
  apply (normalize_timestamp_refuses_non_strings Sample.linux
           (PInt 20230615) "UTC" "Mars/Olympus").
  intros s. discriminate.
Defined.

(** ** The whole program *)

Section TextNeverWrites.

Variables (p : platform) (cd : codecs).

Lemma text_program_try_keeps_files file_path tz dry_run verbose w :
  files (snd (process_text_try (normalize_timestamp p) cd file_path tz
                dry_run verbose w)) = files w.
Proof.
  unfold process_text_try. unfold bindM at 1. unfold read_file.
  destruct (files w file_path) as [raw|] eqn:Ef; [ | reflexivity].
  unfold bindM at 1. unfold lift at 1.
  destruct (detect cd raw) as [encoding|e]; [ | reflexivity].
  unfold bindM at 1. rewrite Ef.
  unfold bindM at 1. unfold lift at 1.
  destruct (decode cd encoding raw) as [content|e]; [ | reflexivity].
  unfold bindM at 1. unfold lift at 1.
  destruct (scan_lines (Str.splitlines content)) as [cands|e] eqn:Es;
    [ | reflexivity].
  unfold bindM at 1.
  rewrite (replace_loop_rejects p cands tz content [] w
             (scan_lines_no_space _ _ Es)).
  rewrite logging_run. reflexivity.
Qed.

Lemma text_program_keeps_files file_path tz dry_run verbose w :
  files (snd (process_text_file p cd file_path tz dry_run verbose w))
  = files w.
Proof.
  unfold process_text_file.
  destruct (process_text_file_handler (normalize_timestamp p) cd file_path
              tz dry_run verbose w) as (tail & _ & ->).
  simpl. apply text_program_try_keeps_files.
Qed.

End TextNeverWrites.

Section MainFacts.

Variables (p : platform) (pil : pillow) (cd : codecs).

Lemma image_program_keeps_files file_path tz dry_run verbose w :
  dry_run = true \/ ExifTag pil = None ->
  files (snd (process_image_file p pil file_path tz dry_run verbose w))
  = files w.
Proof.
  intros H.
  destruct (process_image_file_run (normalize_timestamp p) pil file_path tz
              dry_run verbose w) as (evs & _ & _ & Hf & Hd & Hn & _).
  apply Hf. destruct H as [H|H]; [apply Hd, H | apply Hn, H].
Qed.

(** X10. The exit status of the program tells only whether the path
    exists.  With library functions that raise nothing outside
    [Exception], a run on an existing path ends with status 0 whatever
    happened to the file (unreadable image, undecodable text, failed save,
    unsupported type): both processors catch every exception themselves,
    so the handler of [main] (lines 218-220) is never entered and its
    line is never logged.  A run on a missing path logs one error, does
    nothing else and ends with status 1. *)
Theorem main_exit_status (a : arguments) (w : world) :
  pillow_raises_Exceptions pil -> codecs_raise_Exceptions cd ->
  (files w (file_path a) = None ->
   main p pil cd a w
   = mk_run (Exit 1) w [(ERROR, Main_file_not_found (file_path a))]) /\
  (files w (file_path a) <> None ->
   ended (main p pil cd a w) = Exit 0 /\
   forall lv e,
     ~ In (lv, Main_unexpected_error e) (said (main p pil cd a w))).
Proof.
  intros Hpil Hcd. unfold main. split.
  - intros ->. reflexivity.
  - destruct (files w (file_path a)) as [raw|]; [intros _ | congruence].
    unfold dispatch.
    destruct (str_in _ image_extensions).
    + pose proof (process_image_file_with_returns (normalize_timestamp p)
                    (normalize_timestamp_caught p) pil (file_path a)
                    (timezone_arg a) (dry_run a) (verbose a) w Hpil) as Hr.
      unfold process_image_file.
      destruct (process_image_file_with _ _ _ _ _ _ w) as [r w1].
      simpl in Hr. subst r. simpl. split; [reflexivity | tauto].
    + destruct (str_in _ text_extensions).
      * pose proof (process_text_file_with_returns (normalize_timestamp p)
                      (normalize_timestamp_caught p) cd (file_path a)
                      (timezone_arg a) (dry_run a) (verbose a) w Hcd) as Hr.
        unfold process_text_file.
        destruct (process_text_file_with _ _ _ _ _ _ w) as [r w1].
        simpl in Hr. subst r. simpl. split; [reflexivity | tauto].
      * simpl. split; [reflexivity | ].
        intros lv e [H|[]]. discriminate H.
Qed.

(** X11. Which runs leave every file as it was: a dry run, a run with a
    Pillow whose module [PIL.ExifTags] has no [ExifTag] (every released
    one), and a run on a path whose extension is not one of the five image
    extensions; the last covers every text file, since no candidate of the
    text processor is ever normalized. *)
Theorem main_leaves_the_files (a : arguments) (w : world) :
  dry_run a = true \/ ExifTag pil = None \/
  str_in (Path.lower (snd (Path.splitext (file_path a)))) image_extensions
  = false ->
  files (left (main p pil cd a w)) = files w.
Proof.
  intros H. unfold main.
  destruct (files w (file_path a)) as [raw|]; [ | reflexivity].
  unfold dispatch.
  destruct (str_in _ image_extensions) eqn:Ei.
  - assert (Hk : dry_run a = true \/ ExifTag pil = None).
    { destruct H as [H|[H|H]]; [auto | auto | discriminate H]. }
    pose proof (image_program_keeps_files (file_path a) (timezone_arg a)
                  (dry_run a) (verbose a) w Hk) as Hf.
    destruct (process_image_file p pil _ _ _ _ w) as [[u|e] w1];
      simpl in Hf; [exact Hf | ].
    destruct (issubclass e Exception); exact Hf.
  - destruct (str_in _ text_extensions).
    + pose proof (text_program_keeps_files p cd (file_path a)
                    (timezone_arg a) (dry_run a) (verbose a) w) as Hf.
      destruct (process_text_file p cd _ _ _ _ w) as [[u|e] w1];
        simpl in Hf; [exact Hf | ].
      destruct (issubclass e Exception); exact Hf.
    + reflexivity.
Qed.

(** X12. A run of the program changes no file but the one named on the
    command line, whatever the libraries do. *)
Theorem main_touches_only_its_file (a : arguments) (w : world) :
  touches_only (file_path a) w (left (main p pil cd a w)).
Proof.
  unfold main.
  destruct (files w (file_path a)) as [raw|]; [ | intros q _; reflexivity].
  unfold dispatch.
  destruct (str_in _ image_extensions).
  - pose proof (reached_touches_only _ _ _
                  (process_image_file_reached (normalize_timestamp p) pil
                     (file_path a) (timezone_arg a) (dry_run a) (verbose a)
                     w)) as Hf.
    unfold process_image_file.
    destruct (process_image_file_with _ _ _ _ _ _ w) as [[u|e] w1];
      simpl in Hf; [exact Hf | ].
    destruct (issubclass e Exception); exact Hf.
  - destruct (str_in _ text_extensions).
    + pose proof (reached_touches_only _ _ _
                    (process_text_file_reached (normalize_timestamp p) cd
                       (file_path a) (timezone_arg a) (dry_run a)
                       (verbose a) w)) as Hf.
      unfold process_text_file.
      destruct (process_text_file_with _ _ _ _ _ _ w) as [[u|e] w1];
        simpl in Hf; [exact Hf | ].
      destruct (issubclass e Exception); exact Hf.
    + intros q _; reflexivity.
Qed.

End MainFacts.

(** An image that Pillow cannot identify: the error is logged by the
    processor and the status is 0. *)
Lemma main_exit_status_witness :
  ended (main Sample.linux Faulty.pillow_unreadable Sample.ascii_codecs
           (mk_arguments "photo.jpg" "UTC" false false) Sample.image_disk)
  = Exit 0.
Proof.
  apply (main_exit_status Sample.linux Faulty.pillow_unreadable
           Sample.ascii_codecs (mk_arguments "photo.jpg" "UTC" false false)
           Sample.image_disk).
  - repeat split; intros; simpl; try exact I; try reflexivity. discriminate.
  - repeat split; intros; exact I.
  - simpl. discriminate.
Defined.

(** A dry run on the sample photo with a Pillow that could save. *)
Lemma main_leaves_the_files_witness :
  files (left (main Sample.linux Sample.pillow_with_ExifTag
                 Sample.ascii_codecs
                 (mk_arguments "photo.jpg" "America/New_York" true false)
                 Sample.image_disk))
  = files Sample.image_disk.
Proof.
  apply (main_leaves_the_files Sample.linux Sample.pillow_with_ExifTag
           Sample.ascii_codecs
           (mk_arguments "photo.jpg" "America/New_York" true false)
           Sample.image_disk).
  left. reflexivity.
Defined.

(** ** What [--verbose] changes *)

Section Verbose.

Variables (normalize : normalizer) (pil : pillow).

Lemma agree_bind {A B} (m1 m2 : M A) (k1 k2 : A -> M B) :
  agree m1 m2 -> (forall a, agree (k1 a) (k2 a)) ->
  agree (bindM m1 k1) (bindM m2 k2).
Proof.
  intros Hm Hk w1 w2 Hw. unfold bindM.
  destruct (Hm w1 w2 Hw) as (Hr & Hw').
  destruct (m1 w1) as [[a1|e1] w1'], (m2 w2) as [[a2|e2] w2'];
    simpl in Hr, Hw'; try discriminate Hr.
  - inversion Hr; subst. apply Hk, Hw'.
  - inversion Hr; subst. split; [reflexivity | exact Hw'].
Qed.

Lemma agree_lift {A} (r : result A) : agree (lift r) (lift r).
Proof. intros w1 w2 Hw. split; [reflexivity | exact Hw]. Qed.

Lemma agree_ret {A} (a : A) : agree (ret a) (ret a).
Proof. intros w1 w2 Hw. split; [reflexivity | exact Hw]. Qed.

Lemma other_events_app a b :
  other_events (a ++ b) = (other_events a ++ other_events b)%list.
Proof. apply filter_app. Qed.

Lemma agree_emit ev : agree (emit ev) (emit ev).
Proof.
  intros w1 w2 (Hf & Ht). split; [reflexivity | ].
  split; [exact Hf | ]. simpl. rewrite !other_events_app, Ht. reflexivity.
Qed.

Lemma agree_logging lv m : agree (logging lv m) (logging lv m).
Proof. apply agree_emit. Qed.

Lemma agree_emit_log lg : agree (emit_log lg) (emit_log lg).
Proof.
  intros w1 w2 (Hf & Ht). split; [reflexivity | ].
  split; [exact Hf | ]. simpl. rewrite !other_events_app, Ht. reflexivity.
Qed.

Lemma agree_read_file file_path :
  agree (read_file file_path) (read_file file_path).
Proof.
  intros w1 w2 Hw. unfold read_file. destruct Hw as (Hf & Ht).
  rewrite Hf. destruct (files w2 file_path); (split; [reflexivity | ]);
    split; simpl; assumption.
Qed.

Lemma agree_write_file file_path b :
  agree (write_file file_path b) (write_file file_path b).
Proof.
  intros w1 w2 (Hf & Ht). split; [reflexivity | ].
  split; simpl; [rewrite Hf; reflexivity | ].
  rewrite !other_events_app, Ht. reflexivity.
Qed.

Lemma agree_call_normalize v src tgt :
  agree (call_normalize normalize v src tgt)
        (call_normalize normalize v src tgt).
Proof.
  unfold call_normalize.
  apply agree_bind; [apply agree_emit | intros _].
  destruct (normalize v src tgt) as [r lg].
  apply agree_bind; [apply agree_emit_log | intros _; apply agree_lift].
Qed.

(** Line 94 against its absence. *)
Lemma agree_processing_line tag tag_id value :
  agree (logging INFO (Processing_tag tag tag_id value)) (ret tt).
Proof.
  intros w1 w2 (Hf & Ht). split; [reflexivity | ].
  split; [exact Hf | ]. simpl. rewrite other_events_app, Ht. simpl.
  apply app_nil_r.
Qed.

Lemma agree_stage_tags items : forall tz acc,
  agree (stage_tags normalize pil items tz true acc)
        (stage_tags normalize pil items tz false acc).
Proof.
  induction items as [|[tag_id value] rest IH]; intros tz acc.
  - apply agree_ret.
  - cbn [stage_tags].
    apply agree_bind; [apply agree_processing_line | intros _].
    destruct (is_datetime_tag (TAGS pil tag_id)); [ | apply IH].
    apply agree_bind; [apply agree_call_normalize | intros r].
    destruct (truthy r);
      (apply agree_bind; [apply agree_logging | intros _; apply IH]).
Qed.

Lemma agree_img_save img file_path exif :
  agree (img_save pil img file_path exif) (img_save pil img file_path exif).
Proof.
  unfold img_save. destruct (save pil img exif) as [[b|] r];
    (apply agree_bind; [ | intros _; apply agree_lift]).
  - apply agree_write_file.
  - apply agree_ret.
Qed.

Lemma agree_process_image_try file_path tz dry_run :
  agree (process_image_try normalize pil file_path tz dry_run true)
        (process_image_try normalize pil file_path tz dry_run false).
Proof.
  unfold process_image_try.
  apply agree_bind; [apply agree_read_file | intros raw].
  apply agree_bind; [apply agree_lift | intros img].
  apply agree_bind; [apply agree_lift | intros [exif_data|]];
    [ | apply agree_logging].
  apply agree_bind; [apply agree_stage_tags | intros [|kv staged]];
    [apply agree_logging | ].
  destruct (negb dry_run); [ | apply agree_logging].
  apply agree_bind; [apply agree_lift | intros new_exif].
  apply agree_bind; [apply agree_img_save | intros _; apply agree_logging].
Qed.

Lemma agree_process_image_file file_path tz dry_run :
  agree (process_image_file_with normalize pil file_path tz dry_run true)
        (process_image_file_with normalize pil file_path tz dry_run false).
Proof.
  intros w1 w2 Hw. unfold process_image_file_with.
  destruct (agree_process_image_try file_path tz dry_run w1 w2 Hw)
    as (Hr & Hw').
  destruct (process_image_try normalize pil file_path tz dry_run true w1)
    as [[u1|e1] w1'],
    (process_image_try normalize pil file_path tz dry_run false w2)
    as [[u2|e2] w2']; simpl in Hr, Hw'; try discriminate Hr.
  - split; simpl; assumption.
  - inversion Hr; subst e2.
    destruct (issubclass e1 FileNotFoundError); [apply agree_logging, Hw' | ].
    destruct (issubclass e1 OSError); [apply agree_logging, Hw' | ].
    destruct (issubclass e1 Exception); [apply agree_logging, Hw' | ].
    split; simpl; assumption.
Qed.

(** X13. [--verbose] changes nothing but the log: a verbose run of the
    image processor returns what the quiet run returns, leaves the same
    files, hands the same values to the normalizer and logs the same
    lines in the same order, with the "Processing tag" lines (line 94)
    in between.  The text processor does not read its [verbose] argument
    at all. *)
Theorem verbose_adds_only_processing_lines (cd : codecs)
    (file_path tz : string) (dry_run : bool) (w : world) :
  let loud := process_image_file_with normalize pil file_path tz dry_run
                true w in
  let quiet := process_image_file_with normalize pil file_path tz dry_run
                 false w in
  fst loud = fst quiet /\
  files (snd loud) = files (snd quiet) /\
  other_events (trace (snd loud)) = other_events (trace (snd quiet)) /\
  process_text_file_with normalize cd file_path tz dry_run true w
  = process_text_file_with normalize cd file_path tz dry_run false w.
Proof.
  intros loud quiet.
  destruct (agree_process_image_file file_path tz dry_run w w
              (conj eq_refl eq_refl)) as (Hr & Hf & Ht).
  repeat split; assumption || reflexivity.
Qed.

End Verbose.

(** ** Which paths [main] acts on *)

Section Dispatch.

Variables (p : platform) (pil : pillow) (cd : codecs).

Lemma take_drop n : forall s, Path.take n s ++ Path.drop n s = s.
Proof.
  induction n as [|n IH]; intros [|c s]; simpl; try reflexivity.
  rewrite IH. reflexivity.
Qed.

(** [root + ext == p], as the library documents. *)
Lemma splitext_join path :
  fst (Path.splitext path) ++ snd (Path.splitext path) = path.
Proof.
  unfold Path.splitext.
  destruct (_ && _); simpl; [apply take_drop | ].
  induction path as [|c s IH]; simpl; [reflexivity | rewrite IH; reflexivity].
Qed.

(** X14. The program acts only on an existing path that ends, in any
    letter case, with one of its ten extensions: every other run leaves
    the world as it was (no file read or written, no normalizer call, no
    line from a processor).  The extension is compared after
    [os.path.splitext] and [lower], so it is a suffix of the path. *)
Theorem main_acts_only_on_supported_suffixes (a : arguments) (w : world) :
  left (main p pil cd a w) <> w ->
  files w (file_path a) <> None /\
  exists stem e,
    file_path a = stem ++ e /\
    str_in (Path.lower e) (image_extensions ++ text_extensions) = true.
Proof.
  unfold main.
  destruct (files w (file_path a)) as [raw|];
    [ | intros H; destruct H; reflexivity].
  intros H. split; [discriminate | ].
  exists (fst (Path.splitext (file_path a))),
         (snd (Path.splitext (file_path a))).
  split; [symmetry; apply splitext_join | ].
  unfold str_in. rewrite existsb_app. apply orb_true_iff.
  unfold dispatch, str_in in H.
  destruct (existsb _ image_extensions); [left; reflexivity | ].
  destruct (existsb _ text_extensions); [right; reflexivity | ].
  destruct H. reflexivity.
Qed.

End Dispatch.

(** The sample photo with a Pillow that cannot read it: a line is logged. *)
Lemma main_acts_only_on_supported_suffixes_witness :
  exists stem e,
    "photo.jpg" = stem ++ e /\
    str_in (Path.lower e) (image_extensions ++ text_extensions) = true.
Proof.
  apply (main_acts_only_on_supported_suffixes Sample.linux
           Faulty.pillow_unreadable Sample.ascii_codecs
           (mk_arguments "photo.jpg" "UTC" false false) Sample.image_disk).
  intros H. apply (f_equal trace) in H. vm_compute in H. discriminate H.
Defined.
